(** * hunter-seeker: the CSV import pipeline and the job-application store

    A shallow embedding of [internal/handlers/handlers.go],
    [internal/database/database.go] and [internal/models/models.go].

    Go strings are byte strings ([string]); [int] values that count rows are
    [nat] (they are bounded by [len(records)]); identifiers and instants are
    [Z].  The relational store is a table of rows kept in rowid order
    together with the AUTOINCREMENT sequence; each SQL statement of
    database.go is given its relational meaning.  Failures of the SQL driver
    are an explicit input ([fault]) of every store operation. *)

From Stdlib Require Import ZArith String Ascii List Bool Lia DecimalString DecimalNat.
From stdpp Require Import gmap strings list sorting.

Local Open Scope Z_scope.

(** ** Go's [strings] package, as used by handlers.go *)

Module strings.

Definition byte_lt (c : ascii) (n : N) : bool := (N_of_ascii c <? n)%N.

(** [c < utf8.RuneSelf] *)
Definition isASCIIbyte (c : ascii) : bool := byte_lt c 128.

Fixpoint string_forall (p : ascii -> bool) (s : string) : bool :=
  match s with
  | EmptyString => true
  | String c s' => p c && string_forall p s'
  end.

Fixpoint string_map (f : ascii -> ascii) (s : string) : string :=
  match s with
  | EmptyString => EmptyString
  | String c s' => String (f c) (string_map f s')
  end.

Fixpoint string_rev_onto (s acc : string) : string :=
  match s with
  | EmptyString => acc
  | String c s' => string_rev_onto s' (String c acc)
  end.

Definition string_rev (s : string) : string := string_rev_onto s EmptyString.

Fixpoint HasPrefix (s prefix : string) : bool :=
  match prefix, s with
  | EmptyString, _ => true
  | String p prefix', String c s' => Ascii.eqb c p && HasPrefix s' prefix'
  | String _ _, EmptyString => false
  end.

(** [strings.Contains(s, substr)]: some suffix of [s] starts with [substr]. *)
Fixpoint Contains (s substr : string) : bool :=
  HasPrefix s substr ||
  match s with
  | EmptyString => false
  | String _ s' => Contains s' substr
  end.

Definition isUpper (c : ascii) : bool :=
  (65 <=? N_of_ascii c)%N && (N_of_ascii c <=? 90)%N.

(** [c += 'a' - 'A'] on an upper-case ASCII letter *)
Definition lowerByte (c : ascii) : ascii :=
  if isUpper c then ascii_of_N (N_of_ascii c + 32) else c.

(** The table [asciiSpace]: tab, newline, vertical tab, form feed,
    carriage return and space. *)
Definition asciiSpace (c : ascii) : bool :=
  let n := N_of_ascii c in
  ((9 <=? n)%N && (n <=? 13)%N) || (n =? 32)%N.

Section Unicode.
(** The three library paths below are taken on strings with bytes outside
    ASCII; they depend on the Unicode tables of the Go runtime and stay
    parameters of the development. *)
Variable Map_unicode_ToLower : string -> string.
Variable TrimFunc_IsSpace : string -> string.
Variable TrimRightFunc_IsSpace : string -> string.

(** [strings.ToLower]: ASCII-only strings are lowered byte by byte (and
    returned unchanged when they have no upper-case letter); any other
    string goes through [Map(unicode.ToLower, s)]. *)
Definition ToLower (s : string) : string :=
  if string_forall isASCIIbyte s
  then (if string_forall (fun c => negb (isUpper c)) s then s
        else string_map lowerByte s)
  else Map_unicode_ToLower s.

(** Second loop of [strings.TrimSpace]: [r] is the reverse of
    [s[start:stop]]; [stop] moves left over ASCII spaces. *)
Fixpoint TrimSpace_stop (r : string) : string :=
  match r with
  | EmptyString => EmptyString
  | String c r' =>
      if negb (isASCIIbyte c) then TrimRightFunc_IsSpace (string_rev r)
      else if asciiSpace c then TrimSpace_stop r'
      else string_rev r
  end.

(** First loop of [strings.TrimSpace]: [start] moves right over ASCII
    spaces. *)
Fixpoint TrimSpace (s : string) : string :=
  match s with
  | EmptyString => TrimSpace_stop EmptyString
  | String c s' =>
      if negb (isASCIIbyte c) then TrimFunc_IsSpace s
      else if asciiSpace c then TrimSpace s'
      else TrimSpace_stop (string_rev s)
  end.
End Unicode.

End strings.

(** [fmt]'s [%d] verb on a non-negative [int]. *)
Definition fmt_d (n : nat) : string := NilEmpty.string_of_uint (Nat.to_uint n).

(** ** Go's [time.Parse], for the layouts handlers.go passes to it

    Modelled after [time/format.go] of the Go standard library.  Only the
    layout elements for years, months and days are interpreted; a layout with
    text that is, or may be, another element is outside the model
    ([stdOther], on which [Parse] gives [None]).  Every layout of
    handlers.go is inside it ([formats_in_model] below). *)

Module time.

(** An instant, in seconds since January 1, year 1, 00:00:00 UTC; the zero
    value [time.Time{}] is [0]. *)
Definition Time := Z.

Definition zeroTime : Time := 0.

Inductive std : Type :=
| stdLongMonth   (* "January" *)
| stdMonth       (* "Jan" *)
| stdNumMonth    (* "1" *)
| stdZeroMonth   (* "01" *)
| stdDay         (* "2" *)
| stdZeroDay     (* "02" *)
| stdLongYear    (* "2006" *)
| stdOther.      (* any other element: clock time, zone, week day, ... *)

Fixpoint drop (n : nat) (s : string) : string :=
  match n, s with
  | O, _ => s
  | S n', String _ s' => drop n' s'
  | S _, EmptyString => EmptyString
  end.

Definition isDigitByte (c : ascii) : bool :=
  (48 <=? N_of_ascii c)%N && (N_of_ascii c <=? 57)%N.

Definition digitVal (c : ascii) : Z := Z.of_N (N_of_ascii c) - 48.

Definition startsWithLowerCase (s : string) : bool :=
  match s with
  | EmptyString => false
  | String c _ => (97 <=? N_of_ascii c)%N && (N_of_ascii c <=? 122)%N
  end.

Definition snoc (s : string) (c : ascii) : string :=
  (s +:+ String c EmptyString).

(** [nextStdChunk]: the first layout element of [layout], the literal text
    [prefix] before it and the layout after it. *)
Fixpoint nextStdChunk_from (prefix layout : string) : string * option std * string :=
  match layout with
  | EmptyString => (prefix, None, EmptyString)
  | String c rest =>
      let continue := nextStdChunk_from (snoc prefix c) rest in
      let has := strings.HasPrefix layout in
      if Ascii.eqb c "J" then
        if has "January" then (prefix, Some stdLongMonth, drop 7 layout)
        else if has "Jan" && negb (startsWithLowerCase (drop 3 layout))
             then (prefix, Some stdMonth, drop 3 layout)
        else continue
      else if Ascii.eqb c "M" then
        if has "Mon" && (has "Monday" || negb (startsWithLowerCase (drop 3 layout)))
        then (prefix, Some stdOther, drop 3 layout)
        else if has "MST" then (prefix, Some stdOther, drop 3 layout)
        else continue
      else if Ascii.eqb c "0" then
        if has "01" then (prefix, Some stdZeroMonth, drop 2 layout)
        else if has "02" then (prefix, Some stdZeroDay, drop 2 layout)
        else if has "03" || has "04" || has "05" || has "06" || has "002"
             then (prefix, Some stdOther, drop 2 layout)
        else continue
      else if Ascii.eqb c "1" then
        if has "15" then (prefix, Some stdOther, drop 2 layout)
        else (prefix, Some stdNumMonth, drop 1 layout)
      else if Ascii.eqb c "2" then
        if has "2006" then (prefix, Some stdLongYear, drop 4 layout)
        else (prefix, Some stdDay, drop 1 layout)
      else if Ascii.eqb c "_" then
        if has "_2" || has "__2" then (prefix, Some stdOther, drop 2 layout)
        else continue
      else if Ascii.eqb c "3" || Ascii.eqb c "4" || Ascii.eqb c "5" then
        (prefix, Some stdOther, drop 1 layout)
      else if Ascii.eqb c "P" then
        if has "PM" then (prefix, Some stdOther, drop 2 layout) else continue
      else if Ascii.eqb c "p" then
        if has "pm" then (prefix, Some stdOther, drop 2 layout) else continue
      else if Ascii.eqb c "-" then
        if has "-07" then (prefix, Some stdOther, drop 3 layout) else continue
      else if Ascii.eqb c "Z" then
        if has "Z07" then (prefix, Some stdOther, drop 3 layout) else continue
      else if Ascii.eqb c "." || Ascii.eqb c "," then
        if strings.HasPrefix rest "0" || strings.HasPrefix rest "9"
        then (prefix, Some stdOther, drop 2 layout)
        else continue
      else continue
  end.

Definition nextStdChunk (layout : string) : string * option std * string :=
  nextStdChunk_from EmptyString layout.

Fixpoint cutspace (s : string) : string :=
  match s with
  | String c s' => if Ascii.eqb c " " then cutspace s' else s
  | EmptyString => EmptyString
  end.

(** [skip value prefix]: [value] without the literal [prefix]; a run of
    spaces of the prefix stands for any run of spaces of the value.  The
    recursion is on [prefix]; [cut] records that the run of spaces being
    read has already been removed from both strings by [cutspace]. *)
Fixpoint skip_from (cut : bool) (value prefix : string) : option string :=
  match prefix with
  | EmptyString => Some value
  | String p prefix' =>
      if Ascii.eqb p " " then
        if cut then skip_from true value prefix'
        else
          match value with
          | String v _ =>
              if Ascii.eqb v " " then skip_from true (cutspace value) prefix'
              else None
          | EmptyString => skip_from true value prefix'
          end
      else
        match value with
        | String v value' =>
            if Ascii.eqb v p then skip_from false value' prefix' else None
        | EmptyString => None
        end
  end.

Definition skip : string -> string -> option string := skip_from false.

(** [getnum]: a one- or two-digit number, exactly two digits when [fixed]. *)
Definition getnum (s : string) (fixed : bool) : option (Z * string) :=
  match s with
  | String c0 s1 =>
      if isDigitByte c0 then
        match s1 with
        | String c1 s2 =>
            if isDigitByte c1 then Some (digitVal c0 * 10 + digitVal c1, s2)
            else if fixed then None else Some (digitVal c0, s1)
        | EmptyString => if fixed then None else Some (digitVal c0, s1)
        end
      else None
  | EmptyString => None
  end.

(** The year of [stdLongYear]: four bytes, all digits. *)
Definition getyear (s : string) : option (Z * string) :=
  match s with
  | String c0 (String c1 (String c2 (String c3 s'))) =>
      if isDigitByte c0 && isDigitByte c1 && isDigitByte c2 && isDigitByte c3
      then Some (((digitVal c0 * 10 + digitVal c1) * 10 + digitVal c2) * 10
                 + digitVal c3, s')
      else None
  | _ => None
  end.

(** [match]: equality of two strings of the same length up to the case of
    ASCII letters. *)
Fixpoint matchFold (s1 s2 : string) : bool :=
  match s1, s2 with
  | String c1 s1', String c2 s2' =>
      (Ascii.eqb c1 c2 ||
       (let l1 := N.lor (N_of_ascii c1) 32 in
        let l2 := N.lor (N_of_ascii c2) 32 in
        (l1 =? l2)%N && (97 <=? l1)%N && (l1 <=? 122)%N))
      && matchFold s1' s2'
  | EmptyString, EmptyString => true
  | _, _ => false
  end.

Fixpoint take (n : nat) (s : string) : string :=
  match n, s with
  | S n', String c s' => String c (take n' s')
  | _, _ => EmptyString
  end.

(** [lookup tab val]: the index of the first name of [tab] that [val]
    starts with, and the rest of [val]. *)
Fixpoint lookup_from (i : Z) (tab : list string) (val : string) : option (Z * string) :=
  match tab with
  | [] => None
  | v :: tab' =>
      let n := String.length v in
      if (n <=? String.length val)%nat && matchFold (take n val) v
      then Some (i, drop n val)
      else lookup_from (i + 1) tab' val
  end.

Definition lookup := lookup_from 0.

Definition shortMonthNames : list string :=
  ["Jan"; "Feb"; "Mar"; "Apr"; "May"; "Jun";
   "Jul"; "Aug"; "Sep"; "Oct"; "Nov"; "Dec"].

Definition longMonthNames : list string :=
  ["January"; "February"; "March"; "April"; "May"; "June"; "July";
   "August"; "September"; "October"; "November"; "December"].

Definition isLeap (year : Z) : bool :=
  (year mod 4 =? 0) && (negb (year mod 100 =? 0) || (year mod 400 =? 0)).

(** [daysBefore[m]]: days of a non-leap year before month [m + 1]. *)
Definition daysBefore (m : Z) : Z :=
  nth (Z.to_nat m) [0; 31; 59; 90; 120; 151; 181; 212; 243; 273; 304; 334; 365] 0.

Definition daysIn (m year : Z) : Z :=
  if (m =? 2) && isLeap year then 29 else daysBefore m - daysBefore (m - 1).

(** [time.Date(year, month, day, 0, 0, 0, 0, time.UTC)] for a day that
    exists in the calendar. *)
Definition Date (year month day : Z) : Time :=
  let y := year - 1 in
  let d := 365 * y + y / 4 - y / 100 + y / 400
           + daysBefore (month - 1)
           + (if isLeap year && (3 <=? month) then 1 else 0)
           + (day - 1) in
  d * 86400.

(** The fields [Parse] collects: [year], [month] and [day]. *)
Record fields : Type := { f_year : Z; f_month : Z; f_day : Z }.

Definition parseChunk (c : std) (value : string) (st : fields)
  : option (string * fields) :=
  match c with
  | stdLongYear =>
      '(y, value') ← getyear value;
      Some (value', {| f_year := y; f_month := f_month st; f_day := f_day st |})
  | stdMonth =>
      '(m, value') ← lookup shortMonthNames value;
      Some (value', {| f_year := f_year st; f_month := m + 1; f_day := f_day st |})
  | stdLongMonth =>
      '(m, value') ← lookup longMonthNames value;
      Some (value', {| f_year := f_year st; f_month := m + 1; f_day := f_day st |})
  | stdNumMonth | stdZeroMonth =>
      '(m, value') ← getnum value (match c with stdZeroMonth => true | _ => false end);
      if (m <=? 0) || (12 <? m) then None
      else Some (value', {| f_year := f_year st; f_month := m; f_day := f_day st |})
  | stdDay | stdZeroDay =>
      '(d, value') ← getnum value (match c with stdZeroDay => true | _ => false end);
      Some (value', {| f_year := f_year st; f_month := f_month st; f_day := d |})
  | stdOther => None
  end.

(** The loop of [parse]; [fuel] bounds the number of layout elements. *)
Fixpoint parseLoop (fuel : nat) (layout value : string) (st : fields)
  : option fields :=
  match fuel with
  | O => None
  | S fuel' =>
      let '(prefix, c, suffix) := nextStdChunk layout in
      value ← skip value prefix;
      match c with
      | None => if String.eqb value EmptyString then Some st else None
      | Some c =>
          '(value', st') ← parseChunk c value st;
          parseLoop fuel' suffix value' st'
      end
  end.

Definition Parse (layout value : string) : option Time :=
  st ← parseLoop (S (String.length layout)) layout value
         {| f_year := 0; f_month := -1; f_day := -1 |};
  let month := if f_month st <? 0 then 1 else f_month st in
  let day := if f_day st <? 0 then 1 else f_day st in
  if (day <? 1) || (daysIn month (f_year st) <? day) then None
  else Some (Date (f_year st) month day).

End time.

(** ** Go error values *)

(** The error values of the two packages.  [ErrJobNotFound] is the sentinel
    of database.go; [DriverError] is an error of [database/sql] or of the
    sqlite driver; [Errorf] is [fmt.Errorf] without [%w], [ErrorfW] is
    [fmt.Errorf] whose format ends in [%w] (it keeps its cause). *)
Inductive error : Type :=
| ErrJobNotFound
| DriverError (msg : string)
| Errorf (msg : string)
| ErrorfW (prefix : string) (cause : error).

(** [err.Error()] *)
Fixpoint Error (e : error) : string :=
  match e with
  | ErrJobNotFound => "job application not found"
  | DriverError msg => msg
  | Errorf msg => msg
  | ErrorfW prefix cause => prefix +:+ Error cause
  end.

(** [errors.Is(err, database.ErrJobNotFound)]: the sentinel itself, or an
    error that wraps it. *)
Fixpoint errors_Is_ErrJobNotFound (e : error) : bool :=
  match e with
  | ErrJobNotFound => true
  | ErrorfW _ cause => errors_Is_ErrJobNotFound cause
  | DriverError _ | Errorf _ => false
  end.

(** ** internal/models *)

Module models.

Record JobApplication : Type := {
  ID : Z;
  DateApplied : time.Time;
  JobTitle : string;
  Company : string;
  Status : string;
  JobURL : string;
  Notes : string;
  CreatedAt : time.Time;
  UpdatedAt : time.Time
}.

Definition StatusApplied : string := "Applied".
Definition StatusInReview : string := "In Review".
Definition StatusInterview : string := "Interview".

Definition StatusPhoneScreen : string := "Phone Screen".
Definition StatusTechnical : string := "Technical Test".
Definition StatusOffer : string := "Offer".
Definition StatusRejected : string := "Rejected".
Definition StatusWithdrawn : string := "Withdrawn".
Definition StatusNoResponse : string := "No Response".

Definition GetCommonStatuses : list string :=
  [ StatusApplied; StatusInReview; StatusPhoneScreen; StatusInterview;
    StatusTechnical; StatusOffer; StatusRejected; StatusWithdrawn;
    StatusNoResponse ].

End models.

Import models.

(** ** internal/database *)

Module database.

(** The content of the database file: the table [job_applications], rows in
    rowid order, and the AUTOINCREMENT counter kept in [sqlite_sequence]. *)
Record DB : Type := {
  job_applications : list JobApplication;
  sqlite_sequence : Z
}.

(** What the driver does to one call: nothing, an error of [Exec] /
    [Query], or an error of the result ([LastInsertId], [RowsAffected],
    [Scan]). *)
Inductive fault : Type :=
| NoFault
| ExecFault (msg : string)
| ResultFault (msg : string).

(** [createTables] on a new file. *)
Definition New : DB := {| job_applications := []; sqlite_sequence := 0 |}.

Definition max_id (rows : list JobApplication) : Z :=
  foldr (fun r m => Z.max (ID r) m) 0 rows.

(** [INTEGER PRIMARY KEY AUTOINCREMENT]: one more than the largest rowid
    the table has ever held. *)
Definition next_id (db : DB) : Z :=
  1 + Z.max (sqlite_sequence db) (max_id (job_applications db)).

(** The row an [INSERT] of [job] stores: the six columns of the statement
    come from [job], [id] is assigned, and the two timestamps take their
    default [CURRENT_TIMESTAMP]. *)
Definition inserted_row (id : Z) (now : time.Time) (job : JobApplication)
  : JobApplication :=
  {| ID := id;
     DateApplied := DateApplied job;
     JobTitle := JobTitle job;
     Company := Company job;
     Status := Status job;
     JobURL := JobURL job;
     Notes := Notes job;
     CreatedAt := now;
     UpdatedAt := now |}.

Definition set_ID (id : Z) (job : JobApplication) : JobApplication :=
  {| ID := id;
     DateApplied := DateApplied job;
     JobTitle := JobTitle job;
     Company := Company job;
     Status := Status job;
     JobURL := JobURL job;
     Notes := Notes job;
     CreatedAt := CreatedAt job;
     UpdatedAt := UpdatedAt job |}.

(** [CreateJobApplication]: the store after the call, [*job] after the call
    and the returned error. *)
Definition CreateJobApplication (f : fault) (now : time.Time) (db : DB)
    (job : JobApplication) : DB * JobApplication * option error :=
  match f with
  | ExecFault e =>
      (db, job, Some (ErrorfW "failed to create job application: " (DriverError e)))
  | _ =>
      let id := next_id db in
      let db' := {| job_applications :=
                      job_applications db ++ [inserted_row id now job];
                    sqlite_sequence := id |} in
      match f with
      | ResultFault e =>
          (db', job, Some (ErrorfW "failed to get last insert id: " (DriverError e)))
      | _ => (db', set_ID id job, None)
      end
  end.

(** [SELECT ... WHERE id = ?] through [QueryRow(...).Scan]. *)
Definition GetJobApplication (f : fault) (db : DB) (id : Z)
  : JobApplication + error :=
  match f with
  | ExecFault e | ResultFault e =>
      inr (ErrorfW "failed to get job application: " (DriverError e))
  | NoFault =>
      match List.find (fun r => ID r =? id) (job_applications db) with
      | Some job => inl job
      | None => inr (Errorf "job application not found")
      end
  end.

(** [DELETE FROM job_applications WHERE id = ?] *)
Definition DeleteJobApplication (f : fault) (db : DB) (id : Z)
  : DB * option error :=
  match f with
  | ExecFault e =>
      (db, Some (ErrorfW "failed to delete job application: " (DriverError e)))
  | _ =>
      let kept := List.filter (fun r => negb (ID r =? id)) (job_applications db) in
      let rowsAffected := (length (job_applications db) - length kept)%nat in
      let db' := {| job_applications := kept;
                    sqlite_sequence := sqlite_sequence db |} in
      match f with
      | ResultFault e =>
          (db', Some (ErrorfW "failed to get rows affected: " (DriverError e)))
      | _ =>
          if (rowsAffected =? 0)%nat then (db', Some ErrJobNotFound)
          else (db', None)
      end
  end.

(** The row an [UPDATE] of [job] leaves in the place of [row]: the six
    columns of the statement come from [job], and [updated_at] is set to
    [CURRENT_TIMESTAMP] (by the statement, and again by the trigger
    [update_job_applications_updated_at]). *)
Definition updated_row (now : time.Time) (job row : JobApplication)
  : JobApplication :=
  {| ID := ID row;
     DateApplied := DateApplied job;
     JobTitle := JobTitle job;
     Company := Company job;
     Status := Status job;
     JobURL := JobURL job;
     Notes := Notes job;
     CreatedAt := CreatedAt row;
     UpdatedAt := now |}.

(** [UPDATE job_applications SET ... WHERE id = ?] *)
Definition UpdateJobApplication (f : fault) (now : time.Time) (db : DB)
    (job : JobApplication) : DB * option error :=
  match f with
  | ExecFault e =>
      (db, Some (ErrorfW "failed to update job application: " (DriverError e)))
  | _ =>
      let rowsAffected :=
        length (List.filter (fun r => ID r =? ID job) (job_applications db)) in
      let db' :=
        {| job_applications :=
             List.map (fun r => if ID r =? ID job then updated_row now job r else r)
                      (job_applications db);
           sqlite_sequence := sqlite_sequence db |} in
      match f with
      | ResultFault e =>
          (db', Some (ErrorfW "failed to get rows affected: " (DriverError e)))
      | _ =>
          if (rowsAffected =? 0)%nat
          then (db', Some (Errorf "job application not found"))
          else (db', None)
      end
  end.

(** [ORDER BY date_applied DESC, created_at DESC]: [a] may come before [b]. *)
Definition newest_first (a b : JobApplication) : Prop :=
  DateApplied b < DateApplied a
  ∨ (DateApplied b = DateApplied a ∧ CreatedAt b <= CreatedAt a).

#[export] Instance newest_first_dec a b : Decision (newest_first a b).
Proof. unfold newest_first. apply _. Defined.

Definition order_by_newest_first : list JobApplication → list JobApplication :=
  merge_sort newest_first.

(** [SELECT ... ORDER BY date_applied DESC, created_at DESC] *)
Definition GetAllJobApplications (f : fault) (db : DB)
  : list JobApplication + error :=
  match f with
  | ExecFault e =>
      inr (ErrorfW "failed to query job applications: " (DriverError e))
  | ResultFault e =>
      inr (ErrorfW "failed to scan job application: " (DriverError e))
  | NoFault => inl (order_by_newest_first (job_applications db))
  end.

(** [SELECT ... WHERE status = ? ORDER BY date_applied DESC, created_at DESC] *)
Definition GetJobApplicationsByStatus (f : fault) (db : DB) (status : string)
  : list JobApplication + error :=
  match f with
  | ExecFault e =>
      inr (ErrorfW "failed to query job applications by status: " (DriverError e))
  | ResultFault e =>
      inr (ErrorfW "failed to scan job application: " (DriverError e))
  | NoFault =>
      inl (order_by_newest_first
             (List.filter (fun r => String.eqb (Status r) status)
                          (job_applications db)))
  end.

(** [COUNT( * )] of the group of [status]. *)
Definition count_status (status : string) (rows : list JobApplication) : nat :=
  length (List.filter (fun r => String.eqb (Status r) status) rows).

(** [ORDER BY count DESC] *)
Definition largest_count_first (a b : string * nat) : Prop := (b.2 ≤ a.2)%nat.

#[export] Instance largest_count_first_dec a b : Decision (largest_count_first a b).
Proof. unfold largest_count_first. apply _. Defined.

(** [SELECT status, COUNT( * ) as count FROM job_applications GROUP BY
    status ORDER BY count DESC]: one result row for each status that
    occurs in the table. *)
Definition select_status_counts (rows : list JobApplication)
  : list (string * nat) :=
  merge_sort largest_count_first
    ((fun s => (s, count_status s rows)) <$> remove_dups (Status <$> rows)).

(** [GetStatusCounts]: the loop [counts[status] = count] over the result
    rows. *)
Definition GetStatusCounts (f : fault) (db : DB) : gmap string nat + error :=
  match f with
  | ExecFault e =>
      inr (ErrorfW "failed to query status counts: " (DriverError e))
  | ResultFault e =>
      inr (ErrorfW "failed to scan status count: " (DriverError e))
  | NoFault =>
      inl (foldl (fun (counts : gmap string nat) row => <[row.1 := row.2]> counts)
                 ∅ (select_status_counts (job_applications db)))
  end.

(** [counts[status]] in Go: the zero value for a missing key. *)
Definition map_index (counts : gmap string nat) (status : string) : nat :=
  default 0%nat (counts !! status).

End database.

Import database.

(** ** Go's [encoding/csv], as used by handlers.go *)

Module csv.

(** The records a [csv.Reader] reads from a file one after the other, before
    it compares their numbers of fields: [None] when some line of the file
    is not well-formed CSV.  A blank line gives no record, and a record has
    at least one field. *)
Definition File : Type := option (list (list string)).

(** [ReadAll] of a reader made by [csv.NewReader], whose [FieldsPerRecord] is
    0: the first record sets the number of fields, and a record with another
    number of fields is the error [ErrFieldCount]. *)
Definition ReadAll (file : File) : option (list (list string)) :=
  match file with
  | None => None
  | Some [] => Some []
  | Some (first :: rest) =>
      if forallb (fun record => (length record =? length first)%nat) rest
      then Some (first :: rest)
      else None
  end.

End csv.

(** ** Go's [strconv], as used by handlers.go *)

Module strconv.

(** The value of a string of decimal digits, [None] when a byte is not a
    digit. *)
Fixpoint digits (acc : Z) (s : string) : option Z :=
  match s with
  | EmptyString => Some acc
  | String c s' =>
      if time.isDigitByte c then digits (acc * 10 + time.digitVal c) s' else None
  end.

(** [strconv.Atoi] on a 64-bit platform: an optional sign and at least one
    decimal digit, for a value that fits an [int]. *)
Definition Atoi (s : string) : option Z :=
  let '(neg, body) :=
    match s with
    | String c s' =>
        if Ascii.eqb c "-" then (true, s')
        else if Ascii.eqb c "+" then (false, s')
        else (false, s)
    | EmptyString => (false, s)
    end in
  match body with
  | EmptyString => None
  | _ =>
      n ← digits 0 body;
      let i := if neg then - n else n in
      if (- 2 ^ 63 <=? i) && (i <=? 2 ^ 63 - 1) then Some i else None
  end.

(** [strconv.Itoa] *)
Definition Itoa (i : Z) : string :=
  if i <? 0 then String "-" (fmt_d (Z.to_nat (- i))) else fmt_d (Z.to_nat i).

End strconv.

(** ** internal/handlers *)

Module handlers.

(** The part of [*http.Request] the handlers read: the method, whether
    [ParseForm] / [ParseMultipartForm] succeed, the form values, and the
    uploaded file [csv_file], if there is one. *)
Record Request : Type := {
  Method : string;
  ParseForm_ok : bool;
  Form : gmap string string;
  ParseMultipartForm_ok : bool;
  FormFile_csv_file : option csv.File
}.

(** [r.FormValue(key)]: the empty string for a missing key. *)
Definition FormValue (r : Request) (key : string) : string :=
  default EmptyString (Form r !! key).

(** The data handed to [import_result.html]. *)
Record ImportResult : Type := {
  SuccessCount : nat;
  ErrorCount : nat;
  Errors : list string;
  TotalRows : nat
}.

Inductive Response : Type :=
| http_Error (msg : string) (code : nat)
| http_Redirect (url : string) (code : nat)
| ExecuteTemplate_import_result (data : ImportResult).

(** The layouts [parseDate] tries, in this order. *)
Definition formats : list string :=
  [ "2006-01-02";      (* ISO format (YYYY-MM-DD) *)
    "01/02/2006";      (* US format (MM/DD/YYYY) *)
    "1/2/2006";        (* US format without leading zeros *)
    "02/01/2006";      (* Some other format (DD/MM/YYYY) *)
    "2/1/2006";        (* Without leading zeros *)
    "2006/01/02";      (* YYYY/MM/DD *)
    "2006/1/2";        (* YYYY/M/D *)
    "Jan 2, 2006";     (* Month name format *)
    "January 2, 2006"; (* Full month name *)
    "2 Jan 2006";      (* European style *)
    "2006-1-2";        (* ISO without leading zeros *)
    "Jan 2 2006";      (* Month name without comma *)
    "January 2 2006";  (* Full month name without comma *)
    "Feb 2 2006";      (* Short month name without comma *)
    "Feb 20 2006";     (* Short month name without comma (actual example) *)
    "March 2 2006";    (* Month name variations *)
    "Apr 2 2006";
    "May 2 2006";
    "Jun 2 2006";
    "Jul 2 2006";
    "Aug 2 2006";
    "Sep 2 2006";
    "Oct 2 2006";
    "Nov 2 2006";
    "Dec 2 2006" ].

(** The loop [for _, format := range formats] of [parseDate]. *)
Fixpoint tryFormats (formats : list string) (dateStr : string)
  : option time.Time :=
  match formats with
  | [] => None
  | format :: formats' =>
      match time.Parse format dateStr with
      | Some date => Some date
      | None => tryFormats formats' dateStr
      end
  end.

Definition parseDate (dateStr : string) : time.Time + error :=
  if String.eqb dateStr EmptyString then inr (Errorf "date is required")
  else match tryFormats formats dateStr with
       | Some date => inl date
       | None => inr (Errorf "unrecognized date format")
       end.

Definition headerKeywords : list string :=
  ["date"; "job"; "title"; "company"; "position"; "role"].

(** [CreateJobHandler]; the calls to [log.Printf] are left out. *)
Definition CreateJobHandler (f : fault) (now : time.Time) (db : DB)
    (r : Request) : DB * Response :=
  if negb (String.eqb (Method r) "POST") then
    (db, http_Error "Method not allowed" 405%nat)
  else if negb (ParseForm_ok r) then
    (db, http_Error "Failed to parse form" 400%nat)
  else
    match time.Parse "2006-01-02" (FormValue r "date_applied") with
    | None => (db, http_Error "Invalid date format" 400%nat)
    | Some dateApplied =>
        let job := {| ID := 0;
                      DateApplied := dateApplied;
                      JobTitle := FormValue r "job_title";
                      Company := FormValue r "company";
                      Status := FormValue r "status";
                      JobURL := FormValue r "job_url";
                      Notes := FormValue r "notes";
                      CreatedAt := time.zeroTime;
                      UpdatedAt := time.zeroTime |} in
        match CreateJobApplication f now db job with
        | (db', _, Some _) =>
            (db', http_Error "Failed to create job application" 500%nat)
        | (db', _, None) => (db', http_Redirect "/" 303%nat)
        end
    end.

(** The data handed to [index.html]. *)
Record IndexData : Type := {
  Jobs : list JobApplication;
  StatusCounts : gmap string nat;
  Statuses : list string;
  CurrentFilter : string;
  StatusMessage : string;
  StatusType : string
}.

(** What a handler that renders a page answers. *)
Inductive Reply : Type :=
| reply (response : Response)
| ExecuteTemplate_index (data : IndexData)
| ExecuteTemplate_edit_job (job : JobApplication) (statuses : list string).

(** [h.db.GetStatusCounts()] as the page handlers use it: an empty map when
    the read fails. *)
Definition statusCounts_or_empty (f : fault) (db : DB) : gmap string nat :=
  match GetStatusCounts f db with
  | inl counts => counts
  | inr _ => ∅
  end.

(** [HomeHandler] of internal/handlers/handlers.go; [query] is
    [r.URL.Query()], [f_jobs] and [f_counts] are the faults of its two
    reads.  The calls to [log.Printf] are left out. *)
Definition HomeHandler (f_jobs f_counts : fault) (db : DB)
    (query : gmap string string) : Reply :=
  match GetAllJobApplications f_jobs db with
  | inr _ => reply (http_Error "Internal server error" 500%nat)
  | inl jobs =>
      let errorType := default EmptyString (query !! "error") in
      let success := default EmptyString (query !! "success") in
      let id := default EmptyString (query !! "id") in
      let '(statusMessage, statusType) :=
        if negb (String.eqb errorType EmptyString) then
          ((if String.eqb errorType "notfound" then
              if negb (String.eqb id EmptyString)
              then "Job application with ID " +:+ id +:+ " not found"
              else "Job application not found"
            else if String.eqb errorType "delete" then
              "Failed to delete job application"
            else EmptyString),
           "error")
        else if negb (String.eqb success EmptyString) then
          ((if String.eqb success "deleted"
            then "Job application deleted successfully" else EmptyString),
           "success")
        else (EmptyString, EmptyString) in
      ExecuteTemplate_index
        {| Jobs := jobs;
           StatusCounts := statusCounts_or_empty f_counts db;
           Statuses := GetCommonStatuses;
           CurrentFilter := EmptyString;
           StatusMessage := statusMessage;
           StatusType := statusType |}
  end.

(** [EditJobHandler]; [vars] is [mux.Vars(r)]. *)
Definition EditJobHandler (f : fault) (db : DB) (vars : gmap string string)
  : Reply :=
  match strconv.Atoi (default EmptyString (vars !! "id")) with
  | None => reply (http_Error "Invalid job ID" 400%nat)
  | Some id =>
      match GetJobApplication f db id with
      | inr _ => reply (http_Error "Job application not found" 404%nat)
      | inl job => ExecuteTemplate_edit_job job GetCommonStatuses
      end
  end.

(** [UpdateJobHandler] *)
Definition UpdateJobHandler (f : fault) (now : time.Time) (db : DB)
    (vars : gmap string string) (r : Request) : DB * Response :=
  if negb (String.eqb (Method r) "POST") then
    (db, http_Error "Method not allowed" 405%nat)
  else
    match strconv.Atoi (default EmptyString (vars !! "id")) with
    | None => (db, http_Error "Invalid job ID" 400%nat)
    | Some id =>
        if negb (ParseForm_ok r) then
          (db, http_Error "Failed to parse form" 400%nat)
        else
          match time.Parse "2006-01-02" (FormValue r "date_applied") with
          | None => (db, http_Error "Invalid date format" 400%nat)
          | Some dateApplied =>
              let job := {| ID := id;
                            DateApplied := dateApplied;
                            JobTitle := FormValue r "job_title";
                            Company := FormValue r "company";
                            Status := FormValue r "status";
                            JobURL := FormValue r "job_url";
                            Notes := FormValue r "notes";
                            CreatedAt := time.zeroTime;
                            UpdatedAt := time.zeroTime |} in
              match UpdateJobApplication f now db job with
              | (db', Some _) =>
                  (db', http_Error "Failed to update job application" 500%nat)
              | (db', None) => (db', http_Redirect "/" 303%nat)
              end
          end
    end.

(** [DeleteJobHandler] *)
Definition DeleteJobHandler (f : fault) (db : DB) (vars : gmap string string)
    (r : Request) : DB * Response :=
  if negb (String.eqb (Method r) "POST") then
    (db, http_Error "Method not allowed" 405%nat)
  else
    match strconv.Atoi (default EmptyString (vars !! "id")) with
    | None => (db, http_Error "Invalid job ID" 400%nat)
    | Some id =>
        match DeleteJobApplication f db id with
        | (db', Some err) =>
            if errors_Is_ErrJobNotFound err then
              (db', http_Redirect ("/?error=notfound&id=" +:+ strconv.Itoa id) 303%nat)
            else (db', http_Redirect "/?error=delete" 303%nat)
        | (db', None) => (db', http_Redirect "/?success=deleted" 303%nat)
        end
    end.

(** [FilterHandler] of internal/handlers/handlers.go; [query] is
    [r.URL.Query()], [f_jobs] and [f_counts] are the faults of its two
    reads. *)
Definition FilterHandler (f_jobs f_counts : fault) (db : DB)
    (query : gmap string string) : Reply :=
  let status := default EmptyString (query !! "status") in
  match (if negb (String.eqb status EmptyString)
         then GetJobApplicationsByStatus f_jobs db status
         else GetAllJobApplications f_jobs db) with
  | inr _ => reply (http_Error "Internal server error" 500%nat)
  | inl jobs =>
      ExecuteTemplate_index
        {| Jobs := jobs;
           StatusCounts := statusCounts_or_empty f_counts db;
           Statuses := GetCommonStatuses;
           CurrentFilter := status;
           StatusMessage := EmptyString;
           StatusType := EmptyString |}
  end.

Section CSV.
(** The paths of [strings.ToLower] and [strings.TrimSpace] that need the
    Unicode tables (see [strings]). *)
Variable Map_unicode_ToLower : string → string.
Variable TrimFunc_IsSpace : string → string.
Variable TrimRightFunc_IsSpace : string → string.

Definition ToLower : string → string :=
  strings.ToLower Map_unicode_ToLower.
Definition TrimSpace : string → string :=
  strings.TrimSpace TrimFunc_IsSpace TrimRightFunc_IsSpace.

Definition isHeaderRow (record : list string) : bool :=
  match record with
  | [] => false
  | record0 :: _ =>
      let firstCol := ToLower (TrimSpace record0) in
      existsb (fun keyword => strings.Contains firstCol keyword) headerKeywords
  end.

Definition parseCSVRecord (record : list string) : JobApplication + error :=
  match record with
  | record0 :: record1 :: record2 :: _ =>
      let dateStr := TrimSpace record0 in
      match parseDate dateStr with
      | inr err =>
          inr (Errorf ("invalid date format '" +:+ dateStr +:+ "': " +:+ Error err))
      | inl dateApplied =>
          let jobTitle := TrimSpace record1 in
          if String.eqb jobTitle EmptyString then
            inr (Errorf "job title is required")
          else
            let company := TrimSpace record2 in
            if String.eqb company EmptyString then
              inr (Errorf "company is required")
            else
              inl {| ID := 0;
                     DateApplied := dateApplied;
                     JobTitle := jobTitle;
                     Company := company;
                     Status :=
                       match record !! 3%nat with
                       | Some record3 =>
                           let status := TrimSpace record3 in
                           if String.eqb status EmptyString
                           then StatusApplied else status
                       | None => StatusApplied
                       end;
                     JobURL :=
                       match record !! 4%nat with
                       | Some record4 => TrimSpace record4
                       | None => EmptyString
                       end;
                     Notes :=
                       match record !! 5%nat with
                       | Some record5 => TrimSpace record5
                       | None => EmptyString
                       end;
                     CreatedAt := time.zeroTime;
                     UpdatedAt := time.zeroTime |}
      end
  | _ =>
      inr (Errorf "insufficient columns (need at least: date_applied, job_title, company)")
  end.

(** The test [// Skip empty rows] of the import loop. *)
Definition isEmptyRow (record : list string) : bool :=
  match record with
  | [] => true
  | [record0] => String.eqb (TrimSpace record0) EmptyString
  | _ => false
  end.

(** What the import loop carries from row to row. *)
Record ImportState : Type := {
  st_db : DB;
  successCount : nat;
  errorCount : nat;
  errors : list string
}.

(** What the store does at each row: the driver fault and the reading of
    [CURRENT_TIMESTAMP] for the insert of the row at index [i]. *)
Variable env : nat → fault * time.Time.

(** One turn of the loop [for i := startIdx; i < len(records); i++], on
    [record = records[i]]. *)
Definition importRow (i : nat) (record : list string) (st : ImportState)
  : ImportState :=
  if isEmptyRow record then st
  else
    match parseCSVRecord record with
    | inr err =>
        {| st_db := st_db st;
           successCount := successCount st;
           errorCount := S (errorCount st);
           errors := errors st ++
             ["Row " +:+ fmt_d (i + 1) +:+ ": " +:+ Error err] |}
    | inl job =>
        match CreateJobApplication (env i).1 (env i).2 (st_db st) job with
        | (db', job', Some err) =>
            {| st_db := db';
               successCount := successCount st;
               errorCount := S (errorCount st);
               errors := errors st ++
                 ["Row " +:+ fmt_d (i + 1) +:+ ": Failed to save "
                  +:+ JobTitle job' +:+ " at " +:+ Company job' +:+ ": "
                  +:+ Error err] |}
        | (db', _, None) =>
            {| st_db := db';
               successCount := S (successCount st);
               errorCount := errorCount st;
               errors := errors st |}
        end
    end.

(** The loop, from index [i] over the rows [records[i:]]. *)
Fixpoint importRows (i : nat) (records : list (list string))
    (st : ImportState) : ImportState :=
  match records with
  | [] => st
  | record :: records' => importRows (S i) records' (importRow i record st)
  end.

Definition startIdx (records : list (list string)) : nat :=
  match records with
  | record0 :: _ => if isHeaderRow record0 then 1%nat else 0%nat
  | [] => 0%nat
  end.

(** The import of parsed [records], from [// Skip header row if present]
    to the data of the template. *)
Definition importRecords (db : DB) (records : list (list string))
  : DB * ImportResult :=
  let st := importRows (startIdx records) (skipn (startIdx records) records)
              {| st_db := db; successCount := 0; errorCount := 0; errors := [] |} in
  (st_db st,
   {| SuccessCount := successCount st;
      ErrorCount := errorCount st;
      Errors := errors st;
      TotalRows := (length records - startIdx records)%nat |}).

(** [ProcessCSVHandler]; the calls to [log.Printf] are left out. *)
Definition ProcessCSVHandler (db : DB) (r : Request) : DB * Response :=
  if negb (String.eqb (Method r) "POST") then
    (db, http_Error "Method not allowed" 405%nat)
  else if negb (ParseMultipartForm_ok r) then
    (db, http_Error "Failed to parse form" 400%nat)
  else
    match FormFile_csv_file r with
    | None => (db, http_Error "Failed to get CSV file" 400%nat)
    | Some file =>
        match csv.ReadAll file with
        | None => (db, http_Error "Failed to parse CSV file" 400%nat)
        | Some records =>
            if (length records =? 0)%nat then
              (db, http_Error "CSV file is empty" 400%nat)
            else
              let '(db', data) := importRecords db records in
              (db', ExecuteTemplate_import_result data)
        end
    end.
End CSV.

End handlers.

Import handlers.

(** ** Vocabulary of the properties *)

(** [layout] only has elements the model of [time.Parse] interprets, and
    [fuel] turns of its loop reach the end of [layout]. *)
Fixpoint layoutInModel (fuel : nat) (layout : string) : bool :=
  match fuel with
  | O => false
  | S fuel' =>
      match time.nextStdChunk layout with
      | (_, None, _) => true
      | (_, Some time.stdOther, _) => false
      | (_, Some _, suffix) => layoutInModel fuel' suffix
      end
  end.

(** [t] is what the first layout of [layouts] that parses [s] gives. *)
Definition first_success (layouts : list string) (s : string) (t : time.Time)
  : Prop :=
  ∃ (i : nat) (layout : string),
    layouts !! i = Some layout ∧ time.Parse layout s = Some t ∧
    ∀ (j : nat) (earlier : string),
      (j < i)%nat → layouts !! j = Some earlier → time.Parse earlier s = None.

(** No layout of [layouts] parses [s]. *)
Definition no_layout_matches (layouts : list string) (s : string) : Prop :=
  ∀ layout, layout ∈ layouts → time.Parse layout s = None.


(** The record of [TestDatabase] in database_test.go, and the store that
    holds it after its creation in a new database. *)
Definition example_job : JobApplication :=
  {| ID := 0;
     DateApplied := time.Date 2024 1 15;
     JobTitle := "Test Engineer";
     Company := "Test Corp";
     Status := StatusApplied;
     JobURL := "https://test.com/job/123";
     Notes := "This is a test job application";
     CreatedAt := time.zeroTime;
     UpdatedAt := time.zeroTime |}.

Definition example_db : DB :=
  (CreateJobApplication NoFault 1000 New example_job).1.1.

(** A store with three records, two of them with status "Applied". *)
Definition example_db3 : DB :=
  let job (date : time.Time) (title company status : string) :=
    {| ID := 0; DateApplied := date; JobTitle := title; Company := company;
       Status := status; JobURL := EmptyString; Notes := EmptyString;
       CreatedAt := time.zeroTime; UpdatedAt := time.zeroTime |} in
  let db1 := (CreateJobApplication NoFault 1000 New
                (job (time.Date 2024 1 15) "Software Engineer" "Company A"
                     StatusApplied)).1.1 in
  let db2 := (CreateJobApplication NoFault 1001 db1
                (job (time.Date 2024 1 16) "Backend Developer" "Company B"
                     StatusInReview)).1.1 in
  (CreateJobApplication NoFault 1002 db2
     (job (time.Date 2024 1 17) "Full Stack Developer" "Company C"
          StatusApplied)).1.1.


(** The store environment of the examples: no driver fault, and the clock at
    [1000] for every row. *)
Definition example_env (i : nat) : fault * time.Time := (NoFault, 1000).

(** On the examples, which are ASCII, the Unicode paths of [strings] are
    never taken; the examples pass this function for them. *)
Definition not_taken (s : string) : string := s.

Module rows.
Section CSV_vocabulary.
Variable TrimFunc_IsSpace : string → string.
Variable TrimRightFunc_IsSpace : string → string.

Local Abbreviation TrimSpace := (handlers.TrimSpace TrimFunc_IsSpace TrimRightFunc_IsSpace).

(** A row with no field, or with one field that is empty once trimmed. *)
Definition emptyRow (record : list string) : Prop :=
  record = [] ∨ ∃ field, record = [field] ∧ TrimSpace field = EmptyString.

(** A row with fewer than three columns, or whose date, title or company is
    empty once trimmed. *)
Definition lacksRequiredField (record : list string) : Prop :=
  (length record < 3)%nat
  ∨ ∃ (k : nat) (field : string),
      (k < 3)%nat ∧ record !! k = Some field ∧ TrimSpace field = EmptyString.

(** A row whose date column is there and is not blank, and is a date that
    [parseDate] rejects. *)
Definition malformedDate (record : list string) : Prop :=
  ∃ field rest,
    record = field :: rest ∧ TrimSpace field ≠ EmptyString
    ∧ ∃ err, parseDate (TrimSpace field) = inr err.

(** A row that [parseCSVRecord] accepts. *)
Definition validRow (record : list string) : Prop :=
  ∃ job, handlers.parseCSVRecord TrimFunc_IsSpace TrimRightFunc_IsSpace record = inl job.

(** The state the import loop starts from. *)
Definition initialState (db : DB) : ImportState :=
  {| st_db := db; successCount := 0; errorCount := 0; errors := [] |}.

(** [stored] is the row that an insert of [job] leaves in the table. *)
Definition storedFrom (job stored : JobApplication) : Prop :=
  DateApplied stored = DateApplied job ∧ JobTitle stored = JobTitle job
  ∧ Company stored = Company job ∧ Status stored = Status job
  ∧ JobURL stored = JobURL job ∧ Notes stored = Notes job.
End CSV_vocabulary.
End rows.

(** A POST of the create form that only fills in the date. *)
Definition example_create_request : Request :=
  {| Method := "POST";
     ParseForm_ok := true;
     Form := {[ "date_applied" := "2024-01-15" ]};
     ParseMultipartForm_ok := false;
     FormFile_csv_file := None |}.

(** The records of a file with three columns: a header, a row that
    parses, a row with a blank title, a row of blank fields and another row
    that parses. *)
Definition example_records : list (list string) :=
  [ ["Date Applied"; "Job Title"; "Company"];
    ["2024-01-15"; "Software Engineer"; "Acme"];
    ["01/17/2024"; " "; "Initech"];
    [""; ""; ""];
    ["Jan 18, 2024"; "Data Engineer"; "Globex"] ].

(** The records of a file with two columns. *)
Definition example_narrow_records : list (list string) :=
  [ ["2024-01-16"; "Backend Developer"]; ["2024-01-17"; "QA Engineer"] ].

(** The records of a file with one column, whose second line is a space. *)
Definition example_blank_records : list (list string) :=
  [ ["2024-01-15"]; [" "]; ["2024-01-16"] ].

(** A POST of the import form with the file [file]. *)
Definition example_upload (file : csv.File) : Request :=
  {| Method := "POST";
     ParseForm_ok := true;
     Form := ∅;
     ParseMultipartForm_ok := true;
     FormFile_csv_file := Some file |}.

(** The import of the examples. *)
Definition example_import : DB → list (list string) → DB * ImportResult :=
  importRecords not_taken not_taken not_taken example_env.

(** ** Vocabulary of the properties of the store *)

Module store.

(** A call that may change the store, with the driver fault it meets. *)
Inductive operation : Type :=
| Create (f : fault) (now : time.Time) (job : JobApplication)
| Update (f : fault) (now : time.Time) (job : JobApplication)
| Delete (f : fault) (id : Z).

(** The store after one call. *)
Definition step (db : DB) (op : operation) : DB :=
  match op with
  | Create f now job => (CreateJobApplication f now db job).1.1
  | Update f now job => (UpdateJobApplication f now db job).1
  | Delete f id => (DeleteJobApplication f db id).1
  end.

(** The store after a sequence of calls. *)
Definition run (db : DB) (ops : list operation) : DB := foldl step db ops.

(** No two rows have the same identifier, and every identifier is positive
    and at most the AUTOINCREMENT counter. *)
Definition uniqueIds (db : DB) : Prop :=
  NoDup (ID <$> job_applications db)
  ∧ 0 <= sqlite_sequence db
  ∧ ∀ r, r ∈ job_applications db → 0 < ID r <= sqlite_sequence db.

End store.

(** A POST of a form with the values [form]. *)
Definition example_post (form : gmap string string) : Request :=
  {| Method := "POST";
     ParseForm_ok := true;
     Form := form;
     ParseMultipartForm_ok := true;
     FormFile_csv_file := None |}.

(** The form of the update of [TestDatabase]. *)
Definition example_update_form : gmap string string :=
  {[ "date_applied" := "2024-01-15"; "job_title" := "Test Engineer";
     "company" := "Test Corp"; "status" := "Interview";
     "job_url" := "https://test.com/job/123"; "notes" := "Updated notes" ]}.

(** A record with a title, a company and a status. *)
Definition hasRequiredFields (job : JobApplication) : Prop :=
  JobTitle job ≠ EmptyString ∧ Company job ≠ EmptyString
  ∧ Status job ≠ EmptyString.

(** The message of the import for the row at index [i] of a file with too
    few columns. *)
Definition insufficientColumns (i : nat) : string :=
  "Row " +:+ fmt_d (i + 1)
  +:+ ": insufficient columns (need at least: date_applied, job_title, company)".

(** ** Vocabulary of the texts that [time.Parse] accepts *)

Module datetext.

(** An ASCII letter. *)
Definition isLetterByte (c : ascii) : bool :=
  let n := N_of_ascii c in
  ((65 <=? n)%N && (n <=? 90)%N) || ((97 <=? n)%N && (n <=? 122)%N).

(** An ASCII byte that is no letter: a digit, a space, a punctuation mark. *)
Definition separatorByte (c : ascii) : bool :=
  strings.isASCIIbyte c && negb (isLetterByte c).

(** A text that does not start with a letter. *)
Definition guarded (s : string) : bool :=
  match s with
  | EmptyString => true
  | String c _ => separatorByte c
  end.

Definition lowered : string → string := strings.string_map strings.lowerByte.

(** No header keyword occurs in the text once its ASCII letters are
    lowered. *)
Definition noKeyword (s : string) : bool :=
  forallb (fun keyword => negb (strings.Contains (lowered s) keyword))
          headerKeywords.

(** An ASCII text without a header keyword. *)
Definition plainText (s : string) : bool :=
  strings.string_forall strings.isASCIIbyte s && noKeyword s.

(** A word of letters without a header keyword. *)
Definition plainWord (w : string) : bool :=
  strings.string_forall isLetterByte w && noKeyword w.

(** The letters a text starts with, and the text after them. *)
Fixpoint splitWord (s : string) : string * string :=
  match s with
  | EmptyString => (EmptyString, EmptyString)
  | String c s' =>
      if isLetterByte c
      then (String c (splitWord s').1, (splitWord s').2)
      else (EmptyString, s)
  end.

(** The layout elements that stand for a month name. *)
Definition isMonthStd (c : time.std) : bool :=
  match c with
  | time.stdLongMonth | time.stdMonth => true
  | _ => false
  end.

(** The literal texts of [layout] are separators, possibly after a word
    without a header keyword that a separator follows; no word and no month
    name comes right after a month name ([afterMonth]), and [fuel] turns of
    the loop of [time.Parse] reach the end of [layout], through elements
    that the model interprets. *)
Fixpoint plainLayout (fuel : nat) (afterMonth : bool) (layout : string) : bool :=
  match fuel with
  | O => false
  | S fuel' =>
      let '(prefix, c, suffix) := time.nextStdChunk layout in
      let w := (splitWord prefix).1 in
      let q := (splitWord prefix).2 in
      strings.string_forall separatorByte q
      && plainWord w
      && (String.eqb w EmptyString
          || (negb (String.eqb q EmptyString) && negb afterMonth))
      && match c with
         | None => true
         | Some time.stdOther => false
         | Some time.stdLongMonth | Some time.stdMonth =>
             negb (afterMonth && String.eqb q EmptyString)
             && plainLayout fuel' true suffix
         | Some _ => plainLayout fuel' false suffix
         end
  end.

End datetext.

(** ** Dates in the ISO form *)

(** The byte of the decimal digit [n]. *)
Definition digitByte (n : Z) : ascii := ascii_of_N (48 + Z.to_N n).

(** The text YYYY-MM-DD of the day [d] of month [m] of year [y]. *)
Definition isoDate (y m d : Z) : string :=
  String (digitByte (y / 1000)) (String (digitByte (y / 100 mod 10))
    (String (digitByte (y / 10 mod 10)) (String (digitByte (y mod 10))
      (String "-" (String (digitByte (m / 10)) (String (digitByte (m mod 10))
        (String "-" (String (digitByte (d / 10)) (String (digitByte (d mod 10))
          EmptyString))))))))).

(** A day of the calendar, in a year of four digits. *)
Definition calendarDay (y m d : Z) : Prop :=
  1 <= y <= 9999 ∧ 1 <= m <= 12 ∧ 1 <= d <= time.daysIn m y.
(** ** The model of [time.Parse] *)

Lemma length_drop_le (n : nat) (s : string) :
  (String.length (time.drop n s) ≤ String.length s)%nat.
Proof.
  revert s. induction n as [|n IH]; intros [|c s]; simpl; try lia.
  specialize (IH s). lia.
Qed.

Lemma length_drop_lt (n : nat) (c : ascii) (s : string) :
  (String.length (time.drop (S n) (String c s)) < String.length (String c s))%nat.
Proof. pose proof (length_drop_le n s). simpl. lia. Qed.

(** Each layout element takes at least one byte of the layout. *)
Lemma nextStdChunk_from_shorter (layout prefix p suffix : string) (c : time.std) :
  time.nextStdChunk_from prefix layout = (p, Some c, suffix) →
  (String.length suffix < String.length layout)%nat.
Proof.
  revert prefix. induction layout as [|ch rest IH]; intros prefix H.
  - discriminate.
  - cbn [time.nextStdChunk_from] in H. cbv zeta in H.
    repeat match type of H with
           | context [if ?b then _ else _] => destruct b
           end;
      first [ apply IH in H; simpl; lia
            | apply (f_equal snd) in H; cbn [snd] in H; rewrite <- H;
              apply length_drop_lt ].
Qed.

(** The loop of [time.Parse] never runs out of fuel: above the length of the
    layout, the fuel does not matter. *)
Lemma parseLoop_fuel (fuel1 fuel2 : nat) (layout value : string) (st : time.fields) :
  (String.length layout < fuel1)%nat → (String.length layout < fuel2)%nat →
  time.parseLoop fuel1 layout value st = time.parseLoop fuel2 layout value st.
Proof.
  revert fuel2 layout value st.
  induction fuel1 as [|fuel1 IH]; intros [|fuel2] layout value st H1 H2; try lia.
  cbn [time.parseLoop].
  destruct (time.nextStdChunk layout) as [[prefix c] suffix] eqn:Hchunk.
  destruct (time.skip value prefix) as [value'|]; [|reflexivity]. simpl.
  destruct c as [c|]; [|reflexivity].
  destruct (time.parseChunk c value' st) as [[value'' st']|]; [|reflexivity]. simpl.
  apply nextStdChunk_from_shorter in Hchunk. apply IH; lia.
Qed.

(** ** The date parser *)

Lemma formats_in_model :
  forallb (fun layout => layoutInModel (S (String.length layout)) layout)
          ("2006-01-02" :: formats) = true.
Proof. vm_compute. reflexivity. Qed.

Lemma tryFormats_Some layouts s t :
  tryFormats layouts s = Some t ↔ first_success layouts s t.
Proof.
  induction layouts as [|layout layouts IH]; simpl.
  - split; [discriminate|]. intros (i & l & Hi & _). destruct i; discriminate.
  - destruct (time.Parse layout s) as [d|] eqn:Hparse.
    + split.
      * intros [= <-]. exists 0%nat, layout. repeat split; auto.
        intros j earlier Hj. lia.
      * intros (i & l & Hi & Hl & Hearlier). destruct i as [|i].
        -- simpl in Hi. injection Hi as <-. congruence.
        -- specialize (Hearlier 0%nat layout ltac:(lia) eq_refl). congruence.
    + rewrite IH. split.
      * intros (i & l & Hi & Hl & Hearlier). exists (S i), l. repeat split; auto.
        intros [|j] earlier Hj Hlook; simpl in Hlook.
        -- congruence.
        -- apply (Hearlier j); [lia|assumption].
      * intros (i & l & Hi & Hl & Hearlier). destruct i as [|i].
        -- simpl in Hi. congruence.
        -- exists i, l. repeat split; auto.
           intros j earlier Hj Hlook. apply (Hearlier (S j)); [lia|assumption].
Qed.

Lemma tryFormats_None layouts s :
  tryFormats layouts s = None ↔ no_layout_matches layouts s.
Proof.
  unfold no_layout_matches. induction layouts as [|layout layouts IH]; simpl.
  - split; [|reflexivity]. intros _ l Hl. inversion Hl.
  - destruct (time.Parse layout s) as [d|] eqn:Hparse.
    + split; [discriminate|]. intros H.
      rewrite H in Hparse; [discriminate|left].
    + rewrite IH. split.
      * intros H l Hl. apply elem_of_cons in Hl as [->|Hl]; auto.
      * intros H l Hl. apply H. now right.
Qed.

Lemma parseDate_inl dateStr t :
  parseDate dateStr = inl t ↔ dateStr ≠ EmptyString ∧ first_success formats dateStr t.
Proof.
  unfold parseDate. rewrite <- tryFormats_Some.
  destruct (String.eqb_spec dateStr EmptyString) as [->|Hne].
  - split; [discriminate|]. intros [H _]. now contradiction H.
  - destruct (tryFormats formats dateStr) as [d|].
    + split; [intros [= <-]; auto|]. intros [_ [= <-]]. reflexivity.
    + split; [discriminate|]. intros [_ H]. discriminate.
Qed.

(** C1 (as amended): on the empty string [parseDate] fails with "date is
    required" and tries no layout.  On every other string it returns what the
    first layout of [formats] that parses the string gives, and fails with
    "unrecognized date format" when no layout parses it; one of the two is
    always the case.  [formats] starts with the ISO layout, followed by the
    US layout and its variant without leading zeros, the European layout and
    its variant, the two year-first layouts and the month-name layouts. *)
Theorem parseDate_first_layout (dateStr : string) :
  (dateStr = EmptyString → parseDate dateStr = inr (Errorf "date is required"))
  ∧ (dateStr ≠ EmptyString →
       (∀ t, first_success formats dateStr t → parseDate dateStr = inl t)
       ∧ (no_layout_matches formats dateStr →
            parseDate dateStr = inr (Errorf "unrecognized date format"))
       ∧ ((∃ t, first_success formats dateStr t)
            ∨ no_layout_matches formats dateStr))
  ∧ take 7 formats =
      ["2006-01-02"; "01/02/2006"; "1/2/2006"; "02/01/2006"; "2/1/2006";
       "2006/01/02"; "2006/1/2"].
Proof.
  split; [|split].
  - intros ->. reflexivity.
  - intros Hne. split; [|split].
    + intros t Ht. apply parseDate_inl. auto.
    + intros Hnone. unfold parseDate.
      destruct (String.eqb_spec dateStr EmptyString) as [->|_]; [congruence|].
      apply tryFormats_None in Hnone. now rewrite Hnone.
    + destruct (tryFormats formats dateStr) as [t|] eqn:Htry.
      * left. exists t. now apply tryFormats_Some.
      * right. now apply tryFormats_None.
  - reflexivity.
Qed.

(** The theorem at the US date ["01/15/2024"]: the ISO layout does not parse
    it, the US layout does. *)
Lemma parseDate_first_layout_witness :
  parseDate "01/15/2024" = inl (time.Date 2024 1 15).
Proof.
  refine (proj1 (proj1 (proj2 (parseDate_first_layout "01/15/2024")) _) _ _).
  - discriminate.
  - exists 1%nat, "01/02/2006". split; [reflexivity|]. split; [vm_compute; reflexivity|].
    intros [|j] earlier Hj Hlook; [|lia].
    injection Hlook as <-. vm_compute. reflexivity.
Defined.

(** C1 (as stated) fails on the empty string: no layout of [formats] parses
    it, and the error is not "unrecognized date format". *)
Lemma parseDate_empty_counterexample :
  no_layout_matches formats EmptyString
  ∧ parseDate EmptyString = inr (Errorf "date is required")
  ∧ parseDate EmptyString ≠ inr (Errorf "unrecognized date format").
Proof.
  split; [|split].
  - apply tryFormats_None. vm_compute. reflexivity.
  - reflexivity.
  - discriminate.
Qed.

(** ** The store *)

Lemma max_id_ge rows r : r ∈ rows → ID r <= max_id rows.
Proof.
  induction rows as [|r' rows IH]; intros Hin.
  - inversion Hin.
  - apply elem_of_cons in Hin as [->|Hin]; simpl.
    + lia.
    + specialize (IH Hin). lia.
Qed.

Lemma next_id_fresh db r : r ∈ job_applications db → ID r < next_id db.
Proof. intros Hin. apply max_id_ge in Hin. unfold next_id. lia. Qed.

Lemma find_snoc_fresh (rows : list JobApplication) row id :
  (∀ r, r ∈ rows → ID r ≠ id) → ID row = id →
  List.find (fun r => ID r =? id) (rows ++ [row]) = Some row.
Proof.
  intros Hfresh Hrow. induction rows as [|r rows IH]; simpl.
  - now rewrite (proj2 (Z.eqb_eq _ _) Hrow).
  - destruct (Z.eqb_spec (ID r) id) as [Heq|_].
    + exfalso. apply (Hfresh r); [left|assumption].
    + apply IH. intros r' Hr'. apply Hfresh. now right.
Qed.

Lemma CreateJobApplication_ok f now db job db' job' :
  CreateJobApplication f now db job = (db', job', None) →
  f = NoFault
  ∧ db' = {| job_applications :=
               job_applications db ++ [inserted_row (next_id db) now job];
             sqlite_sequence := next_id db |}
  ∧ job' = set_ID (next_id db) job.
Proof.
  unfold CreateJobApplication. destruct f; intros [= <- <-]; auto.
Qed.

(** C5: creating a record never fails unless the driver does, and after a
    creation that succeeded, fetching by the identifier it assigned returns
    a record with that identifier and with the application date, job title,
    company, status, URL and notes that were given to the creation. *)
Theorem create_then_get (now : time.Time) (db : DB) (job : JobApplication) :
  (∃ db' job', CreateJobApplication NoFault now db job = (db', job', None))
  ∧ ∀ f db' job',
      CreateJobApplication f now db job = (db', job', None) →
      ∃ stored,
        GetJobApplication NoFault db' (ID job') = inl stored
        ∧ ID stored = ID job'
        ∧ DateApplied stored = DateApplied job
        ∧ JobTitle stored = JobTitle job
        ∧ Company stored = Company job
        ∧ Status stored = Status job
        ∧ JobURL stored = JobURL job
        ∧ Notes stored = Notes job.
Proof.
  split.
  - eexists _, _. reflexivity.
  - intros f db' job' Hcreate.
    apply CreateJobApplication_ok in Hcreate as (_ & -> & ->).
    exists (inserted_row (next_id db) now job). simpl.
    rewrite find_snoc_fresh; [repeat split; reflexivity| |reflexivity].
    intros r Hr Heq. apply next_id_fresh in Hr. lia.
Qed.

(** The theorem on the store of [TestDatabase], for a second record. *)
Lemma create_then_get_witness :
  ∃ stored,
    GetJobApplication NoFault
      (CreateJobApplication NoFault 2000 example_db example_job).1.1 2 = inl stored
    ∧ ID stored = 2
    ∧ DateApplied stored = time.Date 2024 1 15
    ∧ JobTitle stored = "Test Engineer"
    ∧ Company stored = "Test Corp"
    ∧ Status stored = "Applied"
    ∧ JobURL stored = "https://test.com/job/123"
    ∧ Notes stored = "This is a test job application".
Proof.
  exact (proj2 (create_then_get 2000 example_db example_job) NoFault _ _ eq_refl).
Defined.

Lemma filter_all_length {A} (p : A → bool) (l : list A) :
  length (List.filter p l) = length l ↔ ∀ x, x ∈ l → p x = true.
Proof.
  induction l as [|a l IH]; simpl.
  - split; [|reflexivity]. intros _ x Hx. inversion Hx.
  - pose proof (List.filter_length_le p l) as Hle.
    destruct (p a) eqn:Hpa; simpl.
    + split.
      * intros Hlen x Hx. apply elem_of_cons in Hx as [->|Hx]; [assumption|].
        apply IH; [lia|assumption].
      * intros Hall. f_equal. apply IH. intros x Hx. apply Hall. now right.
    + split; [lia|]. intros Hall. specialize (Hall a ltac:(left)). congruence.
Qed.

Lemma filter_all_id {A} (p : A → bool) (l : list A) :
  (∀ x, x ∈ l → p x = true) → List.filter p l = l.
Proof.
  induction l as [|a l IH]; simpl; intros Hall; [reflexivity|].
  rewrite (Hall a ltac:(left)). f_equal. apply IH. intros x Hx. apply Hall. now right.
Qed.

(** C6: deleting an identifier that no row of the store has leaves the store
    as it is, and returns [ErrJobNotFound] whenever the driver does not
    fail.  Among all the errors the delete operation can return, those that
    [errors.Is] recognises as [ErrJobNotFound] are exactly the ones returned
    for a missing identifier: the errors of a failing driver are not. *)
Theorem delete_not_found (f : fault) (db : DB) (id : Z) :
  ((∀ r, r ∈ job_applications db → ID r ≠ id) →
     (DeleteJobApplication f db id).1 = db
     ∧ (f = NoFault → (DeleteJobApplication f db id).2 = Some ErrJobNotFound))
  ∧ (∀ e, (DeleteJobApplication f db id).2 = Some e →
       (errors_Is_ErrJobNotFound e = true
        ↔ f = NoFault ∧ ∀ r, r ∈ job_applications db → ID r ≠ id)).
Proof.
  split.
  - intros Habsent.
    assert (Hkept : List.filter (fun r => negb (ID r =? id)) (job_applications db)
                    = job_applications db).
    { apply filter_all_id. intros r Hr. apply Habsent in Hr.
      now destruct (Z.eqb_spec (ID r) id). }
    unfold DeleteJobApplication. rewrite Hkept, Nat.sub_diag. simpl.
    destruct db as [rows seq]. destruct f; simpl; split; congruence.
  - intros e. unfold DeleteJobApplication.
    destruct f as [|msg|msg]; simpl.
    + destruct (Nat.eqb_spec
        (length (job_applications db)
         - length (List.filter (fun r => negb (ID r =? id)) (job_applications db)))
        0) as [Hzero|Hpos]; simpl; [|discriminate].
      intros [= <-]. simpl. split; [intros _|reflexivity]. split; [reflexivity|].
      pose proof (List.filter_length_le (fun r => negb (ID r =? id))
                    (job_applications db)) as Hle.
      assert (Hlen : length (List.filter (fun r => negb (ID r =? id))
                               (job_applications db))
                     = length (job_applications db)) by lia.
      intros r Hr. apply (proj1 (filter_all_length _ _) Hlen) in Hr.
      now destruct (Z.eqb_spec (ID r) id).
    + intros [= <-]. simpl. split; [discriminate|]. intros [? _]. discriminate.
    + intros [= <-]. simpl. split; [discriminate|]. intros [? _]. discriminate.
Qed.

(** The theorem on the store of [TestDatabase], which holds identifier 1
    only, for the identifier 999 of [TestDatabaseEdgeCases]. *)
Lemma delete_not_found_witness :
  (DeleteJobApplication NoFault example_db 999).1 = example_db
  ∧ (DeleteJobApplication NoFault example_db 999).2 = Some ErrJobNotFound
  ∧ errors_Is_ErrJobNotFound ErrJobNotFound = true.
Proof.
  assert (Habsent : ∀ r, r ∈ job_applications example_db → ID r ≠ 999).
  { intros r Hr. vm_compute in Hr. apply list_elem_of_singleton in Hr as ->.
    discriminate. }
  pose proof (delete_not_found NoFault example_db 999) as [Hstore Hdistinct].
  destruct (Hstore Habsent) as [Hsame Herr].
  split; [exact Hsame|]. split; [exact (Herr eq_refl)|].
  apply (Hdistinct ErrJobNotFound (Herr eq_refl)). split; [reflexivity|exact Habsent].
Defined.

#[local] Instance newest_first_total : Total newest_first.
Proof. intros a b. unfold newest_first. lia. Qed.

#[local] Instance newest_first_trans : Transitive newest_first.
Proof. intros a b c. unfold newest_first. lia. Qed.




Lemma count_status_cons status r rows :
  count_status status (r :: rows)
  = ((if String.eqb (Status r) status then 1 else 0) + count_status status rows)%nat.
Proof. unfold count_status. simpl. now destruct (String.eqb (Status r) status). Qed.

Lemma count_status_absent status rows :
  status ∉ Status <$> rows → count_status status rows = 0%nat.
Proof.
  induction rows as [|r rows IH]; [reflexivity|].
  rewrite fmap_cons, not_elem_of_cons. intros [Hne Hnotin].
  rewrite count_status_cons, IH by assumption.
  destruct (String.eqb_spec (Status r) status); [congruence|reflexivity].
Qed.

Lemma sum_indicator (s : string) (keys : list string) :
  NoDup keys → s ∈ keys →
  sum_list_with (fun k => if String.eqb s k then 1 else 0)%nat keys = 1%nat.
Proof.
  induction 1 as [|k keys Hnotin Hnodup IH]; intros Hin; [inversion Hin|].
  simpl. apply elem_of_cons in Hin as [->|Hin].
  - rewrite String.eqb_refl. f_equal.
    clear IH. induction keys as [|k' keys IH]; [reflexivity|]. simpl.
    apply not_elem_of_cons in Hnotin as [Hne Hnotin].
    apply NoDup_cons in Hnodup as [_ Hnodup].
    rewrite IH by assumption.
    destruct (String.eqb_spec k k'); [congruence|reflexivity].
  - rewrite IH by assumption.
    destruct (String.eqb_spec s k) as [->|_]; [contradiction|reflexivity].
Qed.

(** The groups of a [GROUP BY status] partition the table. *)
Lemma sum_count_status (keys : list string) (rows : list JobApplication) :
  NoDup keys → (∀ r, r ∈ rows → Status r ∈ keys) →
  sum_list_with (fun k => count_status k rows) keys = length rows.
Proof.
  intros Hnodup. induction rows as [|r rows IH]; intros Hkeys.
  - induction keys as [|k keys IHk]; [reflexivity|]. simpl.
    apply NoDup_cons in Hnodup as [_ Hnodup]. now rewrite IHk.
  - pose proof (sum_indicator (Status r) keys Hnodup (Hkeys r ltac:(left))) as Hone.
    specialize (IH (fun r' Hr' => Hkeys r' (list_elem_of_further _ _ _ Hr'))).
    assert (Hsplit : sum_list_with (fun k => count_status k (r :: rows)) keys
                     = (sum_list_with (fun k => if String.eqb (Status r) k then 1 else 0) keys
                        + sum_list_with (fun k => count_status k rows) keys)%nat).
    { clear. induction keys as [|k keys IHk]; [reflexivity|]. simpl.
      rewrite count_status_cons, IHk. lia. }
    rewrite Hsplit, Hone, IH. reflexivity.
Qed.

Lemma sum_snd_fmap (g : string → nat) (keys : list string) :
  sum_list_with snd ((fun s => (s, g s)) <$> keys) = sum_list_with g keys.
Proof. induction keys as [|k keys IH]; [reflexivity|]. csimpl. now rewrite IH. Qed.

Lemma foldl_insert_list_to_map (l : list (string * nat)) :
  foldl (fun (counts : gmap string nat) row => <[row.1 := row.2]> counts) ∅ l
  = list_to_map (reverse l).
Proof.
  induction l as [|[k v] l IH] using rev_ind; [reflexivity|].
  rewrite foldl_snoc, reverse_snoc, IH. reflexivity.
Qed.

Lemma select_status_counts_keys rows :
  (select_status_counts rows).*1 ≡ₚ remove_dups (Status <$> rows).
Proof.
  unfold select_status_counts. rewrite merge_sort_Permutation.
  rewrite <- list_fmap_compose. simpl.
  erewrite list_fmap_ext; [rewrite list_fmap_id; reflexivity|].
  intros i x _. reflexivity.
Qed.

Lemma GetStatusCounts_list_to_map db :
  GetStatusCounts NoFault db
  = inl (list_to_map
           ((fun s => (s, count_status s (job_applications db)))
              <$> remove_dups (Status <$> job_applications db))).
Proof.
  unfold GetStatusCounts. f_equal. rewrite foldl_insert_list_to_map.
  apply list_to_map_proper.
  - rewrite fmap_reverse, reverse_Permutation, select_status_counts_keys.
    apply NoDup_remove_dups.
  - rewrite reverse_Permutation. apply merge_sort_Permutation.
Qed.

(** C8: in every store state the status counts (read with a driver that does
    not fail) give, for each status, the number of stored records with that
    status (the map has an entry exactly for the statuses that occur), and
    the counts of the map add up to the number of stored records. *)
Theorem status_counts_total (db : DB) :
  ∃ counts : gmap string nat,
    GetStatusCounts NoFault db = inl counts
    ∧ (∀ status, map_index counts status = count_status status (job_applications db))
    ∧ (∀ status, is_Some (counts !! status)
                 ↔ ∃ r, r ∈ job_applications db ∧ Status r = status)
    ∧ map_fold (fun _ count total => (count + total)%nat) 0%nat counts
      = length (job_applications db).
Proof.
  eexists. split; [apply GetStatusCounts_list_to_map|].
  set (rows := job_applications db).
  set (keys := remove_dups (Status <$> rows)).
  set (l := (fun s => (s, count_status s rows)) <$> keys).
  assert (Hfst : l.*1 = keys).
  { unfold l. rewrite <- list_fmap_compose.
    erewrite list_fmap_ext; [apply list_fmap_id|]. intros i x _. reflexivity. }
  assert (Hnodup : NoDup (l.*1)) by (rewrite Hfst; apply NoDup_remove_dups).
  assert (Hlookup : ∀ status,
            (list_to_map l : gmap string nat) !! status
            = if decide (status ∈ keys) then Some (count_status status rows) else None).
  { intros status. case_decide as Hin.
    - apply elem_of_list_to_map; [assumption|].
      unfold l. apply list_elem_of_fmap. exists status. auto.
    - apply not_elem_of_list_to_map_1. now rewrite Hfst. }
  split; [|split].
  - intros status. unfold map_index. rewrite Hlookup. case_decide as Hin; [reflexivity|].
    simpl. symmetry. apply count_status_absent.
    unfold keys in Hin. now rewrite elem_of_remove_dups in Hin.
  - intros status. rewrite Hlookup. unfold keys.
    case_decide as Hin; rewrite elem_of_remove_dups, list_elem_of_fmap in Hin.
    + split; [intros _|eauto]. destruct Hin as (r & -> & Hr). eauto.
    + split; [intros [? ?]; discriminate|].
      intros (r & Hr & <-). exfalso. apply Hin. eauto.
  - rewrite map_fold_foldr.
    transitivity (sum_list_with snd (map_to_list (list_to_map l : gmap string nat))).
    { rewrite sum_list_with_foldr. apply foldr_ext; [|reflexivity..].
      intros [k v] total. reflexivity. }
    rewrite (map_to_list_to_map l Hnodup). unfold l.
    transitivity (sum_list_with (fun k => count_status k rows) keys).
    { apply sum_snd_fmap. }
    apply sum_count_status; [apply NoDup_remove_dups|].
    intros r Hr. unfold keys. rewrite elem_of_remove_dups.
    apply list_elem_of_fmap. eauto.
Qed.

(** The theorem on the store with two "Applied" records and one "In Review"
    record. *)
Lemma status_counts_total_witness :
  ∃ counts : gmap string nat,
    GetStatusCounts NoFault example_db3 = inl counts
    ∧ map_index counts "Applied" = 2%nat
    ∧ map_index counts "In Review" = 1%nat
    ∧ map_index counts "Offer" = 0%nat
    ∧ map_fold (fun _ count total => (count + total)%nat) 0%nat counts = 3%nat.
Proof.
  destruct (status_counts_total example_db3) as (counts & Hget & Hindex & _ & Hsum).
  exists counts. rewrite !Hindex, Hsum. repeat split; try assumption; reflexivity.
Defined.

(** ** Strings *)

Lemma string_app_nil_l (s : string) : EmptyString +:+ s = s.
Proof. reflexivity. Qed.

Lemma string_app_cons (c : ascii) (s1 s2 : string) :
  String c s1 +:+ s2 = String c (s1 +:+ s2).
Proof. reflexivity. Qed.

















Lemma string_map_id_on (f : ascii → ascii) (p : ascii → bool) (s : string) :
  (∀ c, p c = true → f c = c) → strings.string_forall p s = true →
  strings.string_map f s = s.
Proof.
  intros Hf. induction s as [|c s IH]; simpl; [reflexivity|].
  intros Hall. apply andb_true_iff in Hall as [Hc Hall].
  now rewrite (Hf c Hc), IH.
Qed.

Section strings_properties.
Variable Map_unicode_ToLower : string → string.
Variable TrimFunc_IsSpace : string → string.
Variable TrimRightFunc_IsSpace : string → string.

Local Abbreviation TrimSpace :=
  (strings.TrimSpace TrimFunc_IsSpace TrimRightFunc_IsSpace).
Local Abbreviation TrimSpace_stop := (strings.TrimSpace_stop TrimRightFunc_IsSpace).
Local Abbreviation ToLower := (strings.ToLower Map_unicode_ToLower).







End strings_properties.

(** ** The CSV import *)

Section CSV_properties.
Variable Map_unicode_ToLower : string → string.
Variable TrimFunc_IsSpace : string → string.
Variable TrimRightFunc_IsSpace : string → string.
Variable env : nat → fault * time.Time.

Local Abbreviation TrimSpace :=
  (handlers.TrimSpace TrimFunc_IsSpace TrimRightFunc_IsSpace).
Local Abbreviation ToLower := (handlers.ToLower Map_unicode_ToLower).
Local Abbreviation isHeaderRow :=
  (handlers.isHeaderRow Map_unicode_ToLower TrimFunc_IsSpace TrimRightFunc_IsSpace).
Local Abbreviation parseCSVRecord :=
  (handlers.parseCSVRecord TrimFunc_IsSpace TrimRightFunc_IsSpace).
Local Abbreviation isEmptyRow :=
  (handlers.isEmptyRow TrimFunc_IsSpace TrimRightFunc_IsSpace).
Local Abbreviation importRow :=
  (handlers.importRow TrimFunc_IsSpace TrimRightFunc_IsSpace env).
Local Abbreviation importRows :=
  (handlers.importRows TrimFunc_IsSpace TrimRightFunc_IsSpace env).
Local Abbreviation startIdx :=
  (handlers.startIdx Map_unicode_ToLower TrimFunc_IsSpace TrimRightFunc_IsSpace).
Local Abbreviation importRecords :=
  (handlers.importRecords Map_unicode_ToLower TrimFunc_IsSpace
     TrimRightFunc_IsSpace env).
Local Abbreviation emptyRow := (rows.emptyRow TrimFunc_IsSpace TrimRightFunc_IsSpace).
Local Abbreviation lacksRequiredField :=
  (rows.lacksRequiredField TrimFunc_IsSpace TrimRightFunc_IsSpace).
Local Abbreviation malformedDate :=
  (rows.malformedDate TrimFunc_IsSpace TrimRightFunc_IsSpace).
Local Abbreviation validRow := (rows.validRow TrimFunc_IsSpace TrimRightFunc_IsSpace).

Lemma isEmptyRow_spec record : isEmptyRow record = true ↔ emptyRow record.
Proof.
  unfold handlers.isEmptyRow, rows.emptyRow.
  destruct record as [|field [|field' rest]].
  - split; auto.
  - rewrite String.eqb_eq. split.
    + intros H. right. eauto.
    + intros [H|(f & [= <-] & H)]; [discriminate|assumption].
  - split; [discriminate|]. intros [H|(f & H & _)]; discriminate.
Qed.

Lemma parseCSVRecord_inl record job :
  parseCSVRecord record = inl job →
  ∃ record0 record1 record2 rest,
    record = record0 :: record1 :: record2 :: rest
    ∧ TrimSpace record0 ≠ EmptyString
    ∧ parseDate (TrimSpace record0) = inl (DateApplied job)
    ∧ JobTitle job = TrimSpace record1 ∧ JobTitle job ≠ EmptyString
    ∧ Company job = TrimSpace record2 ∧ Company job ≠ EmptyString
    ∧ Status job ≠ EmptyString.
Proof.
  unfold handlers.parseCSVRecord.
  destruct record as [|record0 [|record1 [|record2 rest]]]; try discriminate.
  destruct (parseDate (TrimSpace record0)) as [date|err] eqn:Hdate; [|discriminate].
  destruct (String.eqb_spec (TrimSpace record1) EmptyString) as [|Htitle]; [discriminate|].
  destruct (String.eqb_spec (TrimSpace record2) EmptyString) as [|Hcompany]; [discriminate|].
  intros [= <-]. exists record0, record1, record2, rest. simpl.
  repeat split; try assumption.
  - now apply parseDate_inl in Hdate.
  - destruct (rest !! 0%nat) as [record3|]; [|discriminate].
    destruct (String.eqb_spec (TrimSpace record3) EmptyString); [discriminate|assumption].
Qed.

Lemma validRow_not_empty record job :
  parseCSVRecord record = inl job → isEmptyRow record = false.
Proof.
  intros Hjob. apply parseCSVRecord_inl in Hjob as (? & ? & ? & ? & -> & _).
  reflexivity.
Qed.

Lemma lacksRequiredField_rejected record :
  lacksRequiredField record → ∃ err, parseCSVRecord record = inr err.
Proof.
  intros Hlacks. destruct (parseCSVRecord record) as [job|err] eqn:Hparse; [|eauto].
  exfalso.
  apply parseCSVRecord_inl in Hparse
    as (r0 & r1 & r2 & rest & -> & Hdate & _ & Htitle & Htitle' & Hcompany & Hcompany' & _).
  destruct Hlacks as [Hlen|(k & field & Hk & Hlook & Hblank)].
  - simpl in Hlen. lia.
  - destruct k as [|[|[|k]]]; [| | |lia]; simpl in Hlook; injection Hlook as <-;
      congruence.
Qed.

Lemma malformedDate_rejected record :
  malformedDate record →
  isEmptyRow record = false ∧ ∃ err, parseCSVRecord record = inr err.
Proof.
  intros (field & rest & -> & Hfield & err & Hdate). split.
  - destruct rest; [|reflexivity]. simpl.
    now destruct (String.eqb_spec (TrimSpace field) EmptyString).
  - unfold handlers.parseCSVRecord. destruct rest as [|record1 [|record2 rest]]; eauto.
    rewrite Hdate. eauto.
Qed.

Lemma importRow_empty i record st :
  isEmptyRow record = true → importRow i record st = st.
Proof. intros H. unfold handlers.importRow. now rewrite H. Qed.

Lemma importRow_rejected i record st err :
  isEmptyRow record = false → parseCSVRecord record = inr err →
  importRow i record st
  = {| st_db := st_db st;
       successCount := successCount st;
       errorCount := S (errorCount st);
       errors := errors st ++ ["Row " +:+ fmt_d (i + 1) +:+ ": " +:+ Error err] |}.
Proof. intros Hempty Hparse. unfold handlers.importRow. now rewrite Hempty, Hparse. Qed.

Lemma importRow_stored i record st job :
  parseCSVRecord record = inl job → (env i).1 = NoFault →
  importRow i record st
  = {| st_db :=
         {| job_applications :=
              job_applications (st_db st)
              ++ [inserted_row (next_id (st_db st)) (env i).2 job];
            sqlite_sequence := next_id (st_db st) |};
       successCount := S (successCount st);
       errorCount := errorCount st;
       errors := errors st |}.
Proof.
  intros Hparse Hfault. unfold handlers.importRow.
  rewrite (validRow_not_empty _ _ Hparse), Hparse, Hfault. reflexivity.
Qed.

Lemma importRows_app i rows1 rows2 st :
  importRows i (rows1 ++ rows2) st
  = importRows (i + length rows1) rows2 (importRows i rows1 st).
Proof.
  revert i st. induction rows1 as [|record rows1 IH]; intros i st; simpl.
  - now rewrite Nat.add_0_r.
  - rewrite IH. f_equal. lia.
Qed.

Lemma importRows_at i rows (k : nat) record st :
  rows !! k = Some record →
  importRows i rows st
  = importRows (S (i + k)) (drop (S k) rows)
      (importRow (i + k) record (importRows i (take k rows) st)).
Proof.
  intros Hlook. rewrite <- (take_drop_middle rows k record Hlook) at 1.
  rewrite importRows_app. simpl.
  rewrite length_take_le by (apply lookup_lt_Some in Hlook; lia). reflexivity.
Qed.

Lemma CreateJobApplication_rows f now db job :
  job_applications db `prefix_of`
    job_applications (CreateJobApplication f now db job).1.1.
Proof.
  destruct f; simpl; first [reflexivity | now apply prefix_app_r].
Qed.

(** What one turn of the import loop keeps: the messages and the stored rows
    so far, the balance of the counts, and the agreement of the error count
    with the number of messages. *)
Lemma importRow_step i record st :
  errors st `prefix_of` errors (importRow i record st)
  ∧ job_applications (st_db st)
      `prefix_of` job_applications (st_db (importRow i record st))
  ∧ (successCount (importRow i record st) + errorCount (importRow i record st)
     + (if isEmptyRow record then 1 else 0)
     = successCount st + errorCount st + 1)%nat
  ∧ (errorCount st = length (errors st) →
     errorCount (importRow i record st) = length (errors (importRow i record st))).
Proof.
  unfold handlers.importRow. destruct (isEmptyRow record).
  - split_and!; try reflexivity; try lia; auto.
  - destruct (parseCSVRecord record) as [job|err].
    + pose proof (CreateJobApplication_rows (env i).1 (env i).2 (st_db st) job) as Hrows.
      destruct (CreateJobApplication (env i).1 (env i).2 (st_db st) job)
        as [[db' job'] [err|]]; simpl in *.
      * split_and!; try assumption; try lia; [now apply prefix_app_r|].
        intros ->. rewrite length_app. simpl. lia.
      * split_and!; try assumption; try reflexivity; try lia; auto.
    + simpl. split_and!; try reflexivity; try lia; [now apply prefix_app_r|].
      intros ->. rewrite length_app. simpl. lia.
Qed.

Lemma importRows_steps i rows st :
  errors st `prefix_of` errors (importRows i rows st)
  ∧ job_applications (st_db st)
      `prefix_of` job_applications (st_db (importRows i rows st))
  ∧ (successCount (importRows i rows st) + errorCount (importRows i rows st)
     + length (List.filter isEmptyRow rows)
     = successCount st + errorCount st + length rows)%nat
  ∧ (errorCount st = length (errors st) →
     errorCount (importRows i rows st) = length (errors (importRows i rows st))).
Proof.
  revert i st. induction rows as [|record rows IH]; intros i st; simpl.
  - split_and!; try reflexivity; try lia; auto.
  - destruct (IH (S i) (importRow i record st)) as (Herr & Hrows & Hcount & Hlen).
    destruct (importRow_step i record st) as (Herr1 & Hrows1 & Hcount1 & Hlen1).
    split; [etransitivity; eassumption|]. split; [etransitivity; eassumption|].
    split; [|auto].
    destruct (isEmptyRow record); simpl; lia.
Qed.

Lemma data_row_at (records : list (list string)) (i : nat) record db :
  (startIdx records ≤ i)%nat → records !! i = Some record →
  importRows (startIdx records) (drop (startIdx records) records) (rows.initialState db)
  = importRows (S i) (drop (S (i - startIdx records)) (drop (startIdx records) records))
      (importRow i record
         (importRows (startIdx records)
            (take (i - startIdx records) (drop (startIdx records) records))
            (rows.initialState db))).
Proof.
  intros Hstart Hlook.
  rewrite (importRows_at (startIdx records) _ (i - startIdx records) record).
  - now replace (startIdx records + (i - startIdx records))%nat with i by lia.
  - rewrite lookup_drop.
    now replace (startIdx records + (i - startIdx records))%nat with i by lia.
Qed.

(** The import of [records]: rows that lack a required field are reported
    under their row number, rows that parse are stored, and every data row
    is a success, an error or an empty row. *)
Lemma importRecords_rows (db : DB) (records : list (list string)) :
  (∀ (i : nat) record,
     (startIdx records ≤ i)%nat → records !! i = Some record →
     ¬ emptyRow record → lacksRequiredField record →
     ∃ err, parseCSVRecord record = inr err
            ∧ "Row " +:+ fmt_d (i + 1) +:+ ": " +:+ Error err
              ∈ Errors (importRecords db records).2)
  ∧ (∀ (i : nat) record job,
       (startIdx records ≤ i)%nat → records !! i = Some record →
       parseCSVRecord record = inl job → (env i).1 = NoFault →
       ∃ stored, stored ∈ job_applications (importRecords db records).1
                 ∧ rows.storedFrom job stored)
  ∧ ErrorCount (importRecords db records).2
    = length (Errors (importRecords db records).2)
  ∧ (SuccessCount (importRecords db records).2
     + ErrorCount (importRecords db records).2
     + length (List.filter isEmptyRow (drop (startIdx records) records))
     = TotalRows (importRecords db records).2)%nat
  ∧ TotalRows (importRecords db records).2
    = (length records - startIdx records)%nat.
Proof.
  unfold handlers.importRecords. simpl.
  fold (rows.initialState db). split_and!.
  - intros i record Hstart Hlook Hnonempty Hlacks.
    destruct (lacksRequiredField_rejected record Hlacks) as [err Hparse].
    exists err. split; [assumption|].
    rewrite (data_row_at records i record db Hstart Hlook).
    eapply elem_of_prefix; [|apply importRows_steps].
    rewrite importRow_rejected with (err := err); [|
      destruct (isEmptyRow record) eqn:Hempty; [|reflexivity];
      now apply isEmptyRow_spec in Hempty | assumption].
    simpl. apply elem_of_app. right. left.
  - intros i record job Hstart Hlook Hparse Hfault.
    exists (inserted_row
              (next_id (st_db (importRows (startIdx records)
                 (take (i - startIdx records) (drop (startIdx records) records))
                 (rows.initialState db))))
              (env i).2 job).
    split; [|now repeat split].
    rewrite (data_row_at records i record db Hstart Hlook).
    eapply elem_of_prefix; [|apply importRows_steps].
    rewrite (importRow_stored _ _ _ job Hparse Hfault). simpl.
    apply elem_of_app. right. left.
  - now apply importRows_steps.
  - destruct (importRows_steps (startIdx records) (drop (startIdx records) records)
                (rows.initialState db)) as (_ & _ & Hcount & _).
    simpl in Hcount. rewrite length_drop in Hcount. lia.
  - reflexivity.
Qed.

Lemma ProcessCSVHandler_import (db : DB) (r : Request) file records :
  Method r = "POST" → ParseMultipartForm_ok r = true →
  FormFile_csv_file r = Some file → csv.ReadAll file = Some records →
  records ≠ [] →
  handlers.ProcessCSVHandler Map_unicode_ToLower TrimFunc_IsSpace
    TrimRightFunc_IsSpace env db r
  = ((importRecords db records).1,
     ExecuteTemplate_import_result (importRecords db records).2).
Proof.
  intros Hmethod Hform Hfile Hread Hnonempty. unfold handlers.ProcessCSVHandler.
  rewrite Hmethod, Hform, Hfile, Hread. simpl.
  destruct records as [|record records]; [congruence|]. reflexivity.
Qed.

(** C2 (as amended): when the CSV reader accepts the uploaded file and the
    file has a record, the import answers with its result page, whatever the
    rows are, and for the data it reports there: every data row (a row after
    the header, if the first row is one) that is not empty (it has a field,
    and not just one blank field) and that has fewer than three columns or a
    date, title or company that is empty once trimmed is rejected by
    [parseCSVRecord], and the message made of its 1-based row number and of
    the reason is among the reported messages.  The other rows are processed
    all the same: every data row that parses is stored when the driver does
    not fail on it.  The data has the success count, the error count, which
    is the number of messages, and the messages; every data row is a
    success, an error or an empty row. *)
Theorem import_rejects_rows_individually (db : DB) (r : Request)
    (file : csv.File) (records : list (list string)) :
  Method r = "POST" → ParseMultipartForm_ok r = true →
  FormFile_csv_file r = Some file → csv.ReadAll file = Some records →
  records ≠ [] →
  ∃ db' data,
    handlers.ProcessCSVHandler Map_unicode_ToLower TrimFunc_IsSpace
      TrimRightFunc_IsSpace env db r
    = (db', ExecuteTemplate_import_result data)
    ∧ (∀ (i : nat) record,
         (startIdx records ≤ i)%nat → records !! i = Some record →
         ¬ emptyRow record → lacksRequiredField record →
         ∃ err, parseCSVRecord record = inr err
                ∧ "Row " +:+ fmt_d (i + 1) +:+ ": " +:+ Error err ∈ Errors data)
    ∧ (∀ (i : nat) record job,
         (startIdx records ≤ i)%nat → records !! i = Some record →
         parseCSVRecord record = inl job → (env i).1 = NoFault →
         ∃ stored, stored ∈ job_applications db' ∧ rows.storedFrom job stored)
    ∧ ErrorCount data = length (Errors data)
    ∧ (SuccessCount data + ErrorCount data
       + length (List.filter isEmptyRow (drop (startIdx records) records))
       = TotalRows data)%nat
    ∧ TotalRows data = (length records - startIdx records)%nat.
Proof.
  intros Hmethod Hform Hfile Hread Hnonempty.
  exists (importRecords db records).1, (importRecords db records).2.
  split; [now apply (ProcessCSVHandler_import db r file records)|].
  apply importRecords_rows.
Qed.

(** C3 (as amended): a file whose data rows (the rows after the header, if
    the first row is taken for one, and all rows otherwise) are three rows,
    of which one has a malformed date and the two others are valid, imports
    (with a driver that does not fail) with a success count of 2 and an
    error count of 1, and its only message starts with the 1-based number
    the offending row has in the file. *)
Theorem import_three_rows_one_malformed (db : DB)
    (header : list (list string)) (good1 good2 bad : list string) (k : nat)
    (records : list (list string)) :
  (k ≤ 2)%nat →
  records = header ++ take k [good1; good2] ++ bad :: drop k [good1; good2] →
  startIdx records = length header →
  malformedDate bad → validRow good1 → validRow good2 →
  (∀ i, (env i).1 = NoFault) →
  SuccessCount (importRecords db records).2 = 2%nat
  ∧ ErrorCount (importRecords db records).2 = 1%nat
  ∧ ∃ err, parseCSVRecord bad = inr err
           ∧ Errors (importRecords db records).2
             = ["Row " +:+ fmt_d (length header + k + 1) +:+ ": " +:+ Error err].
Proof.
  intros Hk -> Hstart Hbad [job1 Hgood1] [job2 Hgood2] Hfault.
  destruct (malformedDate_rejected bad Hbad) as [Hnonempty [err Hparse]].
  unfold handlers.importRecords. rewrite Hstart, drop_app_length.
  assert (Hrow : ∀ n, (length header + n + 1)%nat = (n + length header + 1)%nat)
    by (intros; lia).
  destruct k as [|[|[|k]]]; [| | |lia]; simpl;
    repeat first
      [ rewrite (importRow_stored _ _ _ job1 Hgood1 (Hfault _))
      | rewrite (importRow_stored _ _ _ job2 Hgood2 (Hfault _))
      | rewrite (importRow_rejected _ _ _ err Hnonempty Hparse) ];
    simpl; split_and!; try reflexivity; exists err; split; try assumption;
    repeat f_equal; lia.
Qed.


Lemma emptyRow_not_header record : emptyRow record → isHeaderRow record = false.
Proof.
  intros [->|(field & -> & Hblank)]; [reflexivity|].
  unfold handlers.isHeaderRow. rewrite Hblank. reflexivity.
Qed.

(** C10: a data row with no field, or with one field that is empty once
    trimmed, is never taken for a header, and the import loop passes over it
    with its state unchanged: no record is created, no count moves and no
    message is added; the import goes on with the rows after it from the
    state the rows before it left.  The row is counted in the total, which
    is therefore larger than the number of successes and errors. *)
Theorem empty_row_skipped (db : DB) (before after : list (list string))
    (record : list string) :
  emptyRow record →
  (startIdx (before ++ record :: after) ≤ length before)%nat
  ∧ (∀ i st, importRow i record st = st)
  ∧ importRows (startIdx (before ++ record :: after))
      (drop (startIdx (before ++ record :: after)) (before ++ record :: after))
      (rows.initialState db)
    = importRows (S (length before)) after
        (importRows (startIdx (before ++ record :: after))
           (drop (startIdx (before ++ record :: after)) before)
           (rows.initialState db))
  ∧ TotalRows (importRecords db (before ++ record :: after)).2
    = (length (drop (startIdx (before ++ record :: after)) before)
       + 1 + length after)%nat
  ∧ (SuccessCount (importRecords db (before ++ record :: after)).2
     + ErrorCount (importRecords db (before ++ record :: after)).2
     < TotalRows (importRecords db (before ++ record :: after)).2)%nat.
Proof.
  intros Hempty.
  assert (Hstart : (startIdx (before ++ record :: after) ≤ length before)%nat).
  { destruct before as [|first before]; simpl.
    - now rewrite (emptyRow_not_header record Hempty).
    - destruct (isHeaderRow first); lia. }
  assert (Hskip : ∀ i st, importRow i record st = st).
  { intros i st. apply importRow_empty. now apply isEmptyRow_spec. }
  set (s := startIdx (before ++ record :: after)) in *.
  assert (Hdrop : drop s (before ++ record :: after)
                  = drop s before ++ record :: after).
  { now rewrite drop_app_le by assumption. }
  split_and!; try assumption.
  - rewrite Hdrop, importRows_app. simpl. rewrite Hskip.
    rewrite length_drop. f_equal. lia.
  - unfold handlers.importRecords. simpl. fold s.
    rewrite length_app, length_drop. simpl. lia.
  - unfold handlers.importRecords. simpl. fold s. fold (rows.initialState db).
    destruct (importRows_steps s (drop s (before ++ record :: after))
                (rows.initialState db)) as (_ & _ & Hcount & _).
    rewrite Hdrop, List.filter_app, !length_app in Hcount. simpl in Hcount.
    rewrite (proj2 (isEmptyRow_spec record) Hempty) in Hcount. simpl in Hcount.
    rewrite Hdrop, length_app. simpl.
    rewrite length_drop in Hcount. lia.
Qed.

End CSV_properties.

(** The theorem on the upload of [example_records]: the row with a blank
    title is row 3 and the row of blank fields is row 4; the rows that parse
    are stored although they come before and after them. *)
Lemma import_rejects_rows_individually_witness :
  ∃ db' data,
    ProcessCSVHandler not_taken not_taken not_taken example_env New
      (example_upload (Some example_records))
    = (db', ExecuteTemplate_import_result data)
    ∧ "Row 3: job title is required" ∈ Errors data
    ∧ "Row 4: invalid date format '': date is required" ∈ Errors data
    ∧ (∃ stored, stored ∈ job_applications db' ∧ Company stored = "Globex")
    ∧ SuccessCount data = 2%nat ∧ ErrorCount data = 2%nat.
Proof.
  destruct (import_rejects_rows_individually not_taken not_taken not_taken
              example_env New (example_upload (Some example_records))
              (Some example_records) example_records
              eq_refl eq_refl eq_refl eq_refl ltac:(discriminate))
    as (db' & data & Hanswer & Hrejected & Hstored & _).
  exists db', data. split; [exact Hanswer|]. split_and!.
  - destruct (Hrejected 2%nat ["01/17/2024"; " "; "Initech"]) as (err & Herr & Hin).
    + vm_compute. lia.
    + reflexivity.
    + intros [H|(field & H & _)]; discriminate.
    + right. exists 1%nat, " ". split; [lia|]. split; reflexivity.
    + vm_compute in Herr. injection Herr as <-. exact Hin.
  - destruct (Hrejected 3%nat [""; ""; ""]) as (err & Herr & Hin).
    + vm_compute. lia.
    + reflexivity.
    + intros [H|(field & H & _)]; discriminate.
    + right. exists 0%nat, "". split; [lia|]. split; reflexivity.
    + vm_compute in Herr. injection Herr as <-. exact Hin.
  - destruct (Hstored 4%nat ["Jan 18, 2024"; "Data Engineer"; "Globex"]
                {| ID := 0; DateApplied := time.Date 2024 1 18;
                   JobTitle := "Data Engineer"; Company := "Globex";
                   Status := StatusApplied; JobURL := EmptyString;
                   Notes := EmptyString;
                   CreatedAt := time.zeroTime; UpdatedAt := time.zeroTime |})
      as (stored & Hin & Hfrom).
    + vm_compute. lia.
    + reflexivity.
    + vm_compute. reflexivity.
    + reflexivity.
    + exists stored. split; [exact Hin|]. apply Hfrom.
  - vm_compute in Hanswer. injection Hanswer as _ <-. reflexivity.
  - vm_compute in Hanswer. injection Hanswer as _ <-. reflexivity.
Defined.

(** In a file with two columns every row is rejected under its number. *)
Example import_narrow_file :
  (example_import New example_narrow_records).2
  = {| SuccessCount := 0; ErrorCount := 2;
       Errors :=
         [ "Row 1: insufficient columns (need at least: date_applied, job_title, company)";
           "Row 2: insufficient columns (need at least: date_applied, job_title, company)" ];
       TotalRows := 2 |}.
Proof. vm_compute. reflexivity. Qed.

(** A file whose rows do not all have the number of fields of its first row
    is refused by the CSV reader, and nothing is imported. *)
Example mixed_width_file_is_refused :
  ProcessCSVHandler not_taken not_taken not_taken example_env New
    (example_upload
       (Some [ ["2024-01-15"; "Software Engineer"; "Acme"];
               ["2024-01-16"; "Backend Developer"] ]))
  = (New, http_Error "Failed to parse CSV file" 400%nat).
Proof. vm_compute. reflexivity. Qed.

(** C2 (as stated) fails on the upload of [example_blank_records], a file
    the CSV reader accepts: its second row has fewer than three columns and
    a blank date, and the import reports the rows 1 and 3 and nothing for
    row 2. *)
Lemma import_blank_row_counterexample :
  example_blank_records !! 1%nat = Some [" "]
  ∧ rows.lacksRequiredField not_taken not_taken [" "]
  ∧ ProcessCSVHandler not_taken not_taken not_taken example_env New
      (example_upload (Some example_blank_records))
    = (New,
       ExecuteTemplate_import_result
         {| SuccessCount := 0; ErrorCount := 2;
            Errors :=
              [ "Row 1: insufficient columns (need at least: date_applied, job_title, company)";
                "Row 3: insufficient columns (need at least: date_applied, job_title, company)" ];
            TotalRows := 3 |}).
Proof.
  split; [reflexivity|]. split; [|vm_compute; reflexivity].
  left. simpl. lia.
Qed.

(** The theorem on a file with a header and three data rows, of which the
    second has the date "not-a-date": it is row 3 of the file. *)
Lemma import_three_rows_one_malformed_witness :
  let records :=
    [ ["Date Applied"; "Job Title"; "Company"];
      ["2024-01-15"; "Software Engineer"; "Acme"];
      ["not-a-date"; "Backend Developer"; "Initech"];
      ["Jan 18, 2024"; "Data Engineer"; "Globex"] ] in
  SuccessCount (example_import New records).2 = 2%nat
  ∧ ErrorCount (example_import New records).2 = 1%nat
  ∧ ∃ err,
      parseCSVRecord not_taken not_taken
        ["not-a-date"; "Backend Developer"; "Initech"] = inr err
      ∧ Errors (example_import New records).2
        = ["Row " +:+ fmt_d (1 + 1 + 1) +:+ ": " +:+ Error err].
Proof.
  apply (import_three_rows_one_malformed not_taken not_taken not_taken example_env
           New [["Date Applied"; "Job Title"; "Company"]]
           ["2024-01-15"; "Software Engineer"; "Acme"]
           ["Jan 18, 2024"; "Data Engineer"; "Globex"]
           ["not-a-date"; "Backend Developer"; "Initech"] 1%nat).
  - lia.
  - reflexivity.
  - vm_compute. reflexivity.
  - exists "not-a-date", ["Backend Developer"; "Initech"].
    split; [reflexivity|]. split; [vm_compute; discriminate|].
    eexists. vm_compute. reflexivity.
  - eexists. vm_compute. reflexivity.
  - eexists. vm_compute. reflexivity.
  - intros i. reflexivity.
Defined.

(** C3 (as stated) fails on a file of three rows without a header whose
    first row has the date "invalid-date": the header test comes before any
    parsing, the row is taken for a header because of the keyword "date",
    and the import counts 2 successes and no error. *)
Lemma import_three_rows_counterexample :
  rows.malformedDate not_taken not_taken
    ["invalid-date"; "Software Engineer"; "Acme"]
  ∧ rows.validRow not_taken not_taken
      ["2024-01-16"; "Backend Developer"; "Initech"]
  ∧ rows.validRow not_taken not_taken
      ["Jan 18, 2024"; "Data Engineer"; "Globex"]
  ∧ (example_import New
       [ ["invalid-date"; "Software Engineer"; "Acme"];
         ["2024-01-16"; "Backend Developer"; "Initech"];
         ["Jan 18, 2024"; "Data Engineer"; "Globex"] ]).2
    = {| SuccessCount := 2; ErrorCount := 0; Errors := []; TotalRows := 2 |}.
Proof.
  split_and!.
  - exists "invalid-date", ["Software Engineer"; "Acme"].
    split; [reflexivity|]. split; [vm_compute; discriminate|].
    eexists. vm_compute. reflexivity.
  - eexists. vm_compute. reflexivity.
  - eexists. vm_compute. reflexivity.
  - vm_compute. reflexivity.
Qed.


(** The theorem on the blank second row of [example_blank_records]. *)
Lemma empty_row_skipped_witness :
  (∀ i st, importRow not_taken not_taken example_env i [" "] st = st)
  ∧ (SuccessCount (example_import New example_blank_records).2
     + ErrorCount (example_import New example_blank_records).2
     < TotalRows (example_import New example_blank_records).2)%nat.
Proof.
  assert (Hempty : rows.emptyRow not_taken not_taken [" "]).
  { right. exists " ". split; reflexivity. }
  pose proof (empty_row_skipped not_taken not_taken not_taken example_env New
                (take 1 example_blank_records) (drop 2 example_blank_records)
                [" "] Hempty)
    as (_ & Hskip & _ & _ & Hless).
  split; [exact Hskip|exact Hless].
Defined.

(** ** Required fields and the default status *)

(** The record a row of the import stores has a date column, a title and a
    company that are not blank, and a status that is not empty: "Applied"
    when the row has no status column or a blank one. *)
Lemma parseCSVRecord_required_fields
    (TrimFunc_IsSpace TrimRightFunc_IsSpace : string → string)
    (record : list string) (job : JobApplication) :
  parseCSVRecord TrimFunc_IsSpace TrimRightFunc_IsSpace record = inl job →
  JobTitle job ≠ EmptyString ∧ Company job ≠ EmptyString
  ∧ Status job ≠ EmptyString
  ∧ (match record !! 3%nat with
     | Some status =>
         handlers.TrimSpace TrimFunc_IsSpace TrimRightFunc_IsSpace status = EmptyString
     | None => True
     end → Status job = StatusApplied).
Proof.
  intros Hparse.
  pose proof (parseCSVRecord_inl _ _ _ _ Hparse)
    as (r0 & r1 & r2 & rest & -> & _ & _ & _ & Htitle & _ & Hcompany & Hstatus).
  split_and!; try assumption.
  unfold handlers.parseCSVRecord in Hparse.
  destruct (parseDate _); [|discriminate].
  destruct (String.eqb _ _); [discriminate|].
  destruct (String.eqb _ _); [discriminate|].
  injection Hparse as <-. simpl.
  destruct (rest !! 0%nat) as [status|]; [|reflexivity].
  intros ->. reflexivity.
Qed.

(** C9 fails on the create form: a POST that gives a date and nothing else
    is accepted, and the record it stores has an empty title, an empty
    company and an empty status, not the status "Applied". *)
Theorem create_form_stores_blank_fields :
  CreateJobHandler NoFault 1000 New example_create_request
  = ({| job_applications :=
          [ {| ID := 1;
               DateApplied := time.Date 2024 1 15;
               JobTitle := EmptyString;
               Company := EmptyString;
               Status := EmptyString;
               JobURL := EmptyString;
               Notes := EmptyString;
               CreatedAt := 1000;
               UpdatedAt := 1000 |} ];
        sqlite_sequence := 1 |},
     http_Redirect "/" 303%nat).
Proof. vm_compute. reflexivity. Qed.

(** * Further properties *)

(** ** The store: identifiers *)

Lemma max_id_le_bound (rows : list JobApplication) (bound : Z) :
  0 <= bound → (∀ r, r ∈ rows → ID r <= bound) → max_id rows <= bound.
Proof.
  intros Hbound. induction rows as [|r rows IH]; intros Hall; simpl; [assumption|].
  pose proof (Hall r ltac:(left)).
  specialize (IH (fun r' Hr' => Hall r' (list_elem_of_further _ _ _ Hr'))). lia.
Qed.

Lemma uniqueIds_next_id db :
  store.uniqueIds db → next_id db = sqlite_sequence db + 1.
Proof.
  intros (_ & Hpos & Hbound). unfold next_id.
  pose proof (max_id_le_bound (job_applications db) (sqlite_sequence db) Hpos
                (fun r Hr => proj2 (Hbound r Hr))). lia.
Qed.

Lemma ID_updated_rows now job (rows : list JobApplication) :
  ID <$> List.map (fun r => if ID r =? ID job then updated_row now job r else r) rows
  = ID <$> rows.
Proof.
  induction rows as [|r rows IH]; [reflexivity|]. csimpl. rewrite IH. f_equal.
  now destruct (ID r =? ID job).
Qed.

Lemma elem_of_filter_bool {A} (p : A → bool) (l : list A) (x : A) :
  x ∈ List.filter p l ↔ x ∈ l ∧ p x = true.
Proof. now rewrite !list_elem_of_In, List.filter_In. Qed.

Lemma NoDup_ID_filter (p : JobApplication → bool) (rows : list JobApplication) :
  NoDup (ID <$> rows) → NoDup (ID <$> List.filter p rows).
Proof.
  induction rows as [|r rows IH]; [auto|]. csimpl. intros Hnodup.
  apply NoDup_cons in Hnodup as [Hnotin Hnodup].
  destruct (p r); [|auto]. csimpl. apply NoDup_cons. split; [|auto].
  intros Hin. apply Hnotin. apply list_elem_of_fmap in Hin as (r' & -> & Hr').
  apply elem_of_filter_bool in Hr' as [Hr' _]. apply list_elem_of_fmap. eauto.
Qed.

Lemma CreateJobApplication_uniqueIds f now db job :
  store.uniqueIds db → store.uniqueIds (CreateJobApplication f now db job).1.1.
Proof.
  intros Hunique. pose proof Hunique as (Hnodup & Hpos & Hbound).
  assert (Hcreated : store.uniqueIds
            {| job_applications :=
                 job_applications db ++ [inserted_row (next_id db) now job];
               sqlite_sequence := next_id db |}).
  { rewrite (uniqueIds_next_id db Hunique). split_and!; simpl.
    - rewrite fmap_app. apply NoDup_app. split; [assumption|].
      split; [|apply NoDup_singleton].
      intros i Hi Hnew. apply list_elem_of_singleton in Hnew. subst i.
      apply list_elem_of_fmap in Hi as (r & Hid & Hr).
      specialize (Hbound r Hr). simpl in Hid. lia.
    - lia.
    - intros r Hr. apply elem_of_app in Hr as [Hr|Hr].
      + specialize (Hbound r Hr). lia.
      + apply list_elem_of_singleton in Hr. subst r. simpl. lia. }
  destruct f; simpl; assumption.
Qed.

Lemma UpdateJobApplication_uniqueIds f now db job :
  store.uniqueIds db → store.uniqueIds (UpdateJobApplication f now db job).1.
Proof.
  intros Hunique. pose proof Hunique as (Hnodup & Hpos & Hbound).
  assert (Hupdated : store.uniqueIds
            {| job_applications :=
                 List.map (fun r => if ID r =? ID job then updated_row now job r else r)
                          (job_applications db);
               sqlite_sequence := sqlite_sequence db |}).
  { split_and!; simpl; [now rewrite ID_updated_rows|assumption|].
    intros r Hr. apply list_elem_of_In, List.in_map_iff in Hr as (r0 & <- & Hr0).
    apply list_elem_of_In in Hr0. specialize (Hbound r0 Hr0).
    destruct (ID r0 =? ID job); simpl; lia. }
  unfold UpdateJobApplication. destruct f; simpl; try assumption.
  destruct (_ =? _)%nat; assumption.
Qed.

Lemma DeleteJobApplication_uniqueIds f db id :
  store.uniqueIds db → store.uniqueIds (DeleteJobApplication f db id).1.
Proof.
  intros Hunique. pose proof Hunique as (Hnodup & Hpos & Hbound).
  assert (Hdeleted : store.uniqueIds
            {| job_applications :=
                 List.filter (fun r => negb (ID r =? id)) (job_applications db);
               sqlite_sequence := sqlite_sequence db |}).
  { split_and!; simpl; [now apply NoDup_ID_filter|assumption|].
    intros r Hr. apply elem_of_filter_bool in Hr as [Hr _]. auto. }
  unfold DeleteJobApplication. destruct f; simpl; try assumption.
  destruct (_ =? _)%nat; assumption.
Qed.

Lemma step_uniqueIds db op : store.uniqueIds db → store.uniqueIds (store.step db op).
Proof.
  destruct op; simpl;
    auto using CreateJobApplication_uniqueIds, UpdateJobApplication_uniqueIds,
      DeleteJobApplication_uniqueIds.
Qed.

Lemma run_uniqueIds db ops : store.uniqueIds db → store.uniqueIds (store.run db ops).
Proof.
  unfold store.run. revert db. induction ops as [|op ops IH]; intros db H; simpl;
    auto using step_uniqueIds.
Qed.

Lemma step_sequence db op : sqlite_sequence db <= sqlite_sequence (store.step db op).
Proof.
  destruct op as [f now job|f now job|f id]; simpl.
  - destruct f; simpl; unfold next_id; lia.
  - unfold UpdateJobApplication. destruct f; simpl; try lia.
    destruct (_ =? _)%nat; simpl; lia.
  - unfold DeleteJobApplication. destruct f; simpl; try lia.
    destruct (_ =? _)%nat; simpl; lia.
Qed.

Lemma run_sequence db ops : sqlite_sequence db <= sqlite_sequence (store.run db ops).
Proof.
  unfold store.run. revert db. induction ops as [|op ops IH]; intros db; simpl; [lia|].
  pose proof (step_sequence db op). specialize (IH (store.step db op)). lia.
Qed.

(** X1: in every store that calls of [CreateJobApplication],
    [UpdateJobApplication] and [DeleteJobApplication] make out of a new
    database, whatever the driver faults they meet, no two records have the
    same identifier, and every identifier is positive and at most the
    AUTOINCREMENT counter. *)
Theorem identifiers_stay_unique (ops : list store.operation) :
  store.uniqueIds (store.run New ops).
Proof.
  apply run_uniqueIds. split_and!; simpl; [apply NoDup_nil_2|lia|].
  intros r Hr. inversion Hr.
Qed.

(** X2: an identifier is never given twice: a record created after any
    sequence of calls, deletions included, gets an identifier larger than
    that of every record the store held before them. *)
Theorem identifiers_never_reused (db : DB) (ops : list store.operation)
    (now : time.Time) (job r : JobApplication) :
  store.uniqueIds db → r ∈ job_applications db →
  ID r < ID (CreateJobApplication NoFault now (store.run db ops) job).1.2
  ∧ GetJobApplication NoFault
      (CreateJobApplication NoFault now (store.run db ops) job).1.1
      (ID (CreateJobApplication NoFault now (store.run db ops) job).1.2)
    = inl (inserted_row (next_id (store.run db ops)) now job).
Proof.
  intros Hunique Hr. simpl.
  pose proof (run_sequence db ops) as Hseq.
  pose proof (run_uniqueIds db ops Hunique) as Hrun.
  destruct Hunique as (_ & _ & Hbound). specialize (Hbound r Hr).
  split.
  - rewrite (uniqueIds_next_id _ Hrun). lia.
  - rewrite find_snoc_fresh; [reflexivity| |reflexivity].
    intros r' Hr' Heq. apply next_id_fresh in Hr'. lia.
Qed.

(** The theorem on the store of [TestDatabase]: its record 1 is deleted, and
    the next record is record 2. *)
Lemma identifiers_never_reused_witness :
  1 < ID (CreateJobApplication NoFault 2000
            (store.run example_db [store.Delete NoFault 1]) example_job).1.2
  ∧ job_applications (store.run example_db [store.Delete NoFault 1]) = [].
Proof.
  assert (Hunique : store.uniqueIds example_db).
  { apply (run_uniqueIds New [store.Create NoFault 1000 example_job]).
    split_and!; simpl; [apply NoDup_nil_2|lia|]. intros r Hr. inversion Hr. }
  split; [|reflexivity].
  exact (proj1 (identifiers_never_reused example_db [store.Delete NoFault 1] 2000
                  example_job (inserted_row 1 1000 example_job) Hunique
                  ltac:(left))).
Defined.

(** ** The store: reads after writes *)

Lemma find_updated (id : Z) now job (rows : list JobApplication) :
  List.find (fun r => ID r =? id)
    (List.map (fun r => if ID r =? ID job then updated_row now job r else r) rows)
  = (fun r => if ID r =? ID job then updated_row now job r else r)
      <$> List.find (fun r => ID r =? id) rows.
Proof.
  induction rows as [|r rows IH]; [reflexivity|]. simpl.
  assert (Hid : ID (if ID r =? ID job then updated_row now job r else r) = ID r)
    by now destruct (ID r =? ID job).
  rewrite Hid. destruct (ID r =? id); [reflexivity|assumption].
Qed.

Lemma find_deleted (id id' : Z) (rows : list JobApplication) :
  List.find (fun r => ID r =? id')
    (List.filter (fun r => negb (ID r =? id)) rows)
  = if id' =? id then None else List.find (fun r => ID r =? id') rows.
Proof.
  induction rows as [|r rows IH]; simpl; [now destruct (id' =? id)|].
  destruct (Z.eqb_spec (ID r) id) as [Hr|Hr]; simpl.
  - rewrite IH. destruct (Z.eqb_spec id' id) as [|Hne]; [reflexivity|].
    destruct (Z.eqb_spec (ID r) id'); [congruence|reflexivity].
  - destruct (Z.eqb_spec (ID r) id') as [Hr'|Hr'].
    + destruct (Z.eqb_spec id' id); [congruence|reflexivity].
    + assumption.
Qed.

Lemma find_created (id : Z) (rows : list JobApplication) (row : JobApplication) :
  ID row ≠ id →
  List.find (fun r => ID r =? id) (rows ++ [row])
  = List.find (fun r => ID r =? id) rows.
Proof.
  intros Hne. induction rows as [|r rows IH]; simpl.
  - now destruct (Z.eqb_spec (ID row) id).
  - now destruct (ID r =? id).
Qed.

Lemma find_Some_filter (id : Z) (rows : list JobApplication) r :
  List.find (fun r => ID r =? id) rows = Some r →
  Nat.eqb (length (List.filter (fun r => ID r =? id) rows)) 0 = false
  ∧ r ∈ rows ∧ ID r = id.
Proof.
  intros Hfind. pose proof (List.find_some _ _ Hfind) as [Hin Hid].
  apply list_elem_of_In in Hin. apply Z.eqb_eq in Hid. split_and!; try assumption.
  induction rows as [|r' rows IH]; [inversion Hin|]. simpl in *.
  destruct (ID r' =? id); [reflexivity|]. apply IH; [assumption|].
  apply elem_of_cons in Hin as [->|Hin]; [|assumption].
  apply List.find_some in Hfind as [Hfind _]. now apply list_elem_of_In.
Qed.

Lemma find_None_absent (id : Z) (rows : list JobApplication) :
  List.find (fun r => ID r =? id) rows = None ↔ ∀ r, r ∈ rows → ID r ≠ id.
Proof.
  split.
  - intros Hfind r Hr Hid. apply list_elem_of_In in Hr.
    apply (List.find_none _ _ Hfind) in Hr. apply Z.eqb_neq in Hr. contradiction.
  - intros Habsent. induction rows as [|r rows IH]; [reflexivity|]. simpl.
    destruct (Z.eqb_spec (ID r) id) as [Hid|_].
    + now apply Habsent in Hid; [|left].
    + apply IH. intros r' Hr'. apply Habsent. now right.
Qed.

Lemma GetJobApplication_inl db id r :
  GetJobApplication NoFault db id = inl r ↔
  List.find (fun r => ID r =? id) (job_applications db) = Some r.
Proof.
  unfold GetJobApplication. destruct (List.find _ _); split; congruence.
Qed.

(** X3: updating a record that the store holds succeeds, and a fetch after
    it returns the record with the six fields of the update, the creation
    timestamp it had and the time of the update as its update timestamp.
    The fetch of every other identifier gives what it gave before, and the
    number of records and the AUTOINCREMENT counter do not change. *)
Theorem update_then_get (db : DB) (now : time.Time) (job old : JobApplication) :
  GetJobApplication NoFault db (ID job) = inl old →
  ∃ db',
    UpdateJobApplication NoFault now db job = (db', None)
    ∧ GetJobApplication NoFault db' (ID job) = inl (updated_row now job old)
    ∧ (∀ id, id ≠ ID job →
         GetJobApplication NoFault db' id = GetJobApplication NoFault db id)
    ∧ length (job_applications db') = length (job_applications db)
    ∧ sqlite_sequence db' = sqlite_sequence db.
Proof.
  intros Hold. apply GetJobApplication_inl in Hold.
  destruct (find_Some_filter _ _ _ Hold) as (Hcount & _ & Hid).
  eexists. unfold UpdateJobApplication. rewrite Hcount.
  split; [reflexivity|]. unfold GetJobApplication. simpl. split_and!.
  - rewrite find_updated, Hold. simpl. rewrite Hid, Z.eqb_refl. reflexivity.
  - intros id Hne. rewrite find_updated.
    destruct (List.find (fun r => ID r =? id) (job_applications db)) as [r|] eqn:Hfind;
      [|reflexivity].
    simpl. apply List.find_some in Hfind as [_ Hr]. apply Z.eqb_eq in Hr.
    destruct (Z.eqb_spec (ID r) (ID job)); [congruence|reflexivity].
  - apply List.length_map.
  - reflexivity.
Qed.

(** The theorem on the store of [TestDatabase], with the update of the
    test: the status becomes "Interview" and the notes change. *)
Lemma update_then_get_witness :
  ∃ db' stored,
    UpdateJobApplication NoFault 3000 example_db
      {| ID := 1; DateApplied := time.Date 2024 1 15;
         JobTitle := "Test Engineer"; Company := "Test Corp";
         Status := StatusInterview; JobURL := "https://test.com/job/123";
         Notes := "Updated notes";
         CreatedAt := time.zeroTime; UpdatedAt := time.zeroTime |}
    = (db', None)
    ∧ GetJobApplication NoFault db' 1 = inl stored
    ∧ Status stored = "Interview" ∧ Notes stored = "Updated notes"
    ∧ CreatedAt stored = 1000 ∧ UpdatedAt stored = 3000.
Proof.
  destruct (update_then_get example_db 3000
              {| ID := 1; DateApplied := time.Date 2024 1 15;
                 JobTitle := "Test Engineer"; Company := "Test Corp";
                 Status := StatusInterview; JobURL := "https://test.com/job/123";
                 Notes := "Updated notes";
                 CreatedAt := time.zeroTime; UpdatedAt := time.zeroTime |}
              (inserted_row 1 1000 example_job) eq_refl)
    as (db' & Hupdate & Hget & _).
  exists db'. eexists. split; [exact Hupdate|]. split; [exact Hget|].
  repeat split.
Defined.

(** X4: updating an identifier that no record has leaves the store as it
    is, whatever the driver does, and returns the error "job application
    not found" when the driver does not fail.  No error of
    [UpdateJobApplication] is [ErrJobNotFound] for [errors.Is]: unlike the
    delete operation, the update does not tell a missing record from
    another failure. *)
Theorem update_missing (f : fault) (db : DB) (now : time.Time)
    (job : JobApplication) :
  ((∀ r, r ∈ job_applications db → ID r ≠ ID job) →
     (UpdateJobApplication f now db job).1 = db
     ∧ (f = NoFault →
        (UpdateJobApplication f now db job).2
        = Some (Errorf "job application not found")))
  ∧ (∀ e, (UpdateJobApplication f now db job).2 = Some e →
       errors_Is_ErrJobNotFound e = false).
Proof.
  split.
  - intros Habsent.
    assert (Hnone : List.filter (fun r => ID r =? ID job) (job_applications db) = []).
    { induction (job_applications db) as [|r rows IH]; [reflexivity|]. simpl.
      destruct (Z.eqb_spec (ID r) (ID job)) as [Hid|_].
      - now apply Habsent in Hid; [|left].
      - apply IH. intros r' Hr'. apply Habsent. now right. }
    assert (Hsame : List.map (fun r => if ID r =? ID job then updated_row now job r else r)
                      (job_applications db) = job_applications db).
    { clear Hnone. induction (job_applications db) as [|r rows IH]; [reflexivity|].
      simpl. destruct (Z.eqb_spec (ID r) (ID job)) as [Hid|_].
      - now apply Habsent in Hid; [|left].
      - f_equal. apply IH. intros r' Hr'. apply Habsent. now right. }
    unfold UpdateJobApplication. rewrite Hnone, Hsame. simpl.
    destruct db as [rows seq]. destruct f; simpl; split; congruence.
  - intros e. unfold UpdateJobApplication. destruct f; simpl.
    + destruct (_ =? _)%nat; simpl; [|discriminate]. now intros [= <-].
    + now intros [= <-].
    + now intros [= <-].
Qed.

(** The theorem on the store of [TestDatabase] and the identifier 999 of
    [TestDatabaseEdgeCases]. *)
Lemma update_missing_witness :
  (UpdateJobApplication NoFault 3000 example_db (set_ID 999 example_job)).1
  = example_db
  ∧ (UpdateJobApplication NoFault 3000 example_db (set_ID 999 example_job)).2
    = Some (Errorf "job application not found")
  ∧ errors_Is_ErrJobNotFound (Errorf "job application not found") = false.
Proof.
  pose proof (update_missing NoFault example_db 3000 (set_ID 999 example_job))
    as [Hstore Hnever].
  assert (Habsent : ∀ r, r ∈ job_applications example_db
                         → ID r ≠ ID (set_ID 999 example_job)).
  { intros r Hr. vm_compute in Hr. apply list_elem_of_singleton in Hr as ->.
    discriminate. }
  destruct (Hstore Habsent) as [Hsame Herr].
  split; [exact Hsame|]. split; [exact (Herr eq_refl)|].
  exact (Hnever _ (Herr eq_refl)).
Defined.

Lemma length_filter_one (id : Z) (rows : list JobApplication) r :
  NoDup (ID <$> rows) → r ∈ rows → ID r = id →
  length rows = S (length (List.filter (fun r => negb (ID r =? id)) rows)).
Proof.
  intros Hnodup Hr Hid. induction rows as [|r' rows IH]; [inversion Hr|].
  csimpl in Hnodup. apply NoDup_cons in Hnodup as [Hnotin Hnodup]. simpl.
  apply elem_of_cons in Hr as [<-|Hr].
  - rewrite Hid, Z.eqb_refl. simpl. f_equal. symmetry. rewrite filter_all_id; [reflexivity|].
    intros x Hx. destruct (Z.eqb_spec (ID x) id) as [Hx'|]; [|reflexivity].
    exfalso. apply Hnotin. apply list_elem_of_fmap. exists x. split; [congruence|assumption].
  - destruct (Z.eqb_spec (ID r') id) as [Hr'|_]; simpl.
    + exfalso. apply Hnotin. apply list_elem_of_fmap. exists r.
      split; [congruence|assumption].
    + f_equal. auto.
Qed.

(** X5: deleting a record that the store holds succeeds; after it the fetch
    of its identifier fails with "job application not found", a second
    delete of it returns [ErrJobNotFound], the fetch of every other
    identifier gives what it gave before, and (identifiers being unique)
    the store has exactly one record less. *)
Theorem delete_then_get (db : DB) (id : Z) (r : JobApplication) :
  store.uniqueIds db → GetJobApplication NoFault db id = inl r →
  ∃ db',
    DeleteJobApplication NoFault db id = (db', None)
    ∧ GetJobApplication NoFault db' id = inr (Errorf "job application not found")
    ∧ DeleteJobApplication NoFault db' id = (db', Some ErrJobNotFound)
    ∧ (∀ id', id' ≠ id →
         GetJobApplication NoFault db' id' = GetJobApplication NoFault db id')
    ∧ length (job_applications db) = S (length (job_applications db')).
Proof.
  intros (Hnodup & _ & _) Hget. apply GetJobApplication_inl in Hget.
  destruct (find_Some_filter _ _ _ Hget) as (_ & Hin & Hid).
  pose proof (length_filter_one id (job_applications db) r Hnodup Hin Hid) as Hlen.
  eexists. unfold DeleteJobApplication at 1.
  replace (Nat.sub (length (job_applications db))
             (length (List.filter (fun r => negb (ID r =? id)) (job_applications db))))
    with 1%nat by lia.
  split; [reflexivity|]. simpl. split_and!.
  - unfold GetJobApplication. simpl. now rewrite find_deleted, Z.eqb_refl.
  - unfold DeleteJobApplication. simpl.
    rewrite (filter_all_id _ (List.filter _ _)), Nat.sub_diag; [reflexivity|].
    intros x Hx. now apply elem_of_filter_bool in Hx as [_ Hx].
  - intros id' Hne. unfold GetJobApplication. simpl. rewrite find_deleted.
    now destruct (Z.eqb_spec id' id).
  - exact Hlen.
Qed.

(** The theorem on the store of [TestDatabase]: after the delete of record 1
    the store is empty. *)
Lemma delete_then_get_witness :
  ∃ db',
    DeleteJobApplication NoFault example_db 1 = (db', None)
    ∧ GetJobApplication NoFault db' 1 = inr (Errorf "job application not found")
    ∧ length (job_applications example_db) = S (length (job_applications db')).
Proof.
  assert (Hunique : store.uniqueIds example_db).
  { apply (run_uniqueIds New [store.Create NoFault 1000 example_job]).
    split_and!; simpl; [apply NoDup_nil_2|lia|]. intros r Hr. inversion Hr. }
  destruct (delete_then_get example_db 1 (inserted_row 1 1000 example_job)
              Hunique eq_refl) as (db' & Hdelete & Hget & _ & _ & Hlen).
  exists db'. split; [exact Hdelete|]. split; [exact Hget|exact Hlen].
Defined.

(** X6: a creation that succeeds adds one record and leaves every other
    identifier as it was: the fetch of any identifier but the new one gives
    what it gave before, the number of records goes up by one, and so does
    the count of the status of the new record, the counts of the other
    statuses staying the same.  A creation on which [Exec] fails changes
    nothing. *)
Theorem create_leaves_others (db : DB) (now : time.Time) (job : JobApplication) :
  (∀ id, id ≠ next_id db →
     GetJobApplication NoFault (CreateJobApplication NoFault now db job).1.1 id
     = GetJobApplication NoFault db id)
  ∧ length (job_applications (CreateJobApplication NoFault now db job).1.1)
    = S (length (job_applications db))
  ∧ (∀ status,
       count_status status
         (job_applications (CreateJobApplication NoFault now db job).1.1)
       = (count_status status (job_applications db)
          + if String.eqb (Status job) status then 1 else 0)%nat)
  ∧ (∀ msg, (CreateJobApplication (ExecFault msg) now db job).1.1 = db).
Proof.
  simpl. split_and!.
  - intros id Hne. unfold GetJobApplication. simpl.
    rewrite find_created; [reflexivity|]. simpl. congruence.
  - rewrite length_app. simpl. lia.
  - intros status. unfold count_status. rewrite List.filter_app, length_app. simpl.
    now destruct (String.eqb (Status job) status).
  - reflexivity.
Qed.

(** ** The store: listings and counts *)

Lemma filter_Permutation {A} (p : A → bool) (l1 l2 : list A) :
  l1 ≡ₚ l2 → List.filter p l1 ≡ₚ List.filter p l2.
Proof.
  induction 1 as [|x l1 l2 _ IH|x y l|l1 l2 l3 _ IH1 _ IH2]; simpl.
  - reflexivity.
  - destruct (p x); [now constructor|assumption].
  - destruct (p x), (p y); try reflexivity. apply perm_swap.
  - etransitivity; eassumption.
Qed.


Lemma GetStatusCounts_index (db : DB) :
  ∃ counts : gmap string nat,
    GetStatusCounts NoFault db = inl counts
    ∧ ∀ status, map_index counts status = count_status status (job_applications db).
Proof.
  eexists. split; [apply GetStatusCounts_list_to_map|].
  intros status. unfold map_index.
  set (rows := job_applications db).
  set (keys := remove_dups (Status <$> rows)).
  set (l := (fun s => (s, count_status s rows)) <$> keys).
  assert (Hfst : l.*1 = keys).
  { unfold l. rewrite <- list_fmap_compose.
    erewrite list_fmap_ext; [apply list_fmap_id|]. intros i x _. reflexivity. }
  destruct (decide (status ∈ keys)) as [Hin|Hnotin].
  - rewrite (proj1 (elem_of_list_to_map l status (count_status status rows)
                      ltac:(rewrite Hfst; apply NoDup_remove_dups))); [reflexivity|].
    unfold l. apply list_elem_of_fmap. exists status. auto.
  - rewrite not_elem_of_list_to_map_1 by now rewrite Hfst.
    simpl. symmetry. apply count_status_absent.
    unfold keys in Hnotin. now rewrite elem_of_remove_dups in Hnotin.
Qed.

(** X8: the count the status counts give for a status is the number of
    records the listing of that status returns. *)
Theorem counts_match_listing (db : DB) (status : string) :
  ∃ (counts : gmap string nat) jobs,
    GetStatusCounts NoFault db = inl counts
    ∧ GetJobApplicationsByStatus NoFault db status = inl jobs
    ∧ map_index counts status = length jobs.
Proof.
  destruct (GetStatusCounts_index db) as (counts & Hcounts & Hindex).
  exists counts. eexists. split; [exact Hcounts|]. split; [reflexivity|].
  rewrite Hindex. unfold order_by_newest_first, count_status.
  now rewrite merge_sort_Permutation.
Qed.

(** ** Identifiers in URLs *)

Lemma digits_string_of_uint (d : Decimal.uint) (acc : nat) :
  strconv.digits (Z.of_nat acc) (NilEmpty.string_of_uint d)
  = Some (Z.of_nat (Nat.of_uint_acc d acc)).
Proof.
  revert acc. induction d as [|d IH|d IH|d IH|d IH|d IH|d IH|d IH|d IH|d IH|d IH];
    intros acc; [reflexivity|..];
    cbn [NilEmpty.string_of_uint strconv.digits Nat.of_uint_acc];
    (replace (time.isDigitByte _) with true by reflexivity);
    rewrite <- IH; f_equal; rewrite Nat.tail_mul_spec; unfold time.digitVal; simpl; lia.
Qed.

Lemma fmt_d_digit (n : nat) :
  ∃ c s, fmt_d n = String c s
         ∧ Ascii.eqb c "-" = false ∧ Ascii.eqb c "+" = false.
Proof.
  unfold fmt_d.
  assert (Hnonnil : Nat.to_uint n ≠ Decimal.Nil).
  { intros Hnil. pose proof (DecimalNat.Unsigned.to_of (Nat.to_uint n)) as H.
    rewrite DecimalNat.Unsigned.of_to in H. rewrite Hnil in H at 2.
    simpl in H. rewrite Hnil in H. discriminate. }
  destruct (Nat.to_uint n); [congruence|..]; eexists _, _; repeat split.
Qed.

Lemma digits_fmt_d (n : nat) : strconv.digits 0 (fmt_d n) = Some (Z.of_nat n).
Proof.
  unfold fmt_d. change 0 with (Z.of_nat 0).
  rewrite (digits_string_of_uint (Nat.to_uint n) 0).
  change (Nat.of_uint_acc (Nat.to_uint n) 0) with (Nat.of_uint (Nat.to_uint n)).
  now rewrite DecimalNat.Unsigned.of_to.
Qed.

(** [strconv.Atoi] reads back every identifier that [strconv.Itoa] writes. *)
Lemma Atoi_Itoa (i : Z) :
  - 2 ^ 63 <= i <= 2 ^ 63 - 1 → strconv.Atoi (strconv.Itoa i) = Some i.
Proof.
  intros Hrange. unfold strconv.Itoa.
  destruct (Z.ltb_spec i 0) as [Hneg|Hpos].
  - pose proof (digits_fmt_d (Z.to_nat (- i))) as Hdigits.
    destruct (fmt_d_digit (Z.to_nat (- i))) as (c & s & Hfmt & _).
    rewrite Hfmt in *. unfold strconv.Atoi.
    change (Ascii.eqb "-" "-") with true. cbv iota beta.
    rewrite Hdigits. simpl. rewrite Z2Nat.id by lia. rewrite Z.opp_involutive.
    destruct (Z.leb_spec (- 2 ^ 63) i); [|lia].
    destruct (Z.leb_spec i (2 ^ 63 - 1)); [reflexivity|lia].
  - pose proof (digits_fmt_d (Z.to_nat i)) as Hdigits.
    destruct (fmt_d_digit (Z.to_nat i)) as (c & s & Hfmt & Hminus & Hplus).
    rewrite Hfmt in *. unfold strconv.Atoi. rewrite Hminus, Hplus. cbv iota beta.
    rewrite Hdigits. simpl. rewrite Z2Nat.id by lia.
    destruct (Z.leb_spec (- 2 ^ 63) i); [|lia].
    destruct (Z.leb_spec i (2 ^ 63 - 1)); [reflexivity|lia].
Qed.

(** ** The handlers of single records *)

Lemma delete_not_found_aux db id :
  (∀ r, r ∈ job_applications db → ID r ≠ id) →
  DeleteJobApplication NoFault db id = (db, Some ErrJobNotFound).
Proof.
  intros Habsent. unfold DeleteJobApplication.
  rewrite (filter_all_id (fun r => negb (ID r =? id)) (job_applications db)).
  - rewrite Nat.sub_diag. simpl. now destruct db.
  - intros r Hr. apply Habsent in Hr. now destruct (Z.eqb_spec (ID r) id).
Qed.

Lemma DeleteJobApplication_NoFault db id :
  DeleteJobApplication NoFault db id
  = match List.find (fun r => ID r =? id) (job_applications db) with
    | None => (db, Some ErrJobNotFound)
    | Some _ =>
        ({| job_applications :=
              List.filter (fun r => negb (ID r =? id)) (job_applications db);
            sqlite_sequence := sqlite_sequence db |}, None)
    end.
Proof.
  destruct (List.find (fun r => ID r =? id) (job_applications db)) as [r|] eqn:Hfind.
  - destruct (find_Some_filter _ _ _ Hfind) as (_ & Hin & Hid).
    unfold DeleteJobApplication.
    assert (Hlt : (length (List.filter (fun r => negb (ID r =? id)%Z) (job_applications db))
                   < length (job_applications db))%nat).
    { clear Hfind. induction (job_applications db) as [|r' rows IH]; [inversion Hin|].
      simpl. pose proof (List.filter_length_le (fun r => negb (ID r =? id)) rows).
      destruct (Z.eqb_spec (ID r') id) as [|Hne]; simpl; [lia|].
      apply elem_of_cons in Hin as [->|Hin]; [congruence|]. specialize (IH Hin). lia. }
    destruct (Nat.eqb_spec
                (length (job_applications db)
                 - length (List.filter (fun r => negb (ID r =? id)%Z) (job_applications db)))
                0); [lia|reflexivity].
  - apply delete_not_found_aux. now apply find_None_absent.
Qed.

Lemma update_missing_aux db now job :
  (∀ r, r ∈ job_applications db → ID r ≠ ID job) →
  UpdateJobApplication NoFault now db job
  = (db, Some (Errorf "job application not found")).
Proof.
  intros Habsent.
  assert (Hnone : List.filter (fun r => ID r =? ID job) (job_applications db) = []).
  { induction (job_applications db) as [|r rows IH]; [reflexivity|]. simpl.
    destruct (Z.eqb_spec (ID r) (ID job)) as [Hid|_].
    - now apply Habsent in Hid; [|left].
    - apply IH. intros r' Hr'. apply Habsent. now right. }
  assert (Hsame : List.map (fun r => if ID r =? ID job then updated_row now job r else r)
                    (job_applications db) = job_applications db).
  { clear Hnone. induction (job_applications db) as [|r rows IH]; [reflexivity|].
    simpl. destruct (Z.eqb_spec (ID r) (ID job)) as [Hid|_].
    - now apply Habsent in Hid; [|left].
    - f_equal. apply IH. intros r' Hr'. apply Habsent. now right. }
  unfold UpdateJobApplication. rewrite Hnone, Hsame. simpl. now destruct db.
Qed.

Lemma UpdateJobApplication_NoFault db now job :
  UpdateJobApplication NoFault now db job
  = match List.find (fun r => ID r =? ID job) (job_applications db) with
    | None => (db, Some (Errorf "job application not found"))
    | Some _ =>
        ({| job_applications :=
              List.map (fun r => if ID r =? ID job then updated_row now job r else r)
                       (job_applications db);
            sqlite_sequence := sqlite_sequence db |}, None)
    end.
Proof.
  destruct (List.find (fun r => ID r =? ID job) (job_applications db)) as [r|] eqn:Hfind.
  - destruct (find_Some_filter _ _ _ Hfind) as (Hcount & _).
    unfold UpdateJobApplication. now rewrite Hcount.
  - pose proof (proj1 (find_None_absent _ _) Hfind) as Habsent.
    pose proof (update_missing_aux db now job Habsent) as H. exact H.
Qed.

(** X9: [DeleteJobHandler] changes the store only through a POST with a
    numeric identifier.  With a driver that does not fail, it redirects to
    "/?success=deleted" when the store held the record, which it no longer
    does afterwards, and to "/?error=notfound&id=" followed by the
    identifier, leaving the store as it is, when it did not.  When the
    driver fails it redirects to "/?error=delete". *)
Theorem delete_handler (f : fault) (db : DB) (vars : gmap string string)
    (r : Request) :
  (∀ msg code,
     (DeleteJobHandler f db vars r).2 = http_Error msg code →
     (DeleteJobHandler f db vars r).1 = db
     ∧ (Method r ≠ "POST"
        ∨ strconv.Atoi (default EmptyString (vars !! "id")) = None))
  ∧ (∀ id,
       Method r = "POST" →
       strconv.Atoi (default EmptyString (vars !! "id")) = Some id →
       (f = NoFault → (∃ row, row ∈ job_applications db ∧ ID row = id) →
          (DeleteJobHandler f db vars r).2 = http_Redirect "/?success=deleted" 303%nat
          ∧ (∀ row, row ∈ job_applications (DeleteJobHandler f db vars r).1
                    ↔ row ∈ job_applications db ∧ ID row ≠ id))
       ∧ (f = NoFault → (∀ row, row ∈ job_applications db → ID row ≠ id) →
            DeleteJobHandler f db vars r
            = (db, http_Redirect ("/?error=notfound&id=" +:+ strconv.Itoa id) 303%nat))
       ∧ (f ≠ NoFault →
            (DeleteJobHandler f db vars r).2 = http_Redirect "/?error=delete" 303%nat)).
Proof.
  unfold DeleteJobHandler. split.
  - intros msg code. destruct (String.eqb_spec (Method r) "POST") as [Hpost|Hpost]; simpl.
    + destruct (strconv.Atoi _) as [id|]; [|auto].
      destruct (DeleteJobApplication f db id) as [db' [err|]]; [|discriminate].
      destruct (errors_Is_ErrJobNotFound err); discriminate.
    + auto.
  - intros id Hpost Hid. rewrite Hpost, Hid. simpl. split_and!.
    + intros -> (row & Hrow & Hrowid). rewrite DeleteJobApplication_NoFault.
      destruct (List.find _ _) as [found|] eqn:Hfind.
      * split; [reflexivity|]. intros row'. simpl.
        rewrite elem_of_filter_bool. now destruct (Z.eqb_spec (ID row') id).
      * exfalso. apply (proj1 (find_None_absent _ _) Hfind row Hrow Hrowid).
    + intros -> Habsent. now rewrite (delete_not_found_aux db id Habsent).
    + intros Hfault. unfold DeleteJobApplication. destruct f; [congruence|reflexivity..].
Qed.

(** The theorem on the store of [TestDatabase]: the delete of record 1, and
    then the delete of record 1 again. *)
Lemma delete_handler_witness :
  (DeleteJobHandler NoFault example_db {[ "id" := "1" ]} (example_post ∅)).2
  = http_Redirect "/?success=deleted" 303%nat
  ∧ DeleteJobHandler NoFault
      {| job_applications := []; sqlite_sequence := 1 |} {[ "id" := "1" ]}
      (example_post ∅)
    = ({| job_applications := []; sqlite_sequence := 1 |},
       http_Redirect ("/?error=notfound&id=" +:+ strconv.Itoa 1) 303%nat).
Proof.
  assert (Hid : strconv.Atoi (default EmptyString
                  (({[ "id" := "1" ]} : gmap string string) !! "id")) = Some 1)
    by (vm_compute; reflexivity).
  split.
  - destruct (proj2 (delete_handler NoFault example_db {[ "id" := "1" ]}
                       (example_post ∅)) 1 eq_refl Hid) as (Hpresent & _ & _).
    refine (proj1 (Hpresent eq_refl _)).
    exists (inserted_row 1 1000 example_job). split; [left|reflexivity].
  - destruct (proj2 (delete_handler NoFault
                       {| job_applications := []; sqlite_sequence := 1 |}
                       {[ "id" := "1" ]} (example_post ∅)) 1 eq_refl Hid)
      as (_ & Habsent & _).
    apply (Habsent eq_refl). intros row Hrow. apply elem_of_nil in Hrow. contradiction.
Defined.

Lemma update_get_aux db now job old :
  GetJobApplication NoFault db (ID job) = inl old →
  GetJobApplication NoFault (UpdateJobApplication NoFault now db job).1 (ID job)
  = inl (updated_row now job old)
  ∧ (UpdateJobApplication NoFault now db job).2 = None.
Proof.
  intros Hold. apply GetJobApplication_inl in Hold.
  rewrite UpdateJobApplication_NoFault, Hold. split; [|reflexivity].
  unfold GetJobApplication. cbn [fst job_applications].
  rewrite find_updated, Hold. simpl.
  apply find_Some_filter in Hold as (_ & _ & Hid). now rewrite Hid, Z.eqb_refl.
Qed.

(** X10: a POST of the edit form for a record that the store holds, with a
    date the form layout parses, replaces the record and redirects to "/";
    the edit page of that identifier then shows the submitted values with
    the creation timestamp the record had and the time of the update. *)
Theorem update_then_edit (db : DB) (now : time.Time) (vars : gmap string string)
    (r : Request) (id : Z) (dateApplied : time.Time) (old : JobApplication) :
  Method r = "POST" →
  strconv.Atoi (default EmptyString (vars !! "id")) = Some id →
  ParseForm_ok r = true →
  time.Parse "2006-01-02" (FormValue r "date_applied") = Some dateApplied →
  GetJobApplication NoFault db id = inl old →
  (UpdateJobHandler NoFault now db vars r).2 = http_Redirect "/" 303%nat
  ∧ EditJobHandler NoFault (UpdateJobHandler NoFault now db vars r).1 vars
    = ExecuteTemplate_edit_job
        {| ID := id;
           DateApplied := dateApplied;
           JobTitle := FormValue r "job_title";
           Company := FormValue r "company";
           Status := FormValue r "status";
           JobURL := FormValue r "job_url";
           Notes := FormValue r "notes";
           CreatedAt := CreatedAt old;
           UpdatedAt := now |}
        GetCommonStatuses.
Proof.
  intros Hpost Hid Hform Hdate Hold.
  unfold UpdateJobHandler, EditJobHandler. rewrite Hpost, Hid, Hform, Hdate.
  rewrite !String.eqb_refl. cbn [negb]. cbv iota beta zeta.
  set (job := {| ID := id; DateApplied := dateApplied;
                 JobTitle := FormValue r "job_title";
                 Company := FormValue r "company"; Status := FormValue r "status";
                 JobURL := FormValue r "job_url"; Notes := FormValue r "notes";
                 CreatedAt := time.zeroTime; UpdatedAt := time.zeroTime |}).
  destruct (update_get_aux db now job old Hold) as [Hget Hnone].
  destruct (UpdateJobApplication NoFault now db job) as [db' err].
  cbn [fst snd] in *. subst err. cbv iota beta. cbn [fst snd].
  split; [reflexivity|].
  change (ID job) with id in Hget. rewrite Hget.
  apply GetJobApplication_inl, find_Some_filter in Hold as (_ & _ & Hoid).
  unfold updated_row. simpl. now rewrite Hoid.
Qed.

(** The theorem on the store of [TestDatabase] and the form of its update. *)
Lemma update_then_edit_witness :
  (UpdateJobHandler NoFault 2000 example_db {[ "id" := "1" ]}
     (example_post example_update_form)).2 = http_Redirect "/" 303%nat
  ∧ ∃ job,
      EditJobHandler NoFault
        (UpdateJobHandler NoFault 2000 example_db {[ "id" := "1" ]}
           (example_post example_update_form)).1 {[ "id" := "1" ]}
      = ExecuteTemplate_edit_job job GetCommonStatuses
      ∧ Status job = "Interview" ∧ CreatedAt job = 1000 ∧ UpdatedAt job = 2000.
Proof.
  assert (Hid : strconv.Atoi (default EmptyString
                  (({[ "id" := "1" ]} : gmap string string) !! "id")) = Some 1)
    by (vm_compute; reflexivity).
  assert (Hdate : ∃ d, time.Parse "2006-01-02"
                    (FormValue (example_post example_update_form) "date_applied")
                  = Some d)
    by (eexists; vm_compute; reflexivity).
  destruct Hdate as [d Hdate].
  destruct (update_then_edit example_db 2000 {[ "id" := "1" ]}
              (example_post example_update_form) 1 d
              (inserted_row 1 1000 example_job)
              eq_refl Hid eq_refl Hdate eq_refl) as [Hredirect Hedit].
  split; [exact Hredirect|].
  eexists. split; [exact Hedit|]. split_and!; [vm_compute; reflexivity|reflexivity..].
Defined.

Lemma update_missing_NoFault db now job :
  (UpdateJobApplication NoFault now db job).2 ≠ None →
  (UpdateJobApplication NoFault now db job).1 = db.
Proof.
  rewrite UpdateJobApplication_NoFault. now destruct (List.find _ _).
Qed.

(** X11: whenever [UpdateJobHandler] answers with an error while the driver
    works, the store is as it was before the request; an update of an
    identifier that no record has is answered with status 500. *)
Theorem update_handler_rejects (db : DB) (now : time.Time)
    (vars : gmap string string) (r : Request) :
  (∀ msg code, (UpdateJobHandler NoFault now db vars r).2 = http_Error msg code →
     (UpdateJobHandler NoFault now db vars r).1 = db)
  ∧ (∀ id dateApplied,
       Method r = "POST" →
       strconv.Atoi (default EmptyString (vars !! "id")) = Some id →
       ParseForm_ok r = true →
       time.Parse "2006-01-02" (FormValue r "date_applied") = Some dateApplied →
       (∀ row, row ∈ job_applications db → ID row ≠ id) →
       UpdateJobHandler NoFault now db vars r
       = (db, http_Error "Failed to update job application" 500%nat)).
Proof.
  split.
  - intros msg code. unfold UpdateJobHandler.
    destruct (negb (Method r =? "POST")%string); [reflexivity|].
    destruct (strconv.Atoi _) as [id|]; [|reflexivity].
    destruct (negb (ParseForm_ok r)); [reflexivity|].
    destruct (time.Parse _ _) as [dateApplied|]; [|reflexivity].
    match goal with |- context [UpdateJobApplication NoFault now db ?j] =>
      pose proof (update_missing_NoFault db now j) as Hsame;
      destruct (UpdateJobApplication NoFault now db j) as [db' [err|]]
    end.
    + intros _. apply Hsame. discriminate.
    + discriminate.
  - intros id dateApplied Hpost Hid Hform Hdate Habsent.
    unfold UpdateJobHandler. rewrite Hpost, Hid, Hform, Hdate.
    rewrite String.eqb_refl. cbn [negb]. cbv iota beta zeta.
    rewrite UpdateJobApplication_NoFault. cbn [ID].
    now rewrite (proj2 (find_None_absent _ _) Habsent).
Qed.

(** The theorem on an empty store and the form of the update of
    [TestDatabase], sent for identifier 999. *)
Lemma update_handler_rejects_witness :
  UpdateJobHandler NoFault 2000 New {[ "id" := "999" ]}
    (example_post example_update_form)
  = (New, http_Error "Failed to update job application" 500%nat).
Proof.
  assert (Hid : strconv.Atoi (default EmptyString
                  (({[ "id" := "999" ]} : gmap string string) !! "id")) = Some 999)
    by (vm_compute; reflexivity).
  assert (Hdate : ∃ d, time.Parse "2006-01-02"
                    (FormValue (example_post example_update_form) "date_applied")
                  = Some d)
    by (eexists; vm_compute; reflexivity).
  destruct Hdate as [d Hdate].
  refine (proj2 (update_handler_rejects New 2000 {[ "id" := "999" ]}
                   (example_post example_update_form))
            999 d eq_refl Hid eq_refl Hdate _).
  intros row Hrow. apply elem_of_nil in Hrow. contradiction.
Defined.

Lemma max_id_nonneg (rows : list JobApplication) : 0 <= max_id rows.
Proof. induction rows as [|r rows IH]; simpl; lia. Qed.

Lemma lookup_id_singleton (s : string) :
  default EmptyString (({[ "id" := s ]} : gmap string string) !! "id") = s.
Proof. now rewrite lookup_singleton_eq. Qed.

(** X12: a POST of the form with a date that the form layout parses stores
    one new record behind the records of the store, with the values of the
    form, the next identifier and the time of the request as both
    timestamps, and redirects to "/"; the edit page of that identifier then
    shows this record. *)
Theorem create_then_edit (db : DB) (now : time.Time) (r : Request)
    (dateApplied : time.Time) :
  Method r = "POST" →
  ParseForm_ok r = true →
  time.Parse "2006-01-02" (FormValue r "date_applied") = Some dateApplied →
  next_id db <= 2 ^ 63 - 1 →
  let row := {| ID := next_id db;
                DateApplied := dateApplied;
                JobTitle := FormValue r "job_title";
                Company := FormValue r "company";
                Status := FormValue r "status";
                JobURL := FormValue r "job_url";
                Notes := FormValue r "notes";
                CreatedAt := now;
                UpdatedAt := now |} in
  (CreateJobHandler NoFault now db r).2 = http_Redirect "/" 303%nat
  ∧ job_applications (CreateJobHandler NoFault now db r).1
    = job_applications db ++ [row]
  ∧ EditJobHandler NoFault (CreateJobHandler NoFault now db r).1
      {[ "id" := strconv.Itoa (next_id db) ]}
    = ExecuteTemplate_edit_job row GetCommonStatuses.
Proof.
  intros Hpost Hform Hdate Hrange row.
  unfold CreateJobHandler. rewrite Hpost, Hform, Hdate.
  rewrite String.eqb_refl. cbn [negb]. cbv iota beta zeta.
  unfold CreateJobApplication. cbv iota beta zeta. cbn [fst snd job_applications].
  split_and!; [reflexivity..|].
  unfold EditJobHandler. rewrite lookup_id_singleton, Atoi_Itoa.
  - unfold GetJobApplication. cbn [job_applications].
    rewrite (find_snoc_fresh _ _ (next_id db)); [reflexivity| |reflexivity].
    intros r' Hr'. apply next_id_fresh in Hr'. lia.
  - pose proof (max_id_nonneg (job_applications db)). unfold next_id in *. lia.
Qed.

(** The theorem on the store of [TestDatabase] and the form of its update,
    sent as a new record. *)
Lemma create_then_edit_witness :
  ∃ row,
    EditJobHandler NoFault
      (CreateJobHandler NoFault 2000 example_db
         (example_post example_update_form)).1 {[ "id" := "2" ]}
    = ExecuteTemplate_edit_job row GetCommonStatuses
    ∧ ID row = 2 ∧ Company row = "Test Corp" ∧ CreatedAt row = 2000.
Proof.
  assert (Hdate : ∃ d, time.Parse "2006-01-02"
                    (FormValue (example_post example_update_form) "date_applied")
                  = Some d)
    by (eexists; vm_compute; reflexivity).
  destruct Hdate as [d Hdate].
  assert (Hrange : next_id example_db <= 2 ^ 63 - 1) by (vm_compute; discriminate).
  destruct (create_then_edit example_db 2000 (example_post example_update_form) d
              eq_refl eq_refl Hdate Hrange) as (_ & _ & Hedit).
  eexists. split; [exact Hedit|].
  split_and!; [reflexivity|vm_compute; reflexivity|reflexivity].
Defined.

(** X13: whenever [CreateJobHandler] answers with an error and the driver
    did not fail after the INSERT, the store is as it was before the
    request; while the driver works, the answer is an error exactly for a
    request that is no POST, whose form does not parse, or whose date the
    form layout does not parse, and its status is then never 500. *)
Theorem create_handler_rejects (f : fault) (db : DB) (now : time.Time)
    (r : Request) :
  (∀ msg code,
     (∀ e, f ≠ ResultFault e) →
     (CreateJobHandler f now db r).2 = http_Error msg code →
     (CreateJobHandler f now db r).1 = db)
  ∧ ((∃ msg code, (CreateJobHandler NoFault now db r).2 = http_Error msg code)
     ↔ Method r ≠ "POST" ∨ ParseForm_ok r = false
       ∨ time.Parse "2006-01-02" (FormValue r "date_applied") = None)
  ∧ (∀ msg, (CreateJobHandler NoFault now db r).2 ≠ http_Error msg 500%nat).
Proof.
  unfold CreateJobHandler.
  destruct (String.eqb_spec (Method r) "POST") as [Hpost|Hpost]; cbn [negb].
  2:{ split_and!; [reflexivity| |discriminate]. split; [now left|]. now eexists _, _. }
  destruct (ParseForm_ok r); cbn [negb].
  2:{ split_and!; [reflexivity| |discriminate]. split; [right; now left|]. now eexists _, _. }
  destruct (time.Parse _ _) as [dateApplied|].
  2:{ split_and!; [reflexivity| |discriminate]. split; [right; now right|]. now eexists _, _. }
  split_and!.
  - intros msg code Hfault. destruct f as [|e|e]; cbn.
    + discriminate.
    + reflexivity.
    + now destruct (Hfault e).
  - cbn. split.
    + intros (msg & code & Herr). discriminate.
    + intros [Hne|[Hne|Hne]]; [contradiction|discriminate..].
  - cbn. discriminate.
Qed.

(** The theorem on the store of [TestDatabase] and a POST of an empty form. *)
Lemma create_handler_rejects_witness :
  (CreateJobHandler NoFault 2000 example_db (example_post ∅)).1 = example_db.
Proof.
  refine (proj1 (create_handler_rejects NoFault example_db 2000 (example_post ∅))
            "Invalid date format" 400%nat _ _).
  - intros e. discriminate.
  - vm_compute. reflexivity.
Defined.

(** ** The pages with the list of records *)

Lemma statusCounts_index (db : DB) (status : string) :
  map_index (statusCounts_or_empty NoFault db) status
  = count_status status (job_applications db).
Proof.
  unfold statusCounts_or_empty.
  destruct (GetStatusCounts_index db) as (counts & -> & Hindex). apply Hindex.
Qed.

Lemma statusCounts_fault (f : fault) (db : DB) :
  f ≠ NoFault → statusCounts_or_empty f db = ∅.
Proof. destruct f; [congruence|reflexivity..]. Qed.

(** X14: while the queries of the records work, [FilterHandler] shows the
    index page.  With a status in the query the page lists exactly the
    stored records of that status and marks the status as the current
    filter, and the count the page shows for that status is the number of
    records it lists; without a status the page is the home page without a
    message.  When the query of the counts fails, the page still lists the
    records, with no counts. *)
Theorem filter_page (f_counts : fault) (db : DB) (query : gmap string string) :
  let status := default EmptyString (query !! "status") in
  ∃ data,
    FilterHandler NoFault f_counts db query = ExecuteTemplate_index data
    ∧ CurrentFilter data = status
    ∧ (status ≠ EmptyString →
       (∀ job, job ∈ Jobs data ↔ job ∈ job_applications db ∧ Status job = status)
       ∧ (f_counts = NoFault →
          map_index (StatusCounts data) status = length (Jobs data)))
    ∧ (status = EmptyString →
       Jobs data ≡ₚ job_applications db
       ∧ FilterHandler NoFault f_counts db query = HomeHandler NoFault f_counts db ∅)
    ∧ (f_counts ≠ NoFault → StatusCounts data = ∅).
Proof.
  intros status. unfold FilterHandler. fold status.
  destruct (String.eqb_spec status EmptyString) as [Hempty|Hstatus]; cbn [negb].
  - eexists. split; [reflexivity|]. cbn [CurrentFilter Jobs StatusCounts].
    split_and!; [reflexivity|contradiction| |apply statusCounts_fault].
    intros _. split; [apply merge_sort_Permutation|].
    now rewrite Hempty.
  - eexists. split; [reflexivity|]. cbn [CurrentFilter Jobs StatusCounts].
    split_and!; [reflexivity| |contradiction|apply statusCounts_fault].
    intros _. unfold order_by_newest_first. split.
    + intros job. rewrite merge_sort_Permutation, elem_of_filter_bool.
      now rewrite String.eqb_eq.
    + intros ->. rewrite statusCounts_index. unfold count_status.
      now rewrite merge_sort_Permutation.
Qed.

(** The theorem on the store of three records: the page of the status
    "Applied". *)
Lemma filter_page_witness :
  ∃ data,
    FilterHandler NoFault NoFault example_db3 {[ "status" := "Applied" ]}
    = ExecuteTemplate_index data
    ∧ (∀ job, job ∈ Jobs data ↔ job ∈ job_applications example_db3
                                 ∧ Status job = "Applied")
    ∧ map_index (StatusCounts data) "Applied" = length (Jobs data).
Proof.
  destruct (filter_page NoFault example_db3 {[ "status" := "Applied" ]})
    as (data & Hpage & _ & Hstatus & _).
  exists data. split; [exact Hpage|].
  assert (Hne : default EmptyString
                  (({[ "status" := "Applied" ]} : gmap string string) !! "status")
                ≠ EmptyString) by (vm_compute; discriminate).
  destruct (Hstatus Hne) as [Hjobs Hcount].
  assert (Heq : default EmptyString
                  (({[ "status" := "Applied" ]} : gmap string string) !! "status")
                = "Applied") by (vm_compute; reflexivity).
  rewrite Heq in Hjobs, Hcount. split; [exact Hjobs|exact (Hcount eq_refl)].
Defined.

(** X15: while the query of the records works, [HomeHandler] shows the index
    page with every stored record exactly once and no current filter; the
    count the page shows for a status is the number of listed records of
    that status.  The page reports an error exactly when the query has a
    non-empty error parameter, also when it has a success parameter, and a
    success exactly when it has a non-empty success parameter and no
    error parameter; a message is never shown without one of the two. *)
Theorem home_page (f_counts : fault) (db : DB) (query : gmap string string) :
  ∃ data,
    HomeHandler NoFault f_counts db query = ExecuteTemplate_index data
    ∧ Jobs data ≡ₚ job_applications db
    ∧ CurrentFilter data = EmptyString
    ∧ (f_counts = NoFault →
       ∀ status,
         map_index (StatusCounts data) status
         = length (List.filter (fun job => String.eqb (Status job) status)
                               (Jobs data)))
    ∧ (StatusType data = "error"
       ↔ default EmptyString (query !! "error") ≠ EmptyString)
    ∧ (StatusType data = "success"
       ↔ default EmptyString (query !! "error") = EmptyString
         ∧ default EmptyString (query !! "success") ≠ EmptyString)
    ∧ (StatusMessage data ≠ EmptyString → StatusType data ≠ EmptyString).
Proof.
  unfold HomeHandler. cbn [GetAllJobApplications]. cbv zeta.
  assert (Hcounts : f_counts = NoFault →
            ∀ status,
              map_index (statusCounts_or_empty f_counts db) status
              = length (List.filter (fun job => String.eqb (Status job) status)
                          (order_by_newest_first (job_applications db)))).
  { intros -> status. rewrite statusCounts_index. unfold count_status.
    apply Permutation_length, filter_Permutation. symmetry.
    apply merge_sort_Permutation. }
  destruct (String.eqb_spec (default EmptyString (query !! "error")) EmptyString)
    as [Herr|Herr]; cbn [negb].
  - destruct (String.eqb_spec (default EmptyString (query !! "success")) EmptyString)
      as [Hsuc|Hsuc]; cbn [negb].
    + eexists. split; [reflexivity|].
      cbn [Jobs CurrentFilter StatusCounts StatusType StatusMessage].
      split_and!; [apply merge_sort_Permutation|reflexivity|assumption|..].
      * split; [discriminate|contradiction].
      * split; [discriminate|]. intros [_ Hne]. contradiction.
      * intros Hne. contradiction.
    + eexists. split; [reflexivity|].
      cbn [Jobs CurrentFilter StatusCounts StatusType StatusMessage].
      split_and!; [apply merge_sort_Permutation|reflexivity|assumption|..].
      * split; [discriminate|contradiction].
      * split; [now split|reflexivity].
      * discriminate.
  - eexists. split; [reflexivity|].
    cbn [Jobs CurrentFilter StatusCounts StatusType StatusMessage].
    split_and!; [apply merge_sort_Permutation|reflexivity|assumption|..].
    + split; [intros _; assumption|reflexivity].
    + split; [discriminate|]. intros [He _]. contradiction.
    + discriminate.
Qed.

(** The theorem on the store of three records: the counts of the page. *)
Lemma home_page_witness :
  ∃ data,
    HomeHandler NoFault NoFault example_db3 ∅ = ExecuteTemplate_index data
    ∧ map_index (StatusCounts data) "Applied"
      = length (List.filter (fun job => String.eqb (Status job) "Applied")
                            (Jobs data)).
Proof.
  destruct (home_page NoFault example_db3 ∅) as (data & Hpage & _ & _ & Hcounts & _).
  exists data. split; [exact Hpage|]. exact (Hcounts eq_refl "Applied").
Defined.

(** ** The store under the CSV import *)

Section CSV_store.
Variable Map_unicode_ToLower : string → string.
Variable TrimFunc_IsSpace : string → string.
Variable TrimRightFunc_IsSpace : string → string.
Variable env : nat → fault * time.Time.

Local Abbreviation parseCSVRecord :=
  (handlers.parseCSVRecord TrimFunc_IsSpace TrimRightFunc_IsSpace).
Local Abbreviation isEmptyRow :=
  (handlers.isEmptyRow TrimFunc_IsSpace TrimRightFunc_IsSpace).
Local Abbreviation importRow :=
  (handlers.importRow TrimFunc_IsSpace TrimRightFunc_IsSpace env).
Local Abbreviation importRows :=
  (handlers.importRows TrimFunc_IsSpace TrimRightFunc_IsSpace env).
Local Abbreviation startIdx :=
  (handlers.startIdx Map_unicode_ToLower TrimFunc_IsSpace TrimRightFunc_IsSpace).
Local Abbreviation importRecords :=
  (handlers.importRecords Map_unicode_ToLower TrimFunc_IsSpace
     TrimRightFunc_IsSpace env).
Local Abbreviation ProcessCSVHandler :=
  (handlers.ProcessCSVHandler Map_unicode_ToLower TrimFunc_IsSpace
     TrimRightFunc_IsSpace env).

(** A property of the import state that every turn of the loop keeps holds
    after the loop. *)
Lemma importRows_invariant (P : ImportState → Prop) i rows st :
  (∀ i record st, P st → P (importRow i record st)) →
  P st → P (importRows i rows st).
Proof.
  intros Hstep. revert i st. induction rows as [|record rows IH]; intros i st Hst.
  - exact Hst.
  - simpl. apply IH, Hstep, Hst.
Qed.

(** A property of the store that the insert of a parsed row keeps holds
    after a turn of the loop. *)
Lemma importRow_store_invariant (P : DB → Prop) i record st :
  (∀ f now db job record,
     parseCSVRecord record = inl job → P db →
     P (CreateJobApplication f now db job).1.1) →
  P (st_db st) → P (st_db (importRow i record st)).
Proof.
  intros Hcreate Hst. unfold handlers.importRow.
  destruct (isEmptyRow record); [assumption|].
  destruct (parseCSVRecord record) as [job|err] eqn:Hparse; [|assumption].
  specialize (Hcreate (env i).1 (env i).2 (st_db st) job record Hparse Hst).
  now destruct (CreateJobApplication (env i).1 (env i).2 (st_db st) job)
    as [[db' job'] [err|]].
Qed.

Lemma ProcessCSVHandler_cases (db : DB) (r : Request) :
  (ProcessCSVHandler db r).1 = db
  ∧ (∃ msg code, (ProcessCSVHandler db r).2 = http_Error msg code)
  ∨ ∃ records,
      ProcessCSVHandler db r
      = ((importRecords db records).1,
         ExecuteTemplate_import_result (importRecords db records).2).
Proof.
  unfold handlers.ProcessCSVHandler.
  destruct (negb (Method r =? "POST")%string); [left; eauto|].
  destruct (negb (ParseMultipartForm_ok r)); [left; eauto|].
  destruct (FormFile_csv_file r) as [file|]; [|left; eauto].
  destruct (csv.ReadAll file) as [records|]; [|left; eauto].
  destruct (Nat.eqb (length records) 0); [left; eauto|].
  right. exists records. now destruct (importRecords db records).
Qed.

Lemma importRecords_store_invariant (P : DB → Prop) db records :
  (∀ f now db job record,
     parseCSVRecord record = inl job → P db →
     P (CreateJobApplication f now db job).1.1) →
  P db → P (importRecords db records).1.
Proof.
  intros Hcreate Hdb. unfold handlers.importRecords. cbn [fst].
  apply (importRows_invariant (fun st => P (st_db st))); [|exact Hdb].
  intros i record st. now apply importRow_store_invariant.
Qed.




(** X17: [ProcessCSVHandler] keeps the identifiers of the store unique, and
    when every record of the store has a title, a company and a status, so
    has every record of the store after it. *)
Theorem import_keeps_invariants (db : DB) (r : Request) :
  (store.uniqueIds db → store.uniqueIds (ProcessCSVHandler db r).1)
  ∧ ((∀ row, row ∈ job_applications db → hasRequiredFields row) →
     ∀ row, row ∈ job_applications (ProcessCSVHandler db r).1 →
            hasRequiredFields row).
Proof.
  destruct (ProcessCSVHandler_cases db r) as [[Hsame _]|[records ->]].
  - rewrite Hsame. auto.
  - cbn [fst]. split.
    + apply (importRecords_store_invariant store.uniqueIds).
      intros f now db' job record _. apply CreateJobApplication_uniqueIds.
    + apply (importRecords_store_invariant
               (fun db' => ∀ row, row ∈ job_applications db' → hasRequiredFields row)).
      intros f now db' job record Hparse Hall row.
      apply parseCSVRecord_required_fields in Hparse as (Htitle & Hcompany & Hstatus & _).
      destruct f; cbn; rewrite ?elem_of_app, ?list_elem_of_singleton;
        try apply Hall; (intros [Hrow| ->]; [now apply Hall|now split_and!]).
Qed.

Lemma parseCSVRecord_narrow record :
  (length record < 3)%nat →
  parseCSVRecord record
  = inr (Errorf "insufficient columns (need at least: date_applied, job_title, company)").
Proof.
  destruct record as [|r0 [|r1 [|r2 rest]]]; simpl; try reflexivity. lia.
Qed.

Lemma importRows_narrow i rows st :
  Forall (fun record => (length record < 3)%nat) rows →
  Forall (fun msg => ∃ k, msg = insufficientColumns k) (errors st) →
  st_db (importRows i rows st) = st_db st
  ∧ successCount (importRows i rows st) = successCount st
  ∧ Forall (fun msg => ∃ k, msg = insufficientColumns k)
           (errors (importRows i rows st)).
Proof.
  intros Hnarrow. revert i st.
  induction Hnarrow as [|record rows Hrecord _ IH]; intros i st Hst; [auto|].
  simpl. assert (Hrow : st_db (importRow i record st) = st_db st
                        ∧ successCount (importRow i record st) = successCount st
                        ∧ Forall (fun msg => ∃ k, msg = insufficientColumns k)
                                 (errors (importRow i record st))).
  { unfold handlers.importRow. destruct (isEmptyRow record); [auto|].
    rewrite (parseCSVRecord_narrow record Hrecord). cbn.
    split_and!; [reflexivity..|]. apply Forall_app. split; [assumption|].
    constructor; [|constructor]. now exists i. }
  destruct Hrow as (Hdb & Hcount & Herrors).
  destruct (IH (S i) (importRow i record st) Herrors) as (Hdb' & Hcount' & Herrors').
  split_and!; [congruence|congruence|assumption].
Qed.

(** X18: a file that the CSV reader accepts and whose first record has fewer
    than three fields stores nothing: the import answers with the result
    page, the store is as it was, the success count is 0, and every message
    is the message of insufficient columns for some row. *)
Theorem narrow_file_stores_nothing (db : DB) (r : Request) (file : csv.File)
    (first : list string) (rest : list (list string)) :
  Method r = "POST" → ParseMultipartForm_ok r = true →
  FormFile_csv_file r = Some file →
  csv.ReadAll file = Some (first :: rest) →
  (length first < 3)%nat →
  ∃ data,
    ProcessCSVHandler db r = (db, ExecuteTemplate_import_result data)
    ∧ SuccessCount data = 0%nat
    ∧ Forall (fun msg => ∃ k, msg = insufficientColumns k) (Errors data).
Proof.
  intros Hmethod Hform Hfile Hread Hfirst.
  assert (Hnarrow : Forall (fun record => (length record < 3)%nat) (first :: rest)).
  { unfold csv.ReadAll in Hread. destruct file as [records|]; [|discriminate].
    destruct records as [|first' rest']; [discriminate|].
    destruct (forallb _ rest') eqn:Hwidth; [|discriminate].
    injection Hread as -> ->. constructor; [assumption|].
    apply Forall_forall. intros record Hin. apply list_elem_of_In in Hin.
    rewrite forallb_forall in Hwidth. apply Hwidth, Nat.eqb_eq in Hin. lia. }
  unfold handlers.ProcessCSVHandler. rewrite Hmethod, Hform, Hfile, Hread.
  rewrite String.eqb_refl. cbn [negb length Nat.eqb].
  unfold handlers.importRecords.
  destruct (importRows_narrow (startIdx (first :: rest))
              (drop (startIdx (first :: rest)) (first :: rest))
              {| st_db := db; successCount := 0; errorCount := 0; errors := [] |})
    as (Hdb & Hcount & Herrors).
  - clear -Hnarrow. apply Forall_forall. intros record Hin.
    rewrite Forall_forall in Hnarrow. apply Hnarrow.
    eapply subseteq_drop. exact Hin.
  - constructor.
  - cbn [st_db successCount] in Hdb, Hcount.
    exists {| SuccessCount := 0;
              ErrorCount :=
                errorCount
                  (importRows (startIdx (first :: rest))
                     (drop (startIdx (first :: rest)) (first :: rest))
                     {| st_db := db; successCount := 0; errorCount := 0;
                        errors := [] |});
              Errors :=
                errors
                  (importRows (startIdx (first :: rest))
                     (drop (startIdx (first :: rest)) (first :: rest))
                     {| st_db := db; successCount := 0; errorCount := 0;
                        errors := [] |});
              TotalRows := (length (first :: rest) - startIdx (first :: rest))%nat |}.
    split; [|split; [reflexivity|exact Herrors]].
    cbv zeta. cbn [fst snd]. now rewrite Hdb, Hcount.
Qed.

End CSV_store.


(** The theorem on the same upload into an empty store. *)
Lemma import_keeps_invariants_witness :
  store.uniqueIds
    (ProcessCSVHandler not_taken not_taken not_taken example_env New
       (example_upload (Some example_records))).1
  ∧ ∀ row,
      row ∈ job_applications
              (ProcessCSVHandler not_taken not_taken not_taken example_env New
                 (example_upload (Some example_records))).1 →
      hasRequiredFields row.
Proof.
  destruct (import_keeps_invariants not_taken not_taken not_taken example_env New
              (example_upload (Some example_records))) as (Hunique & Hfields).
  split.
  - apply Hunique. split_and!; [constructor|simpl; lia|].
    intros row Hrow. apply elem_of_nil in Hrow. contradiction.
  - apply Hfields. intros row Hrow. apply elem_of_nil in Hrow. contradiction.
Defined.

(** The theorem on the upload of the two-column example file. *)
Lemma narrow_file_stores_nothing_witness :
  ∃ data,
    ProcessCSVHandler not_taken not_taken not_taken example_env example_db
      (example_upload (Some example_narrow_records))
    = (example_db, ExecuteTemplate_import_result data)
    ∧ SuccessCount data = 0%nat
    ∧ Forall (fun msg => ∃ k, msg = insufficientColumns k) (Errors data).
Proof.
  apply (narrow_file_stores_nothing not_taken not_taken not_taken example_env
           example_db (example_upload (Some example_narrow_records))
           (Some example_narrow_records)
           ["2024-01-16"; "Backend Developer"] [["2024-01-17"; "QA Engineer"]]);
    [reflexivity..|simpl; lia].
Defined.

(** ** Dates and header keywords *)

Import datetext.

Lemma separatorByte_lowerByte (c : ascii) :
  separatorByte c = true → strings.lowerByte c = c.
Proof. destruct c as [[] [] [] [] [] [] [] []]; vm_compute; congruence. Qed.

Lemma separatorByte_ascii (c : ascii) :
  separatorByte c = true → strings.isASCIIbyte c = true.
Proof. unfold separatorByte. now intros [H _]%andb_true_iff. Qed.

Lemma isLetterByte_ascii (c : ascii) :
  isLetterByte c = true → strings.isASCIIbyte c = true.
Proof. destruct c as [[] [] [] [] [] [] [] []]; vm_compute; congruence. Qed.

Lemma separatorByte_not_letter (c k : ascii) :
  separatorByte c = true → isLetterByte k = true → Ascii.eqb c k = false.
Proof.
  intros Hc Hk. destruct (Ascii.eqb_spec c k) as [->|]; [|reflexivity].
  unfold separatorByte in Hc. rewrite Hk in Hc. now rewrite andb_false_r in Hc.
Qed.

Lemma isDigitByte_separator (c : ascii) :
  time.isDigitByte c = true → separatorByte c = true.
Proof. destruct c as [[] [] [] [] [] [] [] []]; vm_compute; congruence. Qed.

Lemma space_separator (c : ascii) :
  Ascii.eqb c " " = true → separatorByte c = true.
Proof. intros ->%Ascii.eqb_eq. reflexivity. Qed.

Lemma fold_letter (c : ascii) :
  ((97 <=? N.lor (N_of_ascii c) 32)%N && (N.lor (N_of_ascii c) 32 <=? 122)%N) = true →
  isLetterByte c = true
  ∧ N_of_ascii (strings.lowerByte c) = N.lor (N_of_ascii c) 32.
Proof. destruct c as [[] [] [] [] [] [] [] []]; vm_compute; auto; congruence. Qed.

Lemma matchFold_byte (c1 c2 : ascii) :
  (Ascii.eqb c1 c2 ||
   (let l1 := N.lor (N_of_ascii c1) 32 in
    let l2 := N.lor (N_of_ascii c2) 32 in
    (l1 =? l2)%N && (97 <=? l1)%N && (l1 <=? 122)%N)) = true →
  isLetterByte c2 = true →
  isLetterByte c1 = true ∧ strings.lowerByte c1 = strings.lowerByte c2.
Proof.
  cbv zeta. intros Hmatch Hletter.
  apply orb_true_iff in Hmatch as [->%Ascii.eqb_eq|Hfold]; [auto|].
  apply andb_true_iff in Hfold as [Hfold Hhigh].
  apply andb_true_iff in Hfold as [Heq%N.eqb_eq Hlow].
  destruct (fold_letter c1) as [Hc1 Hl1]; [now rewrite Hlow, Hhigh|].
  destruct (fold_letter c2) as [_ Hl2]; [now rewrite <- Heq, Hlow, Hhigh|].
  split; [assumption|].
  rewrite <- (ascii_N_embedding (strings.lowerByte c1)),
          <- (ascii_N_embedding (strings.lowerByte c2)).
  now rewrite Hl1, Hl2, Heq.
Qed.

Lemma lowered_app (s1 s2 : string) :
  lowered (s1 +:+ s2) = lowered s1 +:+ lowered s2.
Proof.
  induction s1 as [|c s1 IH]; [reflexivity|].
  rewrite string_app_cons. unfold lowered in *. simpl.
  now rewrite IH, string_app_cons.
Qed.

Lemma string_forall_app (p : ascii → bool) (s1 s2 : string) :
  strings.string_forall p (s1 +:+ s2)
  = strings.string_forall p s1 && strings.string_forall p s2.
Proof.
  induction s1 as [|c s1 IH]; [reflexivity|].
  rewrite string_app_cons. simpl. rewrite IH. now rewrite andb_assoc.
Qed.

Lemma guarded_lowered (s : string) : guarded s = true → guarded (lowered s) = true.
Proof.
  destruct s as [|c s]; [reflexivity|]. simpl. intros Hc.
  now rewrite (separatorByte_lowerByte c Hc).
Qed.

Lemma HasPrefix_app_guarded (w s keyword : string) :
  guarded s = true → strings.string_forall isLetterByte keyword = true →
  keyword ≠ EmptyString →
  strings.HasPrefix (w +:+ s) keyword = strings.HasPrefix w keyword.
Proof.
  intros Hguard. revert keyword.
  induction w as [|a w IH]; intros [|k keyword] Hletters Hne; try congruence.
  - rewrite string_app_nil_l. simpl in Hletters.
    apply andb_true_iff in Hletters as [Hk _].
    destruct s as [|c s]; [reflexivity|]. simpl in *.
    now rewrite (separatorByte_not_letter c k Hguard Hk).
  - rewrite string_app_cons. simpl in *.
    apply andb_true_iff in Hletters as [_ Hletters].
    destruct keyword as [|k' keyword].
    + now destruct (w +:+ s), w.
    + now rewrite IH.
Qed.

Lemma Contains_app_guarded (w s keyword : string) :
  guarded s = true → strings.string_forall isLetterByte keyword = true →
  keyword ≠ EmptyString →
  strings.Contains (w +:+ s) keyword
  = strings.Contains w keyword || strings.Contains s keyword.
Proof.
  intros Hguard Hletters Hne. induction w as [|a w IH].
  - rewrite string_app_nil_l. destruct keyword; [congruence|]. reflexivity.
  - rewrite string_app_cons. cbn [strings.Contains]. rewrite IH.
    rewrite <- string_app_cons.
    rewrite (HasPrefix_app_guarded (String a w) s keyword Hguard Hletters Hne).
    now rewrite orb_assoc.
Qed.

Lemma headerKeywords_letters (keyword : string) :
  In keyword headerKeywords →
  strings.string_forall isLetterByte keyword = true ∧ keyword ≠ EmptyString.
Proof.
  unfold headerKeywords. simpl.
  intros [<-|[<-|[<-|[<-|[<-|[<-|[]]]]]]]; split; (reflexivity || discriminate).
Qed.

Lemma noKeyword_separator (c : ascii) (s : string) :
  separatorByte c = true → noKeyword s = true → noKeyword (String c s) = true.
Proof.
  intros Hc. unfold noKeyword. rewrite !forallb_forall.
  intros Hs keyword Hin. specialize (Hs keyword Hin).
  destruct (headerKeywords_letters keyword Hin) as [Hletters Hne].
  destruct keyword as [|k keyword]; [congruence|]. simpl in Hletters.
  apply andb_true_iff in Hletters as [Hk _].
  apply negb_true_iff in Hs. apply negb_true_iff.
  unfold lowered in *. cbn [strings.string_map strings.Contains strings.HasPrefix].
  rewrite Hs, (separatorByte_lowerByte c Hc), (separatorByte_not_letter c k Hc Hk).
  reflexivity.
Qed.

Lemma noKeyword_word (x s : string) :
  noKeyword x = true → noKeyword s = true → guarded s = true →
  noKeyword (x +:+ s) = true.
Proof.
  unfold noKeyword. rewrite !forallb_forall. intros Hx Hs Hguard keyword Hin.
  specialize (Hx keyword Hin). specialize (Hs keyword Hin).
  destruct (headerKeywords_letters keyword Hin) as [Hletters Hne].
  apply negb_true_iff in Hx, Hs. apply negb_true_iff.
  rewrite lowered_app, Contains_app_guarded; try assumption.
  - now rewrite Hx, Hs.
  - now apply guarded_lowered.
Qed.

Lemma plainText_separator (c : ascii) (s : string) :
  separatorByte c = true → plainText s = true → plainText (String c s) = true.
Proof.
  unfold plainText. intros Hc [Hascii Hkw]%andb_true_iff. simpl.
  now rewrite (separatorByte_ascii c Hc), Hascii, (noKeyword_separator c s Hc Hkw).
Qed.

Lemma letters_ascii (w : string) :
  strings.string_forall isLetterByte w = true →
  strings.string_forall strings.isASCIIbyte w = true.
Proof.
  induction w as [|c w IH]; [reflexivity|]. simpl.
  intros [Hc Hw]%andb_true_iff. now rewrite (isLetterByte_ascii c Hc), IH.
Qed.

Lemma plainText_word (x s : string) :
  plainWord x = true → plainText s = true → guarded s = true →
  plainText (x +:+ s) = true.
Proof.
  unfold plainWord, plainText.
  intros [Hletters Hx]%andb_true_iff [Hascii Hs]%andb_true_iff Hguard.
  rewrite string_forall_app, (letters_ascii x Hletters), Hascii.
  now rewrite noKeyword_word.
Qed.

Lemma plainText_nil : plainText EmptyString = true.
Proof. reflexivity. Qed.

(** *** The steps of [time.Parse] *)

Lemma cutspace_plain (s : string) :
  plainText (time.cutspace s) = true → plainText s = true.
Proof.
  induction s as [|c s IH]; [auto|]. simpl.
  destruct (Ascii.eqb c " ") eqn:Hc; [|auto].
  intros H. apply plainText_separator; [now apply space_separator|auto].
Qed.

Lemma skip_from_plain (cut : bool) (value prefix rest : string) :
  strings.string_forall separatorByte prefix = true →
  time.skip_from cut value prefix = Some rest →
  plainText rest = true → plainText value = true.
Proof.
  revert cut value. induction prefix as [|p prefix IH]; intros cut value Hsep.
  - simpl. now intros [= ->].
  - simpl in Hsep. apply andb_true_iff in Hsep as [Hp Hsep]. simpl.
    destruct (Ascii.eqb p " ") eqn:Hspace.
    + destruct cut; [now apply IH|].
      destruct value as [|v value]; [now apply IH|].
      destruct (Ascii.eqb v " ") eqn:Hv; [|discriminate].
      intros Hskip Hrest. apply (cutspace_plain (String v value)).
      now apply (IH true _ Hsep Hskip).
    + destruct value as [|v value]; [discriminate|].
      destruct (Ascii.eqb_spec v p) as [->|]; [|discriminate].
      intros Hskip Hrest. apply plainText_separator; [assumption|].
      now apply (IH false _ Hsep Hskip).
Qed.

Lemma skip_guarded (value prefix rest : string) :
  strings.string_forall separatorByte prefix = true →
  time.skip value prefix = Some rest →
  (prefix = EmptyString → guarded rest = true) → guarded value = true.
Proof.
  unfold time.skip. destruct prefix as [|p prefix].
  - simpl. intros _ [= ->] H. now apply H.
  - simpl. intros [Hp _]%andb_true_iff Hskip _.
    destruct (Ascii.eqb p " ") eqn:Hspace.
    + destruct value as [|v value]; [reflexivity|].
      destruct (Ascii.eqb v " ") eqn:Hv; [|discriminate].
      simpl. now apply space_separator.
    + destruct value as [|v value]; [discriminate|].
      destruct (Ascii.eqb_spec v p) as [->|]; [|discriminate]. exact Hp.
Qed.

Lemma letter_not_space (c : ascii) : isLetterByte c = true → Ascii.eqb c " " = false.
Proof.
  intros Hc. destruct (Ascii.eqb_spec c " ") as [->|]; [discriminate|reflexivity].
Qed.

Lemma skip_from_word (cut : bool) (w q value rest : string) :
  strings.string_forall isLetterByte w = true → w ≠ EmptyString →
  time.skip_from cut value (w +:+ q) = Some rest →
  ∃ value', value = w +:+ value' ∧ time.skip value' q = Some rest.
Proof.
  revert cut value. induction w as [|c w IH]; intros cut value Hletters Hne;
    [congruence|].
  simpl in Hletters. apply andb_true_iff in Hletters as [Hc Hw].
  rewrite string_app_cons. simpl. rewrite (letter_not_space c Hc).
  destruct value as [|v value]; [discriminate|].
  destruct (Ascii.eqb_spec v c) as [->|]; [|discriminate].
  destruct w as [|c' w].
  - rewrite string_app_nil_l. intros Hskip. exists value. now split.
  - intros Hskip. destruct (IH false value Hw ltac:(discriminate) Hskip)
      as (value' & -> & Hskip').
    exists value'. now split.
Qed.

Lemma splitWord_app (s : string) :
  s = (splitWord s).1 +:+ (splitWord s).2
  ∧ strings.string_forall isLetterByte (splitWord s).1 = true.
Proof.
  induction s as [|c s [IH1 IH2]]; [now split|]. simpl.
  destruct (isLetterByte c) eqn:Hc; simpl.
  - rewrite string_app_cons, <- IH1, Hc. now split.
  - now split.
Qed.

Lemma getnum_plain (value : string) (fixed : bool) n value' :
  time.getnum value fixed = Some (n, value') →
  plainText value' = true → plainText value = true ∧ guarded value = true.
Proof.
  unfold time.getnum. destruct value as [|c0 s1]; [discriminate|].
  destruct (time.isDigitByte c0) eqn:H0; [|discriminate].
  apply isDigitByte_separator in H0. simpl guarded.
  destruct s1 as [|c1 s2].
  - destruct fixed; [discriminate|]. intros [= <- <-] _. split; [|assumption].
    now apply plainText_separator.
  - destruct (time.isDigitByte c1) eqn:H1.
    + apply isDigitByte_separator in H1. intros [= <- <-] Hplain.
      split; [|assumption]. now do 2 (apply plainText_separator; [assumption|]).
    + destruct fixed; [discriminate|]. intros [= <- <-] Hplain.
      split; [|assumption]. now apply plainText_separator.
Qed.

Lemma getyear_plain (value : string) n value' :
  time.getyear value = Some (n, value') →
  plainText value' = true → plainText value = true ∧ guarded value = true.
Proof.
  unfold time.getyear.
  destruct value as [|c0 [|c1 [|c2 [|c3 s]]]]; try discriminate.
  destruct (time.isDigitByte c0) eqn:H0; [|discriminate].
  destruct (time.isDigitByte c1) eqn:H1; [|discriminate].
  destruct (time.isDigitByte c2) eqn:H2; [|discriminate].
  destruct (time.isDigitByte c3) eqn:H3; [|discriminate].
  apply isDigitByte_separator in H0, H1, H2, H3. simpl.
  intros [= <- <-] Hplain. split; [|assumption].
  now do 4 (apply plainText_separator; [assumption|]).
Qed.

Lemma take_drop (n : nat) (s : string) : time.take n s +:+ time.drop n s = s.
Proof.
  revert s. induction n as [|n IH]; intros [|c s]; try reflexivity. simpl.
  now rewrite string_app_cons, IH.
Qed.

Lemma matchFold_letters (x v : string) :
  time.matchFold x v = true → strings.string_forall isLetterByte v = true →
  strings.string_forall isLetterByte x = true ∧ lowered x = lowered v.
Proof.
  revert v. induction x as [|c1 x IH]; intros [|c2 v]; simpl; try discriminate; auto.
  intros [Hbyte Hrest]%andb_true_iff [Hc2 Hv]%andb_true_iff.
  destruct (matchFold_byte c1 c2 Hbyte Hc2) as [Hc1 Hlower].
  destruct (IH v Hrest Hv) as [Hx Hlowered].
  unfold lowered in *. simpl. rewrite Hc1, Hx, Hlower, Hlowered. now split.
Qed.

Lemma lookup_from_plain (i : Z) (tab : list string) (value : string) m value' :
  forallb plainWord tab = true →
  time.lookup_from i tab value = Some (m, value') →
  plainText value' = true → guarded value' = true → plainText value = true.
Proof.
  revert i. induction tab as [|v tab IH]; intros i Htab; [discriminate|].
  simpl in Htab. apply andb_true_iff in Htab as [Hv Htab]. simpl.
  destruct ((String.length v <=? String.length value)%nat
            && time.matchFold (time.take (String.length v) value) v) eqn:Hmatch.
  - intros [= <- <-] Hplain Hguard.
    apply andb_true_iff in Hmatch as [_ Hmatch].
    unfold plainWord in Hv. apply andb_true_iff in Hv as [Hletters Hkw].
    destruct (matchFold_letters _ _ Hmatch Hletters) as [Hx Hlowered].
    rewrite <- (take_drop (String.length v) value).
    apply plainText_word; try assumption.
    unfold plainWord, noKeyword in *. now rewrite Hx, Hlowered.
  - apply IH, Htab.
Qed.

Lemma monthNames_plain :
  forallb plainWord time.shortMonthNames = true
  ∧ forallb plainWord time.longMonthNames = true.
Proof. split; vm_compute; reflexivity. Qed.

Lemma parseChunk_plain (c : time.std) (value : string) st value' st' :
  time.parseChunk c value st = Some (value', st') →
  plainText value' = true → (isMonthStd c = true → guarded value' = true) →
  plainText value = true ∧ (isMonthStd c = false → guarded value = true).
Proof.
  destruct monthNames_plain as [Hshort Hlong].
  destruct c; simpl; intros Hchunk Hplain Hguard.
  - destruct (time.lookup time.longMonthNames value) as [[m v]|] eqn:Hlook;
      [|discriminate]. cbn in Hchunk. injection Hchunk as <- _.
    split; [|discriminate].
    apply (lookup_from_plain 0 time.longMonthNames value m v); auto.
  - destruct (time.lookup time.shortMonthNames value) as [[m v]|] eqn:Hlook;
      [|discriminate]. cbn in Hchunk. injection Hchunk as <- _.
    split; [|discriminate].
    apply (lookup_from_plain 0 time.shortMonthNames value m v); auto.
  - destruct (time.getnum value false) as [[m v]|] eqn:Hnum; [|discriminate].
    cbn in Hchunk. destruct ((m <=? 0) || (12 <? m)); [discriminate|].
    injection Hchunk as <- _.
    destruct (getnum_plain _ _ _ _ Hnum Hplain). auto.
  - destruct (time.getnum value true) as [[m v]|] eqn:Hnum; [|discriminate].
    cbn in Hchunk. destruct ((m <=? 0) || (12 <? m)); [discriminate|].
    injection Hchunk as <- _.
    destruct (getnum_plain _ _ _ _ Hnum Hplain). auto.
  - destruct (time.getnum value false) as [[m v]|] eqn:Hnum; [|discriminate].
    cbn in Hchunk. injection Hchunk as <- _.
    destruct (getnum_plain _ _ _ _ Hnum Hplain). auto.
  - destruct (time.getnum value true) as [[m v]|] eqn:Hnum; [|discriminate].
    cbn in Hchunk. injection Hchunk as <- _.
    destruct (getnum_plain _ _ _ _ Hnum Hplain). auto.
  - destruct (time.getyear value) as [[m v]|] eqn:Hyear; [|discriminate].
    cbn in Hchunk. injection Hchunk as <- _.
    destruct (getyear_plain _ _ _ Hyear Hplain). auto.
  - discriminate.
Qed.

(** A text that [time.Parse] reads with a plain layout is plain. *)
Lemma parseLoop_plain (fuel : nat) (afterMonth : bool) (layout value : string)
    (st st' : time.fields) :
  plainLayout fuel afterMonth layout = true →
  time.parseLoop fuel layout value st = Some st' →
  plainText value = true ∧ (afterMonth = true → guarded value = true).
Proof.
  revert afterMonth layout value st.
  induction fuel as [|fuel IH]; intros afterMonth layout value st; [discriminate|].
  cbn [plainLayout time.parseLoop].
  destruct (time.nextStdChunk layout) as [[prefix c] suffix].
  destruct (splitWord_app prefix) as [Hprefix Hletters].
  set (w := (splitWord prefix).1) in *. set (q := (splitWord prefix).2) in *.
  intros Hlayout Hparse.
  apply andb_true_iff in Hlayout as [Hlayout Hchunk].
  apply andb_true_iff in Hlayout as [Hlayout Hword].
  apply andb_true_iff in Hlayout as [Hsep Hplainw].
  destruct (time.skip value prefix) as [v1|] eqn:Hskip; [|discriminate].
  cbn in Hparse.
  (* the text after the literal text of the layout *)
  assert (Hv1 : plainText v1 = true
                ∧ (q = EmptyString → afterMonth = true → guarded v1 = true)).
  { destruct c as [c|].
    - destruct (time.parseChunk c v1 st) as [[v2 st2]|] eqn:Hc; [|discriminate].
      cbn in Hparse.
      assert (Hsuffix : plainLayout fuel (isMonthStd c) suffix = true
                        ∧ (isMonthStd c = true →
                           negb (afterMonth && String.eqb q EmptyString) = true)).
      { destruct c; try discriminate; simpl;
          try (split; [assumption|discriminate]);
          apply andb_true_iff in Hchunk as [Hno Hsuffix]; auto. }
      destruct Hsuffix as [Hsuffix Hmonth].
      destruct (IH _ _ _ _ Hsuffix Hparse) as [Hv2 Hg2].
      destruct (parseChunk_plain c v1 st v2 st2 Hc Hv2 Hg2) as [Hplain Hguard].
      split; [assumption|]. intros -> ->.
      destruct (isMonthStd c) eqn:Hm; [|auto].
      specialize (Hmonth eq_refl). discriminate.
    - destruct (String.eqb_spec v1 EmptyString) as [->|]; [|discriminate].
      split; reflexivity. }
  destruct Hv1 as [Hplain1 Hguard1].
  destruct (String.eqb_spec w EmptyString) as [Hw|Hw].
  - (* no word in the literal text *)
    rewrite Hw, string_app_nil_l in Hprefix. rewrite Hprefix in Hskip.
    split.
    + now apply (skip_from_plain false value q v1 Hsep Hskip).
    + intros Hafter. apply (skip_guarded value q v1 Hsep Hskip). auto.
  - (* a word, and a separator after it *)
    cbn [orb] in Hword. apply andb_true_iff in Hword as [Hq Hafter].
    apply negb_true_iff in Hafter. subst afterMonth.
    rewrite Hprefix in Hskip. unfold time.skip in Hskip.
    destruct (skip_from_word false w q value v1 Hletters Hw Hskip)
      as (value' & -> & Hskip').
    split; [|discriminate].
    apply plainText_word; [assumption| |].
    + now apply (skip_from_plain false value' q v1 Hsep Hskip').
    + apply (skip_guarded value' q v1 Hsep Hskip'). intros ->. discriminate.
Qed.

Lemma formats_plain :
  forallb (fun layout => plainLayout (S (String.length layout)) false layout)
          formats = true.
Proof. vm_compute. reflexivity. Qed.

Lemma parseDate_plain (dateStr : string) (t : time.Time) :
  parseDate dateStr = inl t → plainText dateStr = true.
Proof.
  intros (_ & i & layout & Hlayout & Hparse & _)%parseDate_inl.
  pose proof formats_plain as Hformats. rewrite forallb_forall in Hformats.
  apply list_elem_of_lookup_2, list_elem_of_In, Hformats in Hlayout.
  unfold time.Parse in Hparse.
  destruct (time.parseLoop _ layout dateStr _) as [st|] eqn:Hloop; [|discriminate].
  now destruct (parseLoop_plain _ _ _ _ _ _ Hlayout Hloop).
Qed.

Lemma existsb_forallb_negb {A} (f : A → bool) (l : list A) :
  forallb (fun x => negb (f x)) l = true → existsb f l = false.
Proof.
  induction l as [|x l IH]; [reflexivity|]. simpl.
  intros [Hx Hl]%andb_true_iff. apply negb_true_iff in Hx. now rewrite Hx, IH.
Qed.

Section CSV_dates.
Variable Map_unicode_ToLower : string → string.
Variable TrimFunc_IsSpace : string → string.
Variable TrimRightFunc_IsSpace : string → string.
Variable env : nat → fault * time.Time.

Local Abbreviation TrimSpace :=
  (handlers.TrimSpace TrimFunc_IsSpace TrimRightFunc_IsSpace).
Local Abbreviation ToLower := (handlers.ToLower Map_unicode_ToLower).
Local Abbreviation isHeaderRow :=
  (handlers.isHeaderRow Map_unicode_ToLower TrimFunc_IsSpace TrimRightFunc_IsSpace).
Local Abbreviation parseCSVRecord :=
  (handlers.parseCSVRecord TrimFunc_IsSpace TrimRightFunc_IsSpace).
Local Abbreviation importRows :=
  (handlers.importRows TrimFunc_IsSpace TrimRightFunc_IsSpace env).
Local Abbreviation startIdx :=
  (handlers.startIdx Map_unicode_ToLower TrimFunc_IsSpace TrimRightFunc_IsSpace).
Local Abbreviation importRecords :=
  (handlers.importRecords Map_unicode_ToLower TrimFunc_IsSpace
     TrimRightFunc_IsSpace env).

Lemma ToLower_ascii (s : string) :
  strings.string_forall strings.isASCIIbyte s = true → ToLower s = lowered s.
Proof.
  intros Hascii. unfold handlers.ToLower, strings.ToLower, lowered. rewrite Hascii.
  destruct (strings.string_forall (fun c => negb (strings.isUpper c)) s) eqn:Hupper;
    [|reflexivity].
  symmetry. apply (string_map_id_on _ (fun c => negb (strings.isUpper c))); [|assumption].
  intros c Hc. unfold strings.lowerByte. now destruct (strings.isUpper c).
Qed.

Lemma plain_first_column (record0 : string) (rest : list string) :
  plainText (TrimSpace record0) = true → isHeaderRow (record0 :: rest) = false.
Proof.
  unfold plainText. intros [Hascii Hkw]%andb_true_iff.
  unfold handlers.isHeaderRow. cbv zeta.
  change (strings.ToLower Map_unicode_ToLower) with ToLower.
  apply existsb_forallb_negb. unfold noKeyword in Hkw.
  now rewrite (ToLower_ascii _ Hascii).
Qed.

(** X19: a row that [parseCSVRecord] accepts is never taken for a header:
    no text that [parseDate] reads as a date contains a header keyword.  So
    when the first row of a file is such a row the import skips no row, and
    it stores the record of that row when the driver does not fail on it. *)
Theorem dated_row_is_no_header (db : DB) (record : list string)
    (job : JobApplication) (rest : list (list string)) :
  parseCSVRecord record = inl job →
  isHeaderRow record = false
  ∧ startIdx (record :: rest) = 0%nat
  ∧ TotalRows (importRecords db (record :: rest)).2 = S (length rest)
  ∧ ((env 0%nat).1 = NoFault →
     job_applications (importRecords db (record :: rest)).1
       !! length (job_applications db)
     = Some (inserted_row (next_id db) (env 0%nat).2 job)).
Proof.
  intros Hparse.
  assert (Hheader : isHeaderRow record = false).
  { destruct (parseCSVRecord_inl _ _ _ _ Hparse)
      as (record0 & record1 & record2 & cols & -> & _ & Hdate & _).
    apply plain_first_column. exact (parseDate_plain _ _ Hdate). }
  assert (Hstart : startIdx (record :: rest) = 0%nat).
  { unfold handlers.startIdx. now rewrite Hheader. }
  split_and!; try assumption.
  - unfold handlers.importRecords. cbn [snd TotalRows]. rewrite Hstart. simpl. lia.
  - intros Hfault. unfold handlers.importRecords. cbn [fst]. rewrite Hstart.
    cbn [skipn handlers.importRows].
    rewrite (importRow_stored _ _ env 0 record _ job Hparse Hfault). cbn [st_db].
    match goal with |- context [handlers.importRows _ _ _ 1%nat rest ?st] =>
      destruct (importRows_steps TrimFunc_IsSpace TrimRightFunc_IsSpace env
                  1 rest st) as (_ & Hprefix & _)
    end.
    eapply prefix_lookup_Some; [|exact Hprefix]. cbn [st_db job_applications].
    now rewrite lookup_app_r, Nat.sub_diag by lia.
Qed.

End CSV_dates.

(** The theorem on a file whose first row is a record and whose second row
    is the header. *)
Lemma dated_row_is_no_header_witness :
  startIdx not_taken not_taken not_taken
    [ ["Jan 18, 2024"; "Data Engineer"; "Globex"];
      ["Date Applied"; "Job Title"; "Company"] ] = 0%nat
  ∧ ∃ stored,
      job_applications
        (example_import example_db
           [ ["Jan 18, 2024"; "Data Engineer"; "Globex"];
             ["Date Applied"; "Job Title"; "Company"] ]).1 !! 1%nat
      = Some stored
      ∧ Company stored = "Globex".
Proof.
  destruct (dated_row_is_no_header not_taken not_taken not_taken example_env
              example_db ["Jan 18, 2024"; "Data Engineer"; "Globex"]
              {| ID := 0; DateApplied := time.Date 2024 1 18;
                 JobTitle := "Data Engineer"; Company := "Globex";
                 Status := StatusApplied; JobURL := EmptyString;
                 Notes := EmptyString;
                 CreatedAt := time.zeroTime; UpdatedAt := time.zeroTime |}
              [ ["Date Applied"; "Job Title"; "Company"] ])
    as (_ & Hstart & _ & Hstored).
  - vm_compute. reflexivity.
  - split; [exact Hstart|]. eexists. split; [exact (Hstored eq_refl)|reflexivity].
Defined.
Lemma Parse_iso_bytes (c0 c1 c2 c3 m0 m1 d0 d1 : ascii) :
  time.isDigitByte c0 = true → time.isDigitByte c1 = true →
  time.isDigitByte c2 = true → time.isDigitByte c3 = true →
  time.isDigitByte m0 = true → time.isDigitByte m1 = true →
  time.isDigitByte d0 = true → time.isDigitByte d1 = true →
  let y := ((time.digitVal c0 * 10 + time.digitVal c1) * 10 + time.digitVal c2) * 10
           + time.digitVal c3 in
  let m := time.digitVal m0 * 10 + time.digitVal m1 in
  let d := time.digitVal d0 * 10 + time.digitVal d1 in
  1 <= m <= 12 → 1 <= d <= time.daysIn m y →
  time.Parse "2006-01-02"
    (String c0 (String c1 (String c2 (String c3 (String "-"
       (String m0 (String m1 (String "-" (String d0 (String d1 EmptyString))))))))))
  = Some (time.Date y m d).
Proof.
  intros H0 H1 H2 H3 H4 H5 H6 H7 y m d Hm Hd.
  unfold time.Parse. cbn [String.length time.parseLoop].
  replace (time.nextStdChunk "2006-01-02")
    with (EmptyString, Some time.stdLongYear, "-01-02") by (vm_compute; reflexivity).
  cbn [time.skip time.skip_from time.parseChunk time.getyear mbind option_bind].
  rewrite H0, H1, H2, H3. cbn [andb mbind option_bind].
  replace (time.nextStdChunk "-01-02")
    with ("-", Some time.stdZeroMonth, "-02") by (vm_compute; reflexivity).
  cbn [time.skip time.skip_from time.parseChunk time.getnum mbind option_bind
       Ascii.eqb Bool.eqb time.f_year time.f_month time.f_day].
  rewrite H4, H5. cbn [mbind option_bind]. fold m.
  destruct (Z.leb_spec m 0); [lia|]. destruct (Z.ltb_spec 12 m); [lia|].
  cbn [orb].
  replace (time.nextStdChunk "-02")
    with ("-", Some time.stdZeroDay, EmptyString) by (vm_compute; reflexivity).
  cbn [time.skip time.skip_from time.parseChunk time.getnum mbind option_bind
       Ascii.eqb Bool.eqb time.f_year time.f_month time.f_day].
  rewrite H6, H7. cbn [mbind option_bind]. fold d.
  replace (time.nextStdChunk EmptyString)
    with (EmptyString, @None time.std, EmptyString) by (vm_compute; reflexivity).
  cbn [time.skip time.skip_from mbind option_bind String.eqb
       time.f_year time.f_month time.f_day].
  fold y.
  destruct (Z.ltb_spec m 0); [lia|]. destruct (Z.ltb_spec d 0); [lia|].
  destruct (Z.ltb_spec d 1); [lia|]. destruct (Z.ltb_spec (time.daysIn m y) d); [lia|].
  reflexivity.
Qed.

Lemma digitByte_digit (n : Z) :
  0 <= n <= 9 →
  time.isDigitByte (digitByte n) = true ∧ time.digitVal (digitByte n) = n.
Proof.
  intros Hn.
  assert (Hcases : n = 0 ∨ n = 1 ∨ n = 2 ∨ n = 3 ∨ n = 4 ∨ n = 5 ∨ n = 6
                   ∨ n = 7 ∨ n = 8 ∨ n = 9) by lia.
  destruct Hcases as [->|[->|[->|[->|[->|[->|[->|[->|[->| ->]]]]]]]]];
    split; reflexivity.
Qed.

Lemma daysIn_le_31 (m y : Z) : time.daysIn m y <= 31.
Proof.
  unfold time.daysIn. destruct ((m =? 2) && time.isLeap y); [lia|].
  unfold time.daysBefore.
  destruct (Z.to_nat m) as [|[|[|[|[|[|[|[|[|[|[|[|[|[|k]]]]]]]]]]]]]] eqn:Hm;
    destruct (Z.to_nat (m - 1)) as [|[|[|[|[|[|[|[|[|[|[|[|[|[|j]]]]]]]]]]]]]] eqn:Hm';
    simpl; try lia; destruct j; simpl; lia.
Qed.

(** X20: the text YYYY-MM-DD of a day of the calendar is read as that day
    by the layout of the forms and by [parseDate], so a POST of the create
    form with that date is accepted. *)
Theorem iso_date_accepted (y m d : Z) :
  calendarDay y m d →
  time.Parse "2006-01-02" (isoDate y m d) = Some (time.Date y m d)
  ∧ parseDate (isoDate y m d) = inl (time.Date y m d)
  ∧ ∀ db now r,
      Method r = "POST" → ParseForm_ok r = true →
      FormValue r "date_applied" = isoDate y m d →
      (CreateJobHandler NoFault now db r).2 = http_Redirect "/" 303%nat.
Proof.
  intros (Hy & Hm & Hd). pose proof (daysIn_le_31 m y) as H31.
  assert (Hparse : time.Parse "2006-01-02" (isoDate y m d) = Some (time.Date y m d)).
  { destruct (digitByte_digit (y / 1000)) as [Hy0 Vy0];
      [clear -Hy Hm Hd H31; Z.div_mod_to_equations; lia|].
    destruct (digitByte_digit (y / 100 mod 10)) as [Hy1 Vy1];
      [clear -Hy Hm Hd H31; Z.div_mod_to_equations; lia|].
    destruct (digitByte_digit (y / 10 mod 10)) as [Hy2 Vy2];
      [clear -Hy Hm Hd H31; Z.div_mod_to_equations; lia|].
    destruct (digitByte_digit (y mod 10)) as [Hy3 Vy3];
      [clear -Hy Hm Hd H31; Z.div_mod_to_equations; lia|].
    destruct (digitByte_digit (m / 10)) as [Hm0 Vm0];
      [clear -Hy Hm Hd H31; Z.div_mod_to_equations; lia|].
    destruct (digitByte_digit (m mod 10)) as [Hm1 Vm1];
      [clear -Hy Hm Hd H31; Z.div_mod_to_equations; lia|].
    destruct (digitByte_digit (d / 10)) as [Hd0 Vd0];
      [clear -Hy Hm Hd H31; Z.div_mod_to_equations; lia|].
    destruct (digitByte_digit (d mod 10)) as [Hd1 Vd1];
      [clear -Hy Hm Hd H31; Z.div_mod_to_equations; lia|].
    assert (Ey : ((y / 1000 * 10 + y / 100 mod 10) * 10 + y / 10 mod 10) * 10
                 + y mod 10 = y).
    { clear -Hy. Z.div_mod_to_equations. lia. }
    assert (Em : m / 10 * 10 + m mod 10 = m).
    { clear. Z.div_mod_to_equations. lia. }
    assert (Ed : d / 10 * 10 + d mod 10 = d).
    { clear. Z.div_mod_to_equations. lia. }
    unfold isoDate.
    rewrite (Parse_iso_bytes _ _ _ _ _ _ _ _ Hy0 Hy1 Hy2 Hy3 Hm0 Hm1 Hd0 Hd1);
      rewrite ?Vy0, ?Vy1, ?Vy2, ?Vy3, ?Vm0, ?Vm1, ?Vd0, ?Vd1, ?Ey, ?Em, ?Ed;
      (reflexivity || assumption). }
  split_and!; [exact Hparse| |].
  - unfold parseDate.
    replace (String.eqb (isoDate y m d) EmptyString) with false by reflexivity.
    unfold formats. cbn [tryFormats]. now rewrite Hparse.
  - intros db now r Hpost Hform Hdate. unfold CreateJobHandler.
    rewrite Hpost, Hform, Hdate, Hparse, String.eqb_refl. reflexivity.
Qed.

(** The theorem on the last day of February of the leap year 2024. *)
Lemma iso_date_accepted_witness :
  parseDate "2024-02-29" = inl (time.Date 2024 2 29).
Proof.
  refine (proj1 (proj2 (iso_date_accepted 2024 2 29 _))).
  unfold calendarDay. vm_compute. intuition discriminate.
Defined.
